(** * vcardtools: a shallow embedding of [vcardlib.py] and its properties

    The development follows the layout of the library: Python string
    primitives, the regular expressions the library pre-compiles, name
    selection and sanitizing, the normalizer, the merger, the grouper and
    the text fixer.

    Strings are [String.string]; a character is a code point below 128
    (ASCII text).  Exceptions are values of [exn]; a function that can
    raise returns a [result]. *)

From Stdlib Require Import String Ascii List Arith Lia Bool Permutation.
From stdpp Require Import base option list strings pretty gmap.

Import ListNotations.
Local Open Scope string_scope.
Local Open Scope list_scope.

(** ** Exceptions and results *)

Inductive exn : Type :=
| TypeError (msg : string)
| ValueError (msg : string)
| RuntimeError (msg : string)
| KeyError (key : string)
| IndexError (msg : string)
| AttributeError (name : string).

Definition result (A : Type) : Type := exn + A.

Definition ok {A} (a : A) : result A := inr a.
Definition raise {A} (e : exn) : result A := inl e.

Definition bind {A B} (m : result A) (k : A → result B) : result B :=
  match m with
  | inl e => inl e
  | inr a => k a
  end.

Notation "'let!' x ':=' m 'in' k" := (bind m (fun x => k))
  (at level 10, x name, m at level 100, k at level 200).
Notation "'let!' ' p ':=' m 'in' k" := (bind m (fun p => k))
  (at level 10, p strict pattern, m at level 100, k at level 200).

Definition is_ok {A} (m : result A) : bool :=
  match m with inr _ => true | inl _ => false end.

(** ** Python string primitives *)

Module Py.

(** [c in string.whitespace] as [str.strip()] and [str.isspace()] see it on
    ASCII: TAB, LF, VT, FF, CR, FS, GS, RS, US and the space. *)
Definition is_space (c : ascii) : bool :=
  let n := nat_of_ascii c in
  ((9 <=? n) && (n <=? 13) || (28 <=? n) && (n <=? 32))%nat.

Definition is_upper (c : ascii) : bool :=
  let n := nat_of_ascii c in ((65 <=? n) && (n <=? 90))%nat.

Definition is_lower (c : ascii) : bool :=
  let n := nat_of_ascii c in ((97 <=? n) && (n <=? 122))%nat.

Definition is_alpha (c : ascii) : bool := is_upper c || is_lower c.

Definition is_digit (c : ascii) : bool :=
  let n := nat_of_ascii c in ((48 <=? n) && (n <=? 57))%nat.

(** [\w] of the [re] module on ASCII. *)
Definition is_word (c : ascii) : bool :=
  is_alpha c || is_digit c || Ascii.eqb c "_".

Definition lower_char (c : ascii) : ascii :=
  if is_upper c then ascii_of_nat (nat_of_ascii c + 32) else c.

Definition upper_char (c : ascii) : ascii :=
  if is_lower c then ascii_of_nat (nat_of_ascii c - 32) else c.

Fixpoint map_chars (f : ascii → ascii) (s : string) : string :=
  match s with
  | EmptyString => EmptyString
  | String c r => String (f c) (map_chars f r)
  end.

(** [s.lower()], [s.upper()] on ASCII text: a character of code 128 or
    more is left as it is. *)
Definition lower : string → string := map_chars lower_char.
Definition upper : string → string := map_chars upper_char.

(** [s.title()] on ASCII text: a cased character is upper-cased when the
    character before it is not cased, and lower-cased otherwise.  Outside
    ASCII Python has cased characters of more than one code point, and
    [title] is not idempotent there; the properties of the case of a name
    are stated for ASCII names. *)
Fixpoint title_from (prev_cased : bool) (s : string) : string :=
  match s with
  | EmptyString => EmptyString
  | String c r =>
      String (if prev_cased then lower_char c else upper_char c)
             (title_from (is_alpha c) r)
  end.

Definition title : string → string := title_from false.

(** [s.lstrip()], [s.rstrip()], [s.strip()] *)
Fixpoint lstrip (s : string) : string :=
  match s with
  | EmptyString => EmptyString
  | String c r => if is_space c then lstrip r else s
  end.

Fixpoint rstrip (s : string) : string :=
  match s with
  | EmptyString => EmptyString
  | String c r =>
      match rstrip r with
      | EmptyString => if is_space c then EmptyString else String c EmptyString
      | r' => String c r'
      end
  end.

Definition strip (s : string) : string := rstrip (lstrip s).

(** [s.startswith(p)], [s.endswith(p)], [p in s] *)
Fixpoint prefix (p s : string) : bool :=
  match p with
  | EmptyString => true
  | String a p' =>
      match s with
      | EmptyString => false
      | String b s' => Ascii.eqb a b && prefix p' s'
      end
  end.

Definition startswith (s p : string) : bool := prefix p s.

Fixpoint contains (p s : string) : bool :=
  prefix p s ||
  match s with
  | EmptyString => false
  | String _ r => contains p r
  end.

Fixpoint drop (n : nat) (s : string) : string :=
  match n, s with
  | S k, String _ r => drop k r
  | _, _ => s
  end.

Definition endswith (s p : string) : bool :=
  (String.length p <=? String.length s)%nat &&
  String.eqb (drop (String.length s - String.length p) s) p.

(** [s.replace(old, new)] for a non-empty [old]: occurrences are replaced
    from the left and do not overlap.  [skip] counts the characters of the
    occurrence just replaced that are still to be passed over. *)
Fixpoint replace_from (old new : string) (skip : nat) (s : string) : string :=
  match s with
  | EmptyString => EmptyString
  | String c r =>
      match skip with
      | S k => replace_from old new k r
      | O =>
          if prefix old s
          then new +:+ replace_from old new (String.length old - 1) r
          else String c (replace_from old new 0 r)
      end
  end.

Definition replace (s old new : string) : string := replace_from old new 0 s.

(** [sep.join(l)] *)
Fixpoint join (sep : string) (l : list string) : string :=
  match l with
  | [] => EmptyString
  | [x] => x
  | x :: r => x +:+ sep +:+ join sep r
  end.

(** [s.split(sep)] (and [s.rsplit(sep)], which returns the same list when no
    maximum is given) for a non-empty [sep]: [cur] is the field read so far. *)
Fixpoint split_from (sep : string) (skip : nat) (cur : string) (s : string)
  : list string :=
  match s with
  | EmptyString => [cur]
  | String c r =>
      match skip with
      | S k => split_from sep k cur r
      | O =>
          if prefix sep s
          then cur :: split_from sep (String.length sep - 1) EmptyString r
          else split_from sep 0 (cur +:+ String c EmptyString) r
      end
  end.

Definition split (s sep : string) : list string :=
  split_from sep 0 EmptyString s.

(** The double quote, as a text of one character. *)
Definition dq : string := String "034" EmptyString.

(** [not s] *)
Definition is_empty (s : string) : bool :=
  match s with EmptyString => true | _ => false end.

(** The line feed and the carriage return, as texts of one character. *)
Definition nl : string := String "010" EmptyString.
Definition cr : string := String "013" EmptyString.

(** [s[-1:]] *)
Fixpoint last1 (s : string) : string :=
  match s with
  | EmptyString => EmptyString
  | String c r =>
      match r with
      | EmptyString => String c EmptyString
      | _ => last1 r
      end
  end.

End Py.

(** ** The pre-compiled regular expressions

    Each expression of the library is embedded as the function that decides
    it.  None of them is ambiguous: every starred class is followed by a
    character outside the class, so the greedy reading is the only one. *)

Module Re.

(** [' *'] *)
Fixpoint skip_spaces (s : string) : string :=
  match s with
  | String " " r => skip_spaces r
  | _ => s
  end.

(** [[^c]*c]: the characters before the first [stop], and what follows it. *)
Fixpoint take_until (stop : ascii) (s : string) : option (string * string) :=
  match s with
  | EmptyString => None
  | String c r =>
      if Ascii.eqb c stop then Some (EmptyString, r)
      else match take_until stop r with
           | Some (inner, rest) => Some (String c inner, rest)
           | None => None
           end
  end.

(** REGEX_ANYTHING_BETWEEN_PARENTH_OR_BRACES = [' *(\([^)]*\)|\[[^]]*\]) *']
    tried at the head of [s]: the group and the text after the match. *)
Definition bracket_at (s : string) : option (string * string) :=
  match skip_spaces s with
  | String "(" r =>
      match take_until ")" r with
      | Some (inner, rest) => Some ("(" +:+ inner +:+ ")", skip_spaces rest)
      | None => None
      end
  | String "[" r =>
      match take_until "]" r with
      | Some (inner, rest) => Some ("[" +:+ inner +:+ "]", skip_spaces rest)
      | None => None
      end
  | _ => None
  end.

(** [.search(s)]: the group of the leftmost match ([.groups()] holds this
    one group). *)
Fixpoint bracket_search (s : string) : option string :=
  match bracket_at s with
  | Some (g, _) => Some g
  | None =>
      match s with
      | EmptyString => None
      | String _ r => bracket_search r
      end
  end.

(** [.sub('', s)] *)
Fixpoint bracket_sub_from (skip : nat) (s : string) : string :=
  match s with
  | EmptyString => EmptyString
  | String c r =>
      match skip with
      | S k => bracket_sub_from k r
      | O =>
          match bracket_at s with
          | Some (_, rest) =>
              bracket_sub_from (String.length s - String.length rest - 1) r
          | None => String c (bracket_sub_from 0 r)
          end
      end
  end.

Definition bracket_sub (s : string) : string := bracket_sub_from 0 s.

(** [re.sub(r'[\(\)\[\]]', '', s)] *)
Fixpoint remove_brackets (s : string) : string :=
  match s with
  | EmptyString => EmptyString
  | String c r =>
      if Ascii.eqb c "(" || Ascii.eqb c ")" || Ascii.eqb c "[" || Ascii.eqb c "]"
      then remove_brackets r
      else String c (remove_brackets r)
  end.

Fixpoint count_digits (s : string) : nat :=
  match s with
  | String c r => if Py.is_digit c then S (count_digits r) else 0
  | EmptyString => 0
  end.

(** REGEX_ICE, IGNORECASE: [ICE] and any digits, as a group between two
    word boundaries [\b].  It is tried at the head of [s]
    (the boundary before it is checked by the caller): the length of the
    match.  The digits are all taken, a boundary cannot fall between two
    of them. *)
Definition ice_at (s : string) : option nat :=
  match s with
  | String i (String c (String e r)) =>
      if Ascii.eqb (Py.lower_char i) "i" && Ascii.eqb (Py.lower_char c) "c"
         && Ascii.eqb (Py.lower_char e) "e"
      then
        let d := count_digits r in
        match Py.drop d r with
        | EmptyString => Some (3 + d)
        | String x _ => if Py.is_word x then None else Some (3 + d)
        end
      else None
  | _ => None
  end.

(** [REGEX_ICE.sub('', s)]; [prev_word] tells whether the character before
    the head of [s] is a word character. *)
Fixpoint ice_sub_from (skip : nat) (prev_word : bool) (s : string) : string :=
  match s with
  | EmptyString => EmptyString
  | String c r =>
      match skip with
      | S k => ice_sub_from k (Py.is_word c) r
      | O =>
          match (if prev_word then None else ice_at s) with
          | Some n => ice_sub_from (n - 1) (Py.is_word c) r
          | None => String c (ice_sub_from 0 (Py.is_word c) r)
          end
      end
  end.

Definition ice_sub (s : string) : string := ice_sub_from 0 false s.

(** [$]: the end of the text, or the position before a last line feed. *)
Definition at_dollar (s : string) : bool :=
  match s with
  | EmptyString => true
  | String c EmptyString => Ascii.eqb c "010"
  | _ => false
  end.

(** A character [c] at the head of the text: what follows it. *)
Definition expect (c : ascii) (s : string) : option string :=
  match s with
  | String x r => if Ascii.eqb x c then Some r else None
  | EmptyString => None
  end.

(** [[^c]+c]: one character at least before the first [stop]. *)
Definition some_until (stop : ascii) (s : string) : option (string * string) :=
  match take_until stop s with
  | Some (String a inner, rest) => Some (String a inner, rest)
  | _ => None
  end.

(** REGEX_NAME_IN_EMAIL = ['^ *"(?P<name>[^"]+)" *<[^>]+> *$'] and
    REGEX_EMAIL_WITH_NAME = ['^ *"[^"]+" *<(?P<email>[^>]+)> *$'], [.match(s)]:
    the two expressions accept the same texts; the pair holds the group
    [name] of the first and the group [email] of the second. *)
Definition name_email (s : string) : option (string * string) :=
  match expect "034" (skip_spaces s) with
  | Some r =>
      match some_until "034" r with
      | Some (name, r1) =>
          match expect "<" (skip_spaces r1) with
          | Some r2 =>
              match some_until ">" r2 with
              | Some (email, r3) =>
                  if at_dollar (skip_spaces r3) then Some (name, email) else None
              | None => None
              end
          | None => None
          end
      | None => None
      end
  | None => None
  end.

(** The text after the last line feed of [s], and the text up to it. *)
Fixpoint last_line (s : string) : string * string :=
  match s with
  | EmptyString => (EmptyString, EmptyString)
  | String c r =>
      let '(pre, l) := last_line r in
      if Ascii.eqb c "010" then
        (String c pre, l)
      else if Py.contains (String "010" EmptyString) r then (String c pre, l)
      else (EmptyString, String c l)
  end.

(** REGEX_ANYTHING_BUT_INDEX on a line: a group of any characters, then
    [\([0-9]+\)$]; the text of the group, when the line ends in an index. *)
Fixpoint index_at (s : string) : option string :=
  match s with
  | EmptyString => None
  | String c r =>
      match index_at r with
      | Some g => Some (String c g)
      | None =>
          if Ascii.eqb c "(" then
            let d := count_digits r in
            if (0 <? d)%nat && String.eqb (Py.drop d r) ")"
            then Some EmptyString else None
          else None
      end
  end.

(** [REGEX_ANYTHING_BUT_INDEX.sub('\\1', s)]: the dot stops at a line feed,
    so the match lies in the last line. *)
Definition index_sub (s : string) : string :=
  let '(body, tail) :=
    if Py.endswith s (String "010" EmptyString)
    then (String.substring 0 (String.length s - 1) s, String "010" EmptyString)
    else (s, EmptyString) in
  let '(pre, l) := last_line body in
  match index_at l with
  | Some g => pre +:+ g +:+ tail
  | None => s
  end.

(** ['^ *\('] and ['^ *\[']: [.match] and [.sub('', s)] *)
Definition opens_with (b : ascii) (s : string) : option string :=
  expect b (skip_spaces s).

(** A literal of upper-case letters and signs read without regard to case
    (IGNORECASE) at the head of the text: what follows it. *)
Fixpoint expect_nocase (p s : string) : option string :=
  match p with
  | EmptyString => Some s
  | String a p' =>
      match s with
      | String b s' =>
          if Ascii.eqb (Py.upper_char b) a then expect_nocase p' s' else None
      | EmptyString => None
      end
  end.

(** [re.match(r'^(BEGIN|END):VCARD$', s, re.IGNORECASE)] *)
Definition begin_end (s : string) : bool :=
  match expect_nocase "BEGIN:VCARD" s with
  | Some e => at_dollar e
  | None => false
  end
  || match expect_nocase "END:VCARD" s with
     | Some e => at_dollar e
     | None => false
     end.

(** [re.match(r'^([^: ]+):.*', s)]: one character at least, none of them a
    colon or a space, then a colon; [seen] tells that a character was read. *)
Fixpoint header_from (seen : bool) (s : string) : bool :=
  match s with
  | EmptyString => false
  | String c r =>
      if Ascii.eqb c ":" then seen
      else if Ascii.eqb c " " then false
      else header_from true r
  end.

Definition header (s : string) : bool := header_from false s.

(** [re.sub(r'^([^:]+):', '', s)] *)
Definition drop_key (s : string) : string :=
  match some_until ":" s with
  | Some (_, rest) => rest
  | None => s
  end.

(** [re.sub('([^\\\\]|^),', '\\1\\,', s)]: a comma, with the character
    before it when this one is no backslash, or at the start of the text,
    gets a backslash; the matches do not overlap.  [start] tells that the
    head of [s] is the start of the text. *)
Fixpoint escape_from (start : bool) (s : string) : string :=
  match s with
  | EmptyString => EmptyString
  | String c r =>
      match r with
      | String x r' =>
          if Ascii.eqb x "," && negb (Ascii.eqb c "092")
          then String c (String "092" (String "," (escape_from false r')))
          else if start && Ascii.eqb c ","
          then String "092" (String "," (escape_from false r))
          else String c (escape_from false r)
      | EmptyString =>
          if start && Ascii.eqb c ","
          then String "092" (String "," EmptyString)
          else String c EmptyString
      end
  end.

Definition escape_commas (s : string) : string := escape_from true s.

(** [re.sub('=$', '', s)] *)
Fixpoint drop_final_eq (s : string) : string :=
  match s with
  | EmptyString => EmptyString
  | String c r =>
      if Ascii.eqb c "=" && at_dollar r then r
      else String c (drop_final_eq r)
  end.

(** The alternatives of
    [;(PGP|PNG|JPEG|GIF|OGG|INTERNET|PREF|HOME|WORK|MAIN|CELL|FAX|VOICE)],
    in their order. *)
Definition known_types : list string :=
  ["PGP"; "PNG"; "JPEG"; "GIF"; "OGG"; "INTERNET"; "PREF"; "HOME"; "WORK";
   "MAIN"; "CELL"; "FAX"; "VOICE"].

(** The first alternative that the text starts with. *)
Definition type_at (s : string) : option string :=
  List.find (fun t => Py.prefix t s) known_types.

(** [re.sub(r';(PGP|...|VOICE)', ';TYPE=\\1', s)] *)
Fixpoint type_prefix_from (skip : nat) (s : string) : string :=
  match s with
  | EmptyString => EmptyString
  | String c r =>
      match skip with
      | S k => type_prefix_from k r
      | O =>
          match (if Ascii.eqb c ";" then type_at r else None) with
          | Some t => ";TYPE=" +:+ t +:+ type_prefix_from (String.length t) r
          | None => String c (type_prefix_from 0 r)
          end
      end
  end.

Definition type_prefix (s : string) : string := type_prefix_from 0 s.

(** The text from its first line feed on: what [.*] leaves. *)
Fixpoint from_newline (s : string) : string :=
  match s with
  | EmptyString => EmptyString
  | String c r => if Ascii.eqb c "010" then s else from_newline r
  end.

(** [re.sub(r'^([^;]+);.*', '\\1', s)] *)
Definition key_value (s : string) : string :=
  match some_until ";" s with
  | Some (k, rest) => k +:+ from_newline rest
  | None => s
  end.

(** [re.sub(r'^([^;]+);', '', s)] *)
Definition drop_name (s : string) : string :=
  match some_until ";" s with
  | Some (_, rest) => rest
  | None => s
  end.

(** [re.sub(r'^TYPE=', '', s)] *)
Definition drop_type (s : string) : string :=
  if Py.prefix "TYPE=" s then Py.drop 5 s else s.

End Re.

(** ** Global options *)

Record options : Type := {
  OPTION_MATCH_ATTRIBUTES : list string;
  OPTION_NO_MATCH_APPROX : bool;
  OPTION_UPDATE_GROUP_KEY : bool;
  OPTION_FRENCH_TWEAKS : bool;
  OPTION_DOT_NOT_FORCE_ESCAPE_COMAS : bool
}.

Definition default_options : options := {|
  OPTION_MATCH_ATTRIBUTES := ["names"; "tel_!work"; "email"];
  OPTION_NO_MATCH_APPROX := false;
  OPTION_UPDATE_GROUP_KEY := true;
  OPTION_FRENCH_TWEAKS := false;
  OPTION_DOT_NOT_FORCE_ESCAPE_COMAS := false
|}.


(** ** Names *)

(** The structured name of the parser library, as [build_formatted_name]
    fills it: [Name(family=..., given=...)] leaves the suffix out. *)
Record Name : Type := {
  family : string;
  given : string;
  suffix : option string
}.

(** [len_without_parenth_or_braces], [len_without_index] *)
Definition len_without_parenth_or_braces (s : string) : nat :=
  String.length (Re.bracket_sub s).

Definition len_without_index (s : string) : nat :=
  String.length (Re.index_sub s).

(** [build_formatted_name] *)
Definition build_formatted_name (opts : options) (name : string) : Name :=
  let '(name_suffix, name) :=
    match Re.bracket_search name with
    | Some g => (Some (Py.strip (Py.join "," [g])), Re.bracket_sub name)
    | None => (None, name)
    end in
  let '(name_family, name_splitted) :=
    if Py.contains " - " name then
      let name_splitted := Py.split name " - " in
      (hd EmptyString name_splitted, tl name_splitted)
    else if OPTION_FRENCH_TWEAKS opts && Py.contains " de " (Py.lower name) then
      let name_splitted := Py.split (Py.lower name) " de " in
      ("De " +:+ hd EmptyString name_splitted, tl name_splitted)
    else
      let name_splitted := Py.split name " " in
      (List.last name_splitted EmptyString, removelast name_splitted) in
  let name_given := Py.join " " name_splitted in
  match name_suffix with
  | Some sfx =>
      if Py.is_empty sfx
      then {| family := name_family; given := name_given; suffix := None |}
      else {| family := name_family; given := name_given; suffix := Some sfx |}
  | None => {| family := name_family; given := name_given; suffix := None |}
  end.

(** *** [select_most_relevant_name] *)

(** The locals of the loop. *)
Record selection : Type := {
  selected_name : option string;
  longuest_length : nat;
  pos : nat
}.

(** [len_without_index(selected_name)] checks that its argument is a text. *)
Definition len_without_index_of (selected : option string) : result nat :=
  match selected with
  | Some s => ok (len_without_index s)
  | None =>
      raise (TypeError "parameter 'string' must be a string (type: '<class 'NoneType'>')")
  end.

(** The statements of the loop body that follow the test of the name
    (from [length = ...] to [pos += 1]). *)
Definition select_compare (name : string) (st : selection) : result selection :=
  let length := len_without_parenth_or_braces name in
  if (longuest_length st <? length)%nat then
    ok {| selected_name := Some name; longuest_length := length; pos := S (pos st) |}
  else if (length =? longuest_length st)%nat then
    let! sel_len := len_without_index_of (selected_name st) in
    if (sel_len <? len_without_index name)%nat then
      ok {| selected_name := Some name; longuest_length := longuest_length st;
            pos := S (pos st) |}
    else if (len_without_index name =? sel_len)%nat then
      if (len_without_index name =? String.length name)%nat
         && negb (sel_len =? String.length (default EmptyString (selected_name st)))%nat
      then ok {| selected_name := Some name; longuest_length := length;
                 pos := S (pos st) |}
      else ok {| selected_name := selected_name st;
                 longuest_length := longuest_length st; pos := S (pos st) |}
    else ok {| selected_name := selected_name st;
               longuest_length := longuest_length st; pos := S (pos st) |}
  else ok {| selected_name := selected_name st;
             longuest_length := longuest_length st; pos := S (pos st) |}.

(** [for name in names]: an empty name takes [continue]; any other name
    reaches the [raise] of the [else] branch, which the rest of the body
    follows. *)
Fixpoint select_loop (names : list string) (st : selection) : result selection :=
  match names with
  | [] => ok st
  | name :: rest =>
      if Py.is_empty name then select_loop rest st
      else
        let! _ := @raise unit
          (TypeError ("parameter 'names[" +:+ pretty (pos st) +:+ "]' is undefined")) in
        let! st' := select_compare name st in
        select_loop rest st'
  end.

Definition select_most_relevant_name (names : list string) : result string :=
  match names with
  | [] => raise (ValueError "Trying to select a name from an empty list of names")
  | _ =>
      let! st := select_loop names
        {| selected_name := None; longuest_length := 0; pos := 0 |} in
      match selected_name st with
      | None => raise (RuntimeError "Failed to select a name")
      | Some selected =>
          if Py.is_empty selected then raise (RuntimeError "Failed to select a name")
          else if Py.contains "=" selected then
            raise (RuntimeError ("Invalid selected name '" +:+ selected +:+ "' "
                     +:+ "(contains an equals sign: maybe an undecoded string)"))
          else ok selected
      end
  end.

(** *** [sanitize_name] *)

Section Sanitize.

(** [fuzzywuzzy.fuzz.token_sort_ratio], a score from 0 to 100. *)
Variable token_sort_ratio : string → string → nat.

Definition sanitize_name (name : string) : string :=
  let sanitized :=
    Py.title (Py.strip (Py.replace (Py.replace (Py.replace (Re.ice_sub name)
      "." " ") "  " " ") "  " " ")) in
  match Re.bracket_search name with
  | Some g =>
      let inner := Py.title (Re.remove_brackets (Py.strip (Py.join " " [g]))) in
      let outer := Py.title (Py.strip (Re.bracket_sub name)) in
      if String.eqb inner outer || (token_sort_ratio inner outer =? 100)%nat
      then outer
      else sanitized
  | None => sanitized
  end.

End Sanitize.

(** ** Records

    Modelled from the spec: the record of the parser library (vobject's
    [Component], [ContentLine] and [Name] are not part of the sources).  A
    record is an ordered multimap from a property name to its instances;
    it is kept as the list that [getChildren()] walks, the instances of one
    name next to each other and the names in the order of their first
    [add].  [hasattr(vcard, k)] holds when an instance of [k] is present and
    [vcard.k_list] is the list of the instances of [k].  The name [cl_name]
    of an instance is the key under which the record keeps it, the property
    name in lower case; the attribute [name] of the instance is this name
    in upper case. *)

Inductive value : Type :=
| VStr (s : string)
| VName (n : Name)
| VList (l : list string).

Record ContentLine : Type := {
  cl_name : string;
  cl_value : value;
  cl_params : list (string * list string)
}.

Abbreviation vcard := (list ContentLine).

Definition named (k : string) (c : ContentLine) : bool := String.eqb (cl_name c) k.

(** [getattr(vcard, k + '_list')] *)
Definition attr_list (v : vcard) (k : string) : list ContentLine :=
  filter (fun c => named k c = true) v.

(** [hasattr(vcard, k)] *)
Definition hasattr (v : vcard) (k : string) : bool :=
  existsb (named k) v.

(** [del vcard.k] *)
Definition delattr (v : vcard) (k : string) : vcard :=
  filter (fun c => named k c = false) v.

(** [vcard.add(k)] with the value and the parameters it is given next: the
    new instance comes after the last instance of [k], or last. *)
Fixpoint add (v : vcard) (c : ContentLine) : vcard :=
  match v with
  | [] => [c]
  | x :: r =>
      if named (cl_name c) x && negb (existsb (named (cl_name c)) r)
      then x :: c :: r
      else x :: add r c
  end.

Definition line (k : string) (x : value) : ContentLine :=
  {| cl_name := k; cl_value := x; cl_params := [] |}.

Definition set_value (c : ContentLine) (x : value) : ContentLine :=
  {| cl_name := cl_name c; cl_value := x; cl_params := cl_params c |}.


(** [for c in vcard.k_list: c.value = f(c.value)] *)
Fixpoint map_attr (k : string) (f : value → result value) (v : vcard) : result vcard :=
  match v with
  | [] => ok []
  | c :: r =>
      let! c' := (if named k c
                  then let! x := f (cl_value c) in ok (set_value c x)
                  else ok c) in
      let! r' := map_attr k f r in
      ok (c' :: r')
  end.

(** [close_parentheses_or_braces] *)
Definition close_parentheses_or_braces (s : string) : string :=
  if Py.contains "(" s && negb (Py.contains ")" s) then
    match Re.opens_with "(" s with
    | Some r => r
    | None => s +:+ ")"
    end
  else if Py.contains "[" s && negb (Py.contains "]" s) then
    match Re.opens_with "[" s with
    | Some r => r
    | None => s +:+ "]"
    end
  else s.

Section Normalize.

Variable opts : options.

(** [str(x)] for a structured name and for a list, as the parser library
    and Python print them. *)
Variable str_of_name : Name → string.
Variable str_of_list : list string → string.

Definition value_str (x : value) : string :=
  match x with
  | VStr s => s
  | VName n => str_of_name n
  | VList l => str_of_list l
  end.

(** A method of [str] called on a value that is no text. *)
Definition as_text (x : value) : result string :=
  match x with
  | VStr s => ok s
  | _ => raise (AttributeError "strip")
  end.

(** [vcard.note.value += '\n' + inner], or [vcard.add('note').value = inner] *)
Fixpoint append_note (inner : string) (v : vcard) : result vcard :=
  match v with
  | [] => ok [line "note" (VStr inner)]
  | c :: r =>
      if named "note" c then
        match cl_value c with
        | VStr s => ok (set_value c (VStr (s +:+ String "010" inner)) :: r)
        | _ => raise (TypeError "unsupported operand type(s) for +=")
        end
      else let! r' := append_note inner r in ok (c :: r')
  end.

(** The body of [for attr_n in getattr(vcard, name_key + '_list')] for the
    instance at position [i] of the record. *)
Definition move_parenth (name_key : string) (i : nat) (v : vcard) : result vcard :=
  match v !! i with
  | Some c =>
      if named name_key c then
        let value := close_parentheses_or_braces
          (Py.strip (Py.replace (value_str (cl_value c)) "  " " ")) in
        match Re.bracket_search value with
        | Some g =>
            let inner := Re.remove_brackets (Py.strip (Py.join " " [g])) in
            let outer := Py.strip (Re.bracket_sub value) in
            let x := if String.eqb name_key "n"
                     then VName (build_formatted_name opts outer)
                     else VStr outer in
            append_note inner (<[i := set_value c x]> v)
        | None => ok v
        end
      else ok v
  | None => ok v
  end.

(** The instances of [name_key] keep their positions while notes are added:
    [note] is another name, and a new name goes last. *)
Fixpoint move_parenth_all (name_key : string) (positions : list nat) (v : vcard)
  : result vcard :=
  match positions with
  | [] => ok v
  | i :: r =>
      let! v' := move_parenth name_key i v in
      move_parenth_all name_key r v'
  end.

(** The [while index < number_of_email] loop over [vcard.email_list]: an
    instance is deleted, or rewritten and passed. *)
Definition normalize_email (do_not_remove_name_in_email : bool) (x : value)
  : result (option value) :=
  let! s := as_text x in
  let e := Py.lower (Py.strip s) in
  if Py.endswith e "@nowhere.invalid" then ok None
  else
    match Re.name_email e with
    | Some (_, addr) =>
        if negb do_not_remove_name_in_email then ok (Some (VStr (Py.join EmptyString [addr])))
        else ok (Some (VStr e))
    | None => ok (Some (VStr e))
    end.

Fixpoint normalize_emails (do_not_remove_name_in_email : bool) (v : vcard)
  : result vcard :=
  match v with
  | [] => ok []
  | c :: r =>
      if named "email" c then
        let! x := normalize_email do_not_remove_name_in_email (cl_value c) in
        let! r' := normalize_emails do_not_remove_name_in_email r in
        match x with
        | Some x' => ok (set_value c x' :: r')
        | None => ok r'
        end
      else
        let! r' := normalize_emails do_not_remove_name_in_email r in
        ok (c :: r')
  end.

(** The body of [for tel in vcard.tel_list] *)
Definition normalize_tel (x : value) : result value :=
  let! s := as_text x in
  let t := Py.replace (Py.strip s) " " EmptyString in
  if OPTION_FRENCH_TWEAKS opts then
    if Py.startswith t "+33" then ok (VStr (Py.replace t "+33" "0"))
    else ok (VStr t)
  else ok (VStr t).

Definition positions_of (k : string) (v : vcard) : list nat :=
  filter (fun i => from_option (named k) false (v !! i) = true) (seq 0 (length v)).

(** [normalize] *)
Definition normalize (v : vcard) (selected_name : string)
  (do_not_overwrite_names mv_name_parenth_braces_to_note
   do_not_remove_name_in_email : bool) : result vcard :=
  (* remove vCard version *)
  let v := if hasattr v "version" then delattr v "version" else v in
  (* overwrite names with the selected one *)
  let v :=
    if negb do_not_overwrite_names then
      let v := if hasattr v "fn" then delattr v "fn" else v in
      if hasattr v "n" then delattr v "n" else v
    else v in
  (* add missing required name fields 'fn' and 'n' *)
  let v := if negb (hasattr v "fn") then add v (line "fn" (VStr selected_name)) else v in
  let v := if negb (hasattr v "n")
           then add v (line "n" (VName (build_formatted_name opts selected_name)))
           else v in
  (* move name's content inside parentheses (or braces) into the note attribute *)
  let! v :=
    (if mv_name_parenth_braces_to_note then
       let! v := move_parenth_all "fn" (positions_of "fn" v) v in
       move_parenth_all "n" (positions_of "n" v) v
     else ok v) in
  (* normalize email *)
  let! v := normalize_emails do_not_remove_name_in_email v in
  (* normalize tel *)
  map_attr "tel" normalize_tel v.

End Normalize.

(** ** Merger *)

(** A call that changes its argument in place: the argument as the call
    leaves it, and the exception if the call raised. *)
Definition in_place (S A : Type) : Type := (S * result A)%type.

(** [for x in l: f(s, x)], on a store [s] that [f] changes in place: the
    loop ends at the first exception and the store stays as it is then. *)
Fixpoint for_each {S A : Type} (f : S → A → in_place S unit) (l : list A) (s : S)
  : in_place S unit :=
  match l with
  | [] => (s, ok tt)
  | x :: r =>
      match f s x with
      | (s', inr _) => for_each f r s'
      | (s', inl e) => (s', inl e)
      end
  end.

(** [child.name]: the parser library keeps the instances of a record under
    the name in lower case, the key [cl_name], and gives each instance its
    name in upper case. *)
Definition child_name (c : ContentLine) : string := Py.upper (cl_name c).

(** [getattr(vcard, name + '_list')]: the instances under the key [name],
    an underscore of [name] read as a dash; [AttributeError] when the record
    has no such key. *)
Definition getattr_list (v : vcard) (name : string) : result (list ContentLine) :=
  let k := Py.replace name "_" "-" in
  if hasattr v k then ok (attr_list v k)
  else raise (AttributeError (name +:+ "_list")).

(** [merge]: for every child of a record to merge, the instances under the
    child's name are looked up and added to [vcard]; [vcard.add(name)] keeps
    the new instance under the name in lower case. *)
Definition merge_child (vcard_to_merge : vcard) (v : vcard) (vcard_child : ContentLine)
  : in_place vcard unit :=
  match getattr_list vcard_to_merge (child_name vcard_child) with
  | inl e => (v, inl e)
  | inr attrs =>
      (fold_left
         (fun v attr =>
            add v {| cl_name := Py.lower (child_name vcard_child);
                     cl_value := cl_value attr;
                     cl_params := cl_params attr |})
         attrs v,
       ok tt)
  end.

Definition merge_one (v : vcard) (vcard_to_merge : vcard) : in_place vcard unit :=
  for_each (merge_child vcard_to_merge) vcard_to_merge v.

(** [merge(vcard, *vcards_to_merge)]: the record [vcard] as the call leaves
    it, and the exception if it raised. *)
Definition merge (v : vcard) (vcards_to_merge : list vcard) : in_place vcard unit :=
  for_each merge_one vcards_to_merge v.

(** An entry of the dict of aggregated attributes: the list of instances
    that [collect_attributes] builds, or what [set_name] stores. *)
Inductive attr_entry : Type :=
| AList (l : list ContentLine)
| AStr (s : string)
| AName (n : Name).

Section SetName.

Variable opts : options.
Variable token_sort_ratio : string → string → nat.
Variable str_of_name : Name → string.
Variable str_of_list : list string → string.

(** [if not name in available_names: available_names.append(name)] *)
Definition add_available (name : string) (available_names : list string) : list string :=
  if bool_decide (name ∈ available_names) then available_names
  else available_names ++ [name].

(** [for attr in attributes[k]] for an entry that may be no list. *)
Definition iter_entry (e : attr_entry) : result (list ContentLine) :=
  match e with
  | AList l => ok l
  | AStr s =>
      if Py.is_empty s then ok []
      else raise (AttributeError "value")
  | AName _ => raise (TypeError "'Name' object is not iterable")
  end.

Definition text_of (x : value) : result string :=
  match x with
  | VStr s => ok s
  | _ => raise (TypeError "parameter 'name' must be a string")
  end.

Fixpoint collect_fn (l : list ContentLine) (available_names : list string)
  : result (list string) :=
  match l with
  | [] => ok available_names
  | attr_fn :: r =>
      let! s := text_of (cl_value attr_fn) in
      collect_fn r (add_available (sanitize_name token_sort_ratio s) available_names)
  end.

Definition collect_n (l : list ContentLine) (available_names : list string)
  : list string :=
  fold_left
    (fun names attr_n =>
       add_available
         (sanitize_name token_sort_ratio (value_str str_of_name str_of_list (cl_value attr_n)))
         names)
    l available_names.

Fixpoint collect_email (l : list ContentLine) (available_names : list string)
  : result (list string) :=
  match l with
  | [] => ok available_names
  | attr_m :: r =>
      let! s := as_text (cl_value attr_m) in
      match Re.name_email (Py.strip s) with
      | Some (name, _) =>
          collect_email r (add_available (sanitize_name token_sort_ratio name) available_names)
      | None => collect_email r available_names
      end
  end.

(** The names [set_name] collects before it selects one. *)
Definition collect_names (attributes : gmap string attr_entry) : result (list string) :=
  let! names :=
    match attributes !! "fn" with
    | Some e => let! l := iter_entry e in collect_fn l []
    | None => ok []
    end in
  let! names :=
    match attributes !! "n" with
    | Some e => let! l := iter_entry e in ok (collect_n l names)
    | None => ok names
    end in
  match attributes !! "email" with
  | Some e => let! l := iter_entry e in collect_email l names
  | None => ok names
  end.

(** [del attributes[k]] *)
Definition del_key (k : string) (attributes : gmap string attr_entry)
  : result (gmap string attr_entry) :=
  match attributes !! k with
  | Some _ => ok (delete k attributes)
  | None => raise (KeyError k)
  end.

(** [set_name] changes the dict it is given: the result is the dict as the
    call leaves it, with the exception raised, if any. *)
Definition set_name (attributes : gmap string attr_entry)
  : gmap string attr_entry * result unit :=
  match collect_names attributes with
  | inl e => (attributes, inl e)
  | inr available_names =>
      match select_most_relevant_name available_names with
      | inl e => (attributes, inl e)
      | inr selected_name =>
          match del_key "fn" attributes with
          | inl e => (attributes, inl e)
          | inr attributes1 =>
              match del_key "n" attributes1 with
              | inl e => (attributes1, inl e)
              | inr attributes2 =>
                  (<["n" := AName (build_formatted_name opts selected_name)]>
                     (<["fn" := AStr selected_name]> attributes2),
                   ok tt)
              end
          end
      end
  end.

End SetName.

(** ** Grouper *)

(** [for x in l: s = f(s, x)] with exceptions. *)
Fixpoint foldM {S A : Type} (f : S → A → result S) (l : list A) (s : S) : result S :=
  match l with
  | [] => ok s
  | x :: r => let! s' := f s x in foldM f r s'
  end.

(** A dict in the order of its insertions: the mapping, and the keys as
    [.items()] walks them. *)
Record odict (V : Type) : Type := {
  od_map : gmap string V;
  od_keys : list string
}.
Arguments od_map {V} _.
Arguments od_keys {V} _.

Definition od_empty {V} : odict V := {| od_map := ∅; od_keys := [] |}.

Definition od_insert {V} (k : string) (x : V) (d : odict V) : odict V :=
  {| od_map := <[k := x]> (od_map d);
     od_keys := match od_map d !! k with
                | Some _ => od_keys d
                | None => od_keys d ++ [k]
                end |}.

Definition od_items {V} (d : odict V) : list (string * V) :=
  omap (fun k => match od_map d !! k with Some x => Some (k, x) | None => None end)
       (od_keys d).

(** What is passed for a group: [None], a group key, or the list found
    under [mappings['groups'][key]]. *)
Inductive group_ref : Type :=
| GNone
| GKey (g : string)
| GList (l : list string).

Global Instance group_ref_eq_dec : EqDecision group_ref.
Proof. solve_decision. Defined.

(** [bool(group)] *)
Definition truthy (g : group_ref) : bool :=
  match g with
  | GNone => false
  | GKey s => negb (Py.is_empty s)
  | GList l => match l with [] => false | _ => true end
  end.

(** [mappings = {'groups': {}, 'vcard_group': {}, 'attributes': {}}] *)
Record mappings : Type := {
  groups : gmap string (list string);
  vcard_group : gmap string group_ref;
  attributes : gmap string (odict (list string))
}.

Definition empty_mappings : mappings :=
  {| groups := ∅; vcard_group := ∅; attributes := ∅ |}.

Definition set_groups (m : mappings) (g : gmap string (list string)) : mappings :=
  {| groups := g; vcard_group := vcard_group m; attributes := attributes m |}.

Definition set_vcard_group (m : mappings) (vg : gmap string group_ref) : mappings :=
  {| groups := groups m; vcard_group := vg; attributes := attributes m |}.

Definition set_attributes (m : mappings) (a : gmap string (odict (list string)))
  : mappings :=
  {| groups := groups m; vcard_group := vcard_group m; attributes := a |}.

(** [mappings['vcard_group'][k] if k in mappings['vcard_group'] else None] *)
Definition group_of (m : mappings) (k : string) : group_ref :=
  default GNone (vcard_group m !! k).

(** [mappings['groups'][g]] *)
Definition groups_get (m : mappings) (g : string) : result (list string) :=
  match groups m !! g with
  | Some l => ok l
  | None => raise (KeyError g)
  end.

(** [not isinstance(group, str) and group] *)
Definition bad_group_type (g : group_ref) : bool :=
  match g with
  | GList (_ :: _) => true
  | _ => false
  end.

(** The group key behind a value that is true. *)
Inductive group_view : Type :=
| Falsy
| Key (g : string).

Definition view (g : group_ref) : group_view :=
  match g with
  | GKey s => if Py.is_empty s then Falsy else Key s
  | _ => Falsy
  end.

Section Grouper.

Variable opts : options.

(** One vcard needs to join the other one's group: the mappings are
    changed in place, so the key that is appended to the group stays there
    when the selection of the group key raises. *)
Definition join_group (m : mappings) (exiting_group vcard_to_add : string)
  : in_place mappings group_ref :=
  match groups_get m exiting_group with
  | inl e => (m, inl e)
  | inr l =>
      (* add vard to existing group *)
      let l := l ++ [vcard_to_add] in
      let m := set_groups m (<[exiting_group := l]> (groups m)) in
      (* update the group key *)
      match select_most_relevant_name [exiting_group; vcard_to_add] with
      | inl e => (m, inl e)
      | inr new_group_key =>
          if negb (String.eqb new_group_key exiting_group) && OPTION_UPDATE_GROUP_KEY opts
          then
            let m :=
              set_groups m (delete exiting_group (<[new_group_key := l]> (groups m))) in
            let m :=
              set_vcard_group m
                (fold_left (fun vg k => <[k := GKey new_group_key]> vg) l (vcard_group m)) in
            (m, ok (GKey new_group_key))
          else (m, ok (GKey exiting_group))
      end
  end.

(** The body of [for k in mappings['groups'][other_group_key]] *)
Definition move_key (dest_group_key : string) (m : mappings) (k : string)
  : in_place mappings unit :=
  let m := set_vcard_group m (<[k := GKey dest_group_key]> (vcard_group m)) in
  match groups_get m dest_group_key with
  | inl e => (m, inl e)
  | inr l => (set_groups m (<[dest_group_key := l ++ [k]]> (groups m)), ok tt)
  end.

(** The two groups are merged. *)
Definition merge_groups (m : mappings) (group1 group2 : string)
  : in_place mappings group_ref :=
  match select_most_relevant_name [group1; group2] with
  | inl e => (m, inl e)
  | inr dest_group_key =>
      let other_group_key :=
        if negb (String.eqb dest_group_key group1) then group1 else group2 in
      match groups_get m other_group_key with
      | inl e => (m, inl e)
      | inr l =>
          match for_each (move_key dest_group_key) l m with
          | (m, inl e) => (m, inl e)
          | (m, inr _) =>
              let m := set_groups m (delete other_group_key (groups m)) in
              match groups_get m dest_group_key with
              | inl e => (m, inl e)
              | inr new_group => (m, ok (GKey dest_group_key))
              end
          end
      end
  end.

(** [group_keys]: the mappings as the call leaves them, and the group it
    returns or the exception it raises. *)
Definition group_keys_in_place (m : mappings) (key1 key2 : string)
  (group1 group2 : group_ref) : in_place mappings group_ref :=
  if bad_group_type group1 then
    (m, raise (TypeError "parameter 'group1' must be a string or None"))
  else if bad_group_type group2 then
    (m, raise (TypeError "parameter 'group2' must be a string or None"))
  else
    let '(m, selected_group) :=
      (if negb (String.eqb key1 key2)
          && (negb (bool_decide (group1 = group2))
              || (negb (truthy group1) && negb (truthy group2)))
       then
         match view group1, view group2 with
         | Falsy, Falsy =>
             (* first match (no existing group for both vcards) *)
             match select_most_relevant_name [key1; key2] with
             | inl e => (m, inl e)
             | inr new_group_key =>
                 match groups m !! new_group_key with
                 | Some _ =>
                     (m, raise (RuntimeError ("Failed to group keys: a group already exists "
                                              +:+ "with name '" +:+ new_group_key +:+ "'")))
                 | None =>
                     (set_groups m (<[new_group_key := [key1; key2]]> (groups m)),
                      ok (GKey new_group_key))
                 end
             end
         | Key g, Falsy => join_group m g key2
         | Falsy, Key g => join_group m g key1
         | Key g1, Key g2 =>
             (* need to merge the two groups, if not already in the same group *)
             if negb (String.eqb g1 g2) then merge_groups m g1 g2
             else (m, ok group1)
         end
       else (m, ok group1)) in
    match selected_group with
    | inl e => (m, inl e)
    | inr selected_group =>
        (* ensure the vcard group are up to date with the right vcard group *)
        (set_vcard_group m
           (<[key2 := selected_group]> (<[key1 := selected_group]> (vcard_group m))),
         ok selected_group)
    end.

(** A call from a function that does not catch the exception and whose
    local the store is: what the call returns with the store, or the
    exception. *)
Definition returned {S A : Type} (r : in_place S A) : result (S * A) :=
  match r with
  | (s, inr a) => ok (s, a)
  | (_, inl e) => inl e
  end.

(** [group_keys] as [get_vcards_groups] calls it, on its local [mappings]:
    the mappings and the group when the call returns. *)
Definition group_keys (m : mappings) (key1 key2 : string) (group1 group2 : group_ref)
  : result (mappings * group_ref) :=
  returned (group_keys_in_place m key1 key2 group1 group2).

(** *** Attribute values *)

Variable str_of_name : Name → string.
Variable str_of_list : list string → string.

(** The order in which a [set] built from a list is walked: some order of
    the distinct values. *)
Variable set_iter : list string → list string.

(** [re.sub(' +', ' ', s)] *)
Fixpoint squeeze_spaces (prev_space : bool) (s : string) : string :=
  match s with
  | EmptyString => EmptyString
  | String c r =>
      if Ascii.eqb c " " then
        if prev_space then squeeze_spaces true r
        else String c (squeeze_spaces true r)
      else String c (squeeze_spaces false r)
  end.

(** [is_a_mobile_phone] *)
Definition is_a_mobile_phone (number : string) : bool :=
  Py.startswith number "06" || Py.startswith number "07".

(** [bool(attr.value)] *)
Definition value_truthy (x : value) : bool :=
  match x with
  | VStr s => negb (Py.is_empty s)
  | VName _ => true
  | VList l => match l with [] => false | _ => true end
  end.

(** The texts appended for one instance of [key]. *)
Definition shown_values (key : string) (x : value) : list string :=
  if String.eqb key "n" then
    [Py.strip (squeeze_spaces false (value_str str_of_name str_of_list x))]
  else
    match String.eqb key "org", x with
    | true, VList l => map Py.strip l
    | _, _ => [Py.strip (value_str str_of_name str_of_list x)]
    end.

(** [attr.params.get(param_key)] *)
Fixpoint params_get (params : list (string * list string)) (param_key : string)
  : option (list string) :=
  match params with
  | [] => None
  | (k, l) :: r => if String.eqb k param_key then Some l else params_get r param_key
  end.

(** [filter_values_by_param] *)
Definition filter_values_by_param (v : vcard) (key param_key param_value : string)
  : list string :=
  let exclude := Py.startswith param_value "!" in
  let param_value := Py.upper (if exclude then Py.drop 1 param_value else param_value) in
  flat_map
    (fun attr =>
       let shown :=
         match params_get (cl_params attr) param_key with
         | Some l => str_of_list l
         | None => "None"
         end in
       let append :=
         if String.eqb (Py.upper shown) ("['" +:+ param_value +:+ "']")
         then negb exclude else exclude in
       if append then shown_values key (cl_value attr) else [])
    (attr_list v key).

(** The body of [for key in keys] of [collect_values] *)
Definition collect_key (v : vcard) (key : string) : result (list string) :=
  if Py.contains "_" key then
    match Py.split key "_" with
    | [k_name; k_type] =>
        if hasattr v k_name then ok (filter_values_by_param v k_name "TYPE" k_type)
        else ok []
    | _ => raise (ValueError "too many values to unpack (expected 2)")
    end
  else if String.eqb key "mobiles" then
    ok (flat_map
          (fun tel =>
             let number := Py.strip (value_str str_of_name str_of_list (cl_value tel)) in
             if is_a_mobile_phone number then [number] else [])
          (attr_list v "tel"))
  else if negb (String.eqb key "names") then
    ok (flat_map
          (fun attr =>
             if value_truthy (cl_value attr) then shown_values key (cl_value attr) else [])
          (attr_list v key))
  else ok [].

(** [collect_values(vcard, *keys)], before the list is made a set. *)
Definition collect_values (v : vcard) (keys : list string) : result (list string) :=
  let keys :=
    if bool_decide ("names" ∈ keys) then
      let keys := if bool_decide ("fn" ∈ keys) then keys else keys ++ ["fn"] in
      if bool_decide ("n" ∈ keys) then keys else keys ++ ["n"]
    else keys in
  foldM (fun values key => let! l := collect_key v key in ok (values ++ l)) keys [].

(** *** Phase 1: exact attribute matching *)

(** [attr.rsplit('_')[0] if '_' in attr else ('tel' if attr == 'mobiles' else attr)] *)
Definition a_key_of (attr : string) : string :=
  if Py.contains "_" attr then hd EmptyString (Py.split attr "_")
  else if String.eqb attr "mobiles" then "tel"
  else attr.

(** [mappings['attributes'][a_key][a_value]], when it exists. *)
Definition index_get (m : mappings) (a_key a_value : string) : option (list string) :=
  match attributes m !! a_key with
  | Some d => od_map d !! a_value
  | None => None
  end.

(** [mappings['attributes'][a_key][a_value] = l] *)
Definition index_set (m : mappings) (a_key a_value : string) (l : list string)
  : mappings :=
  set_attributes m
    (<[a_key := od_insert a_value l (default od_empty (attributes m !! a_key))]>
       (attributes m)).

(** The body of [for a_value in a_values]; the state holds the mappings and
    the local [vcard_group]. *)
Definition map_value (key a_key : string) (st : mappings * group_ref) (a_value : string)
  : result (mappings * group_ref) :=
  let '(m, vcard_group) := st in
  match index_get m a_key a_value with
  | None =>
      (* new value *)
      ok (index_set m a_key a_value [key], vcard_group)
  | Some l =>
      if bool_decide (key ∈ l) then ok st
      else
        (* value exists and new key *)
        match l with
        | [] => raise (RuntimeError "empty mapped vcard list")
        | matched_vcard_key :: _ =>
            let m := index_set m a_key a_value (l ++ [key]) in
            if Py.is_empty matched_vcard_key then
              raise (RuntimeError "no mapped vcard but value exists")
            else
              group_keys m key matched_vcard_key vcard_group
                (group_of m matched_vcard_key)
        end
  end.

(** The body of [for attr in OPTION_MATCH_ATTRIBUTES] *)
Definition map_attribute (key : string) (v : vcard) (st : mappings * group_ref)
  (attr : string) : result (mappings * group_ref) :=
  let a_key := a_key_of attr in
  let! values := collect_values v [attr] in
  match set_iter values with
  | [] => ok st
  | a_values =>
      let '(m, vcard_group) := st in
      let m :=
        match attributes m !! a_key with
        | Some _ => m
        | None => set_attributes m (<[a_key := od_empty]> (attributes m))
        end in
      foldM (map_value key a_key) a_values (m, vcard_group)
  end.

(** The body of [for key, vcard in vcards.items()] *)
Definition map_vcard (m : mappings) (kv : string * vcard) : result mappings :=
  let '(key, v) := kv in
  if negb (hasattr v "fn") then raise (AttributeError "fn")
  else
    let vcard_group :=
      match groups m !! key with
      | Some l => GList l
      | None => GNone
      end in
    let! '(m, _) := foldM (map_attribute key v) (OPTION_MATCH_ATTRIBUTES opts)
                      (m, vcard_group) in
    ok m.

Definition phase1 (vcards : list (string * vcard)) : result mappings :=
  foldM map_vcard vcards empty_mappings.

(** *** Phase 2: fuzzy matching on names *)

(** [match_approx], which reads the options and the fuzzy score. *)
Variable match_approx : string → string → bool.

(** The body of [for name2, keys2 in names_to_compare_with.items()] *)
Definition compare_names (name1 : string) (keys1 : list string) (m : mappings)
  (item2 : string * list string) : result mappings :=
  let '(name2, keys2) := item2 in
  if match_approx name1 name2 then
    match keys1 with
    | [] => raise (IndexError "list index out of range")
    | key1 :: _ =>
        let! key2 :=
          (if bool_decide (key1 ∈ keys2) then ok key1
           else match keys2 with
                | k2 :: _ => ok k2
                | [] => raise (IndexError "list index out of range")
                end) in
        let! '(m, _) := group_keys m key1 key2 (group_of m key1) (group_of m key2) in
        ok m
    end
  else ok m.

(** [for name1, keys1 in mappings['attributes']['names'].items()]: a name
    is compared with the names that come after it. *)
Fixpoint compare_all (items : list (string * list string)) (m : mappings)
  : result mappings :=
  match items with
  | [] => ok m
  | (name1, keys1) :: names_to_compare_with =>
      let! m := foldM (compare_names name1 keys1) names_to_compare_with m in
      compare_all names_to_compare_with m
  end.

Definition phase2 (m : mappings) : result mappings :=
  if negb (OPTION_NO_MATCH_APPROX opts)
     && negb (bool_decide ("names" ∈ OPTION_MATCH_ATTRIBUTES opts))
  then ok m
  else if negb (OPTION_NO_MATCH_APPROX opts) then
    match attributes m !! "names" with
    | None => raise (KeyError "names")
    | Some names => compare_all (od_items names) m
    end
  else ok m.

(** The mappings at the end of [get_vcards_groups]. *)
Definition grouper (vcards : list (string * vcard)) : result mappings :=
  let! m := phase1 vcards in
  phase2 m.

(** [get_vcards_groups]: the groups, and the keys that are in no mapping. *)
Definition get_vcards_groups (vcards : list (string * vcard))
  : result (gmap string (list string) * list string) :=
  let! m := grouper vcards in
  ok (groups m,
      filter (fun k => vcard_group m !! k = None) (map fst vcards)).

End Grouper.

(** ** Fixer *)

(** The text as a file opened with universal newlines gives it: [\r\n] and
    [\r] are read as [\n]. *)
Fixpoint universal_newlines (s : string) : string :=
  match s with
  | EmptyString => EmptyString
  | String c r =>
      if Ascii.eqb c "013" then
        match r with
        | String c' r' =>
            if Ascii.eqb c' "010" then String "010" (universal_newlines r')
            else String "010" (universal_newlines r)
        | EmptyString => String "010" EmptyString
        end
      else String c (universal_newlines r)
  end.

(** [for line in vfile]: the lines with their line feed; the last one may
    have none. *)
Fixpoint readlines (s : string) : list string :=
  match s with
  | EmptyString => []
  | String c r =>
      if Ascii.eqb c "010" then String c EmptyString :: readlines r
      else match readlines r with
           | [] => [String c EmptyString]
           | l :: ls => String c l :: ls
           end
  end.

(** The line without its line ending. *)
Definition unix_line (line : string) : string :=
  let line_unix := line in
  let line_unix :=
    if Py.contains (Py.cr +:+ Py.nl) line_unix
    then Py.replace line_unix (Py.cr +:+ Py.nl) Py.nl else line_unix in
  let line_unix :=
    if Py.contains Py.cr line_unix
    then Py.replace line_unix Py.cr Py.nl else line_unix in
  Py.replace line_unix Py.nl EmptyString.

(** The state of the loop over the lines. *)
Record fix_state : Type := {
  fs_lines : list string;
  fs_last_line : option string;
  fs_started_quoted_printable : bool
}.

Definition fix_init : fix_state :=
  {| fs_lines := []; fs_last_line := None; fs_started_quoted_printable := false |}.

(** [if last_line] *)
Definition has_last_line (st : fix_state) : bool :=
  match fs_last_line st with
  | Some l => negb (Py.is_empty l)
  | None => false
  end.

(** [lines.append(last_line); last_line = None] *)
Definition save_last_line (st : fix_state) : list string :=
  match fs_last_line st with
  | Some l => fs_lines st ++ [l]
  | None => fs_lines st
  end.

Section Fixer.

Variable opts : options.

(** The loop over the fields of the key part: the TYPE fields, and the
    others. *)
Definition fix_field (lists : list string * list string) (field : string)
  : list string * list string :=
  let '(type_list, rest_list) := lists in
  if Py.startswith field "TYPE=" then
    (type_list ++ [Re.drop_type field], rest_list)
  else
    let field :=
      if String.eqb field "ENCODING=BASE64" || String.eqb field "ENCODING=B"
      then "ENCODING=b"
      else if String.eqb field "QUOTED-PRINTABLE" then "ENCODING=QUOTED-PRINTABLE"
      else field in
    (type_list, rest_list ++ [field]).

(** The key part has at least one [TYPE=]. *)
Definition fix_with_types (key_part new_key_part rest_part : string) : string :=
  let key_value := Re.key_value key_part in
  let '(type_list, rest_list) :=
    fold_left fix_field (Py.split (Re.drop_name new_key_part) ";") ([], []) in
  (* add PHOTO 'VALUE=URI' when JPEG|PNG|GIF if required *)
  let rest_list :=
    if (bool_decide ("JPEG" ∈ type_list) || bool_decide ("PNG" ∈ type_list)
        || bool_decide ("GIF" ∈ type_list))
       && negb (bool_decide ("ENCODING=b" ∈ rest_list))
       && negb (bool_decide ("VALUE=URI" ∈ rest_list))
    then rest_list ++ ["VALUE=URI"] else rest_list in
  (* add 'CHARSET=UTF-8' when 'ENCODING=QUOTED-PRINTABLE' if required *)
  let rest_list :=
    if bool_decide ("ENCODING=QUOTED-PRINTABLE" ∈ rest_list)
       && negb (Py.contains "CHARSET=" (Py.join "," rest_list))
    then rest_list ++ ["CHARSET=UTF-8"] else rest_list in
  key_value +:+ ";TYPE=" +:+ Py.join "," type_list
  +:+ match rest_list with
      | [] => EmptyString
      | _ => ";" +:+ Py.join ";" rest_list
      end
  +:+ ":" +:+ rest_part.

(** The key part has no [TYPE=]. *)
Definition fix_without_types (new_key_part rest_part : string) : string :=
  let new_key_part :=
    if Py.contains "QUOTED-PRINTABLE" new_key_part then
      let new_key_part :=
        Py.replace new_key_part ";QUOTED-PRINTABLE" ";ENCODING=QUOTED-PRINTABLE" in
      if negb (Py.contains "CHARSET=" new_key_part)
      then Py.replace new_key_part "=QUOTED-PRINTABLE" "=QUOTED-PRINTABLE;CHARSET=UTF-8"
      else new_key_part
    else new_key_part in
  new_key_part +:+ ":" +:+ rest_part.

(** A key:value line: the new line, and [started_quoted_printable]. *)
Definition fix_key_value (started_quoted_printable : bool) (new_line : string)
  : string * bool :=
  (* convert keys to upper case *)
  let key_part := Py.upper (hd EmptyString (Py.split new_line ":")) in
  let rest_part := Re.drop_key new_line in
  let rest_part :=
    if negb (OPTION_DOT_NOT_FORCE_ESCAPE_COMAS opts)
    then Re.escape_commas rest_part else rest_part in
  let new_line := key_part +:+ ":" +:+ rest_part in
  (* there are multiple fields *)
  if Py.contains ";" key_part then
    (* remove double QUOTED-PRINTABLE *)
    let key_part :=
      if Py.contains "QUOTED-PRINTABLE;QUOTED-PRINTABLE" key_part
      then Py.replace key_part "QUOTED-PRINTABLE;QUOTED-PRINTABLE" "QUOTED-PRINTABLE"
      else key_part in
    (* prefix every known type with 'TYPE=' *)
    let new_key_part := Re.type_prefix key_part in
    let new_line :=
      if Py.contains "TYPE=" new_key_part
      then fix_with_types key_part new_key_part rest_part
      else fix_without_types new_key_part rest_part in
    (* starting a quoted-printable line *)
    (new_line,
     if Py.contains "ENCODING=QUOTED-PRINTABLE" new_line then true
     else started_quoted_printable)
  else (new_line, started_quoted_printable).

(** The new line made of a line that is not joined to the previous one. *)
Definition fix_line (started_quoted_printable : bool) (line : string)
  : string * bool :=
  if Re.begin_end line then (Py.upper line, started_quoted_printable)
  else if Re.header line then fix_key_value started_quoted_printable line
  else (line, started_quoted_printable).

(** The multiline value of a quoted-printable line: the line is added to
    the previous one. *)
Definition join_line (last_line line : string) : string :=
  let last_line :=
    if String.eqb (Py.last1 (Py.replace last_line Py.nl EmptyString)) "="
    then Re.drop_final_eq (Py.replace last_line Py.nl EmptyString) +:+ Py.nl
    else last_line in
  let line :=
    if negb (OPTION_DOT_NOT_FORCE_ESCAPE_COMAS opts)
    then Re.escape_commas line else line in
  Py.replace last_line Py.nl EmptyString +:+ Py.strip line +:+ Py.nl.

(** The body of [for line in vfile] *)
Definition fix_step (st : fix_state) (line : string) : fix_state :=
  let line := unix_line line in
  if has_last_line st && fs_started_quoted_printable st && negb (Re.header line) then
    {| fs_lines := fs_lines st;
       fs_last_line := Some (join_line (default EmptyString (fs_last_line st)) line);
       fs_started_quoted_printable := fs_started_quoted_printable st |}
  else
    (* save the previous line *)
    let st :=
      if has_last_line st
      then {| fs_lines := save_last_line st; fs_last_line := None;
              fs_started_quoted_printable := false |}
      else st in
    let '(new_line, started) := fix_line (fs_started_quoted_printable st) line in
    (* last_line is the new_line (will be saved at the next iteration) *)
    {| fs_lines := fs_lines st;
       fs_last_line := Some (new_line +:+ Py.nl);
       fs_started_quoted_printable := started |}.

(** [fix_and_convert_to_v3], from the content of the file to the text. *)
Definition fix_and_convert_to_v3 (content : string) : string :=
  let st := fold_left fix_step (readlines (universal_newlines content)) fix_init in
  (* save the last line if needed *)
  let lines := if has_last_line st then save_last_line st else fs_lines st in
  Py.join EmptyString lines.

End Fixer.

(** ** Notions used to state the properties *)

(** Every character of the text satisfies [P]. *)
Fixpoint all_chars (P : ascii → bool) (s : string) : bool :=
  match s with
  | EmptyString => true
  | String c r => P c && all_chars P r
  end.

(** The name after the first steps of [sanitize_name]: the ICE tokens are
    removed, the dots are replaced, double spaces are replaced twice. *)
Definition collapsed (name : string) : string :=
  Py.replace (Py.replace (Py.replace (Re.ice_sub name) "." " ") "  " " ") "  " " ".

(** No ICE token starts in [s]; [prev_word] tells whether the character
    before [s] is a word character. *)
Fixpoint ice_free_from (prev_word : bool) (s : string) : bool :=
  match s with
  | EmptyString => true
  | String c r =>
      (if prev_word then true
       else match Re.ice_at s with Some _ => false | None => true end)
      && ice_free_from (Py.is_word c) r
  end.

(** The word characters [s] starts with. *)
Fixpoint word_prefix (s : string) : string :=
  match s with
  | EmptyString => EmptyString
  | String c r => if Py.is_word c then String c (word_prefix r) else EmptyString
  end.

(** [s[:n]] *)
Fixpoint take (n : nat) (s : string) : string :=
  match n, s with
  | S k, String c r => String c (take k r)
  | _, _ => EmptyString
  end.

(** [s] is empty or starts with a character that is no word character. *)
Definition starts_nonword (s : string) : Prop :=
  match s with
  | EmptyString => True
  | String c _ => Py.is_word c = false
  end.

(** What REGEX_ICE reads of a character: a word character up to its case,
    or a separator. *)
Definition word_key (c : ascii) : ascii :=
  if Py.is_word c then Py.lower_char c else " "%char.

(** [c in s] for a character. *)
Fixpoint has_char (c : ascii) (s : string) : bool :=
  match s with
  | EmptyString => false
  | String x r => Ascii.eqb x c || has_char c r
  end.

(** An opening character [o] with a closing character [c] somewhere after. *)
Fixpoint pair_in (o c : ascii) (s : string) : bool :=
  match s with
  | EmptyString => false
  | String x r => (Ascii.eqb x o && has_char c r) || pair_in o c r
  end.

Definition is_bracket (c : ascii) : bool :=
  Ascii.eqb c "(" || Ascii.eqb c ")" || Ascii.eqb c "[" || Ascii.eqb c "]".

(** The parentheses and braces of the text, in their order. *)
Fixpoint brackets (s : string) : string :=
  match s with
  | EmptyString => EmptyString
  | String c r => if is_bracket c then String c (brackets r) else brackets r
  end.


(** The text without the characters that satisfy [P]. *)
Fixpoint remove_chars (P : ascii → bool) (s : string) : string :=
  match s with
  | EmptyString => EmptyString
  | String c r => if P c then remove_chars P r else String c (remove_chars P r)
  end.











(** No group exists and no key is mapped to a group. *)
Definition ungrouped (m : mappings) : Prop :=
  groups m = ∅ ∧ ∀ k g, vcard_group m !! k = Some g → g = GNone.

(** [for x in l: s = f(s, x)] where a step may fail. *)
Fixpoint ofold {S A : Type} (f : S → A → option S) (l : list A) (s : S) : option S :=
  match l with
  | [] => Some s
  | x :: r => match f s x with Some s' => ofold f r s' | None => None end
  end.

(** The index of phase 1 seen as the owner of each pair of an attribute
    key and a value: a record claims its pairs, and fails on a pair that
    another record owns. *)
Definition claim (key : string) (owners : gmap (string * string) string)
  (p : string * string) : option (gmap (string * string) string) :=
  match owners !! p with
  | None => Some (<[p := key]> owners)
  | Some k => if String.eqb k key then Some owners else None
  end.

Section Claims.

Variable opts : options.
Variable str_of_name : Name → string.
Variable str_of_list : list string → string.
Variable set_iter : list string → list string.

Definition claim_attribute (key : string) (v : vcard)
  (owners : gmap (string * string) string) (attr : string)
  : option (gmap (string * string) string) :=
  match collect_values str_of_name str_of_list v [attr] with
  | inl _ => None
  | inr values =>
      ofold (fun owners a_value => claim key owners (a_key_of attr, a_value))
            (set_iter values) owners
  end.

Definition claim_vcard (owners : gmap (string * string) string) (kv : string * vcard)
  : option (gmap (string * string) string) :=
  if negb (hasattr kv.2 "fn") then None
  else ofold (claim_attribute kv.1 kv.2) (OPTION_MATCH_ATTRIBUTES opts) owners.

End Claims.

(** The mappings of phase 1 hold no group, and their index is the one of
    the owners. *)
Definition indexed (m : mappings) (owners : gmap (string * string) string) : Prop :=
  groups m = ∅ ∧ vcard_group m = ∅
  ∧ ∀ a v, index_get m a v = (fun k => [k]) <$> owners !! (a, v).

(** The same with the local [vcard_group] of the loop, which stays [None]. *)
Definition indexed_st (st : mappings * group_ref)
  (owners : gmap (string * string) string) : Prop :=
  indexed st.1 owners ∧ st.2 = GNone.

(** A run with exceptions and a run that may fail end alike. *)
Definition alike {S T : Type} (R : S → T → Prop) (r : result S) (o : option T) : Prop :=
  match r, o with
  | inr s, Some t => R s t
  | inl _, None => True
  | _, _ => False
  end.


(** The lines of a text as the loop of the fixer sees them. *)
Definition physical_lines (content : string) : list string :=
  map unix_line (readlines (universal_newlines content)).

(** The key part of a key:value line, before it is upper-cased. *)
Definition header_key (l : string) : string := hd EmptyString (Py.split l ":").

(** A line that is no key:value line, or a key:value line whose key part
    has no parameter and whose value has no two commas in a row (or whose
    commas are left alone by the option). *)
Definition plain_line (opts : options) (l : string) : bool :=
  negb (Re.header l)
  || (negb (Py.contains ";" (header_key l))
      && (OPTION_DOT_NOT_FORCE_ESCAPE_COMAS opts
          || negb (Py.contains ",," (Re.drop_key l)))).

(** What the fixer makes of a plain line. *)
Definition fix_plain (opts : options) (l : string) : string :=
  if Re.begin_end l then Py.upper l
  else if Re.header l then
    Py.upper (header_key l) +:+ ":"
    +:+ (if negb (OPTION_DOT_NOT_FORCE_ESCAPE_COMAS opts)
         then Re.escape_commas (Re.drop_key l) else Re.drop_key l)
  else l.

(** The text before the first colon, and the text after it. *)
Fixpoint before_colon (s : string) : string :=
  match s with
  | EmptyString => EmptyString
  | String c r => if Ascii.eqb c ":" then EmptyString else String c (before_colon r)
  end.

Fixpoint after_colon (s : string) : string :=
  match s with
  | EmptyString => EmptyString
  | String c r => if Ascii.eqb c ":" then r else after_colon r
  end.

(** A character of a key: no colon and no space. *)
Definition key_char (c : ascii) : bool :=
  negb (Ascii.eqb c ":") && negb (Ascii.eqb c " ").

(** A character that ends no line. *)
Definition no_eol (c : ascii) : bool :=
  negb (Ascii.eqb c "010") && negb (Ascii.eqb c "013").

(** Every comma of the text follows a backslash; [after_backslash] tells
    whether the head of the text does. *)
Fixpoint escaped_from (after_backslash : bool) (s : string) : bool :=
  match s with
  | EmptyString => true
  | String c r =>
      (negb (Ascii.eqb c ",") || after_backslash)
      && escaped_from (Ascii.eqb c "092") r
  end.

(** The text that the fixer returns when the last line is saved. *)
Definition fix_output (st : fix_state) : string :=
  Py.join EmptyString (if has_last_line st then save_last_line st else fs_lines st).


(** The owners of [o] are owners in [o']. *)
Definition owners_kept (o o' : gmap (string * string) string) : Prop :=
  ∀ p k, o !! p = Some k → o' !! p = Some k.

(** ** File names (vcardtools.py) *)

(** FROM_CHARACTERS, character by character: the dot, the backslash, the
    slash, the double and the single quote, and the signs that follow. *)
Definition FROM_CHARACTERS : list ascii :=
  ["."; "092"; "/"; "034"; "'"; "!"; "@"; "#"; "?"; "$"; "%"; "^"; "&"; "*"; "|";
   "("; ")"; "["; "]"; "{"; "}"; ";"; ":"; "<"; ">"]%char.

(** [sanitise_name]: every character of FROM_CHARACTERS is replaced, one
    after the other, by an underscore. *)
Definition sanitise_name (a_name : string) : string :=
  fold_left
    (fun a_name old_char => Py.replace a_name (String old_char EmptyString) "_")
    FROM_CHARACTERS a_name.

(** [mk_vcard_fnm] *)
Definition mk_vcard_fnm (a_name ext : string) : string :=
  sanitise_name a_name +:+ ext.

(** The loop of [sanitise_name] on one character. *)
Definition sanitise_char (c : ascii) : ascii :=
  fold_left (fun c old_char => if Ascii.eqb old_char c then "_"%char else c)
    FROM_CHARACTERS c.

(** [c in FROM_CHARACTERS] *)
Definition from_character (c : ascii) : bool :=
  existsb (Ascii.eqb c) FROM_CHARACTERS.

(** ** Fuzzy matching of names *)

(** The options of [match_approx]; [OPTION_MATCH_APPROX_MAX_DISTANCE] is a
    [range(a, b)], kept as its two bounds. *)
Record approx_options : Type := {
  OPTION_MATCH_APPROX_SAME_FIRST_LETTER : bool;
  OPTION_MATCH_APPROX_STARTSWITH : bool;
  OPTION_MATCH_APPROX_MIN_LENGTH : Z;
  OPTION_MATCH_APPROX_MAX_DISTANCE : Z * Z;
  OPTION_MATCH_APPROX_RATIO : Z
}.

Definition default_approx_options : approx_options := {|
  OPTION_MATCH_APPROX_SAME_FIRST_LETTER := true;
  OPTION_MATCH_APPROX_STARTSWITH := false;
  OPTION_MATCH_APPROX_MIN_LENGTH := 5;
  OPTION_MATCH_APPROX_MAX_DISTANCE := ((-3)%Z, 3%Z);
  OPTION_MATCH_APPROX_RATIO := 100
|}.

(** [x in range(a, b)] *)
Definition in_range (r : Z * Z) (x : Z) : bool := ((r.1 <=? x) && (x <? r.2))%Z.

(** [len(s)], as an integer. *)
Definition len (s : string) : Z := Z.of_nat (String.length s).

(** [s[:1].lower()] *)
Definition first_lower (s : string) : string := Py.lower (take 1 s).

Section MatchApprox.

Variable opts : options.
Variable aopts : approx_options.

(** [fuzzywuzzy.fuzz.token_sort_ratio] *)
Variable token_sort_ratio : string → string → nat.

(** [reverse_words] *)
Definition reverse_words (s : string) : string :=
  let reverse_name := build_formatted_name opts s in
  family reverse_name +:+ " " +:+ given reverse_name.

(** [match_approx].  The reversed names are bound when one of the two
    options that read them is set, so no name is read unbound. *)
Definition match_approx (reference compared : string) : bool :=
  (* safe approximate matching *)
  if (OPTION_MATCH_APPROX_RATIO aopts =? 100)%Z
     && (token_sort_ratio reference compared =? 100)%nat
  then true
  (* ensure a minimal length when doing unsafe approximate match *)
  else if ((OPTION_MATCH_APPROX_MIN_LENGTH aopts <? len reference)
           && (OPTION_MATCH_APPROX_MIN_LENGTH aopts <? len compared))%Z
  then
    (* build reversed words names *)
    let reference_reversed := reverse_words reference in
    let compared_reversed := reverse_words compared in
    (* ensure the same first letter (reverse is ok too), if required *)
    if negb (OPTION_MATCH_APPROX_SAME_FIRST_LETTER aopts)
       || String.eqb (first_lower reference) (first_lower compared)
       || String.eqb (first_lower reference) (first_lower compared_reversed)
       || String.eqb (first_lower reference_reversed) (first_lower compared)
    then
      (* "startswith" comparizon, with a maximum distance *)
      if OPTION_MATCH_APPROX_STARTSWITH aopts
         && in_range (OPTION_MATCH_APPROX_MAX_DISTANCE aopts)
              (len reference - len compared)%Z
         && (Py.startswith reference compared
             || Py.startswith compared reference
             || Py.startswith reference_reversed compared
             || Py.startswith compared_reversed reference)
      then true
      (* fuzzy comparizon, based on token_sort_ratio *)
      else (OPTION_MATCH_APPROX_RATIO aopts
            <=? Z.of_nat (token_sort_ratio reference compared))%Z
    else false
  else false.

End MatchApprox.

(** ** Names built from emails *)

(** EMAIL_USERS_ADD_DOMAIN *)
Definition EMAIL_USERS_ADD_DOMAIN : list string :=
  ["contact"; "info"; "admin"; "hello"; "job"; "question"; "support"; "service";
   "sales"; "deal"; "unsubscribe"; "return";
   "credit"; "recrute"; "desinscription"; "sav"; "servicecommercial";
   "relationclient"].

(** REGEX_ANY_DASH_OR_UNDERSCORE = ['[_-]'], [.sub(' ', s)] *)
Definition dash_or_underscore_sub (s : string) : string :=
  Py.map_chars (fun c => if Ascii.eqb c "_" || Ascii.eqb c "-" then " "%char else c) s.

(** REGEX_ANY_NUMBER = ['[0-9]'], [.sub('', s)] *)
Definition number_sub (s : string) : string := remove_chars Py.is_digit s.

(** The text before a last dot that only letters, and one at least, follow
    up to the end of the text. *)
Fixpoint before_extension (s : string) : option string :=
  match s with
  | EmptyString => None
  | String c r =>
      match before_extension r with
      | Some g => Some (String c g)
      | None =>
          if Ascii.eqb c "." && negb (Py.is_empty r) && all_chars Py.is_alpha r
          then Some EmptyString else None
      end
  end.

(** REGEX_WITHOUT_EXTENSION = ['(.+)\\.[a-zA-Z]+$'], [.sub('\\1', s)]: the
    extension ends the text, or stands before its last line feed; the
    character before the dot is read by the group, so it is no line feed. *)
Definition without_extension (s : string) : string :=
  let '(body, tail) :=
    if Py.endswith s Py.nl
    then (String.substring 0 (String.length s - 1) s, Py.nl)
    else (s, EmptyString) in
  match before_extension body with
  | Some g =>
      if Py.is_empty (Py.last1 g) || String.eqb (Py.last1 g) Py.nl then s
      else g +:+ tail
  | None => s
  end.

(** [s.count(c)] for a character. *)
Fixpoint count_char (c : ascii) (s : string) : nat :=
  match s with
  | EmptyString => 0
  | String x r => (if Ascii.eqb x c then 1 else 0) + count_char c r
  end.

Section NameFromEmail.

Variable token_sort_ratio : string → string → nat.

(** [build_name_from_email] *)
Definition build_name_from_email (email : string) : result string :=
  (* don't use a thunderbird invalid email *)
  if Py.endswith (Py.strip (Py.lower email)) "nowhere.invalid" then
    raise (ValueError ("Trying to extract a name from a Thunderbird invalid email ("
                       +:+ email +:+ ")"))
  else
    (* split both side of the @ *)
    match Py.split (Py.strip email) "@" with
    | [email_user; email_domain] =>
        (* remove any dash or underscore, or any number *)
        let name := dash_or_underscore_sub (number_sub email_user) in
        (* specific cases where we add the domain as a prefix *)
        let name :=
          if existsb (Py.startswith (Py.lower name)) EMAIL_USERS_ADD_DOMAIN
          then without_extension (dash_or_underscore_sub email_domain) +:+ " - " +:+ name
          else name in
        (* remove dots *)
        let name := Py.replace name "." " " in
        (* return a sanitized name *)
        ok (sanitize_name token_sort_ratio name)
    | [_] => raise (ValueError "not enough values to unpack (expected 2, got 1)")
    | _ => raise (ValueError "too many values to unpack (expected 2)")
    end.

End NameFromEmail.

(** A line of the fixer: a text without line ending, then a line feed. *)
Definition fixed_line (x : string) : Prop :=
  ∃ l, x = l +:+ Py.nl ∧ all_chars no_eol l = true.

(** The lines kept by the loop of the fixer are lines. *)
Definition fix_state_lines (st : fix_state) : Prop :=
  Forall fixed_line (fs_lines st)
  ∧ match fs_last_line st with
    | Some x => fixed_line x
    | None => True
    end.


(** ** The names of a record *)

(** REGEX_ONY_NON_ALPHANUM, [.match(s)]: a run of spaces and tabulations, a
    run of characters that are no word characters, a run of spaces and
    tabulations, then the end of the text or its last line feed.  Spaces,
    tabulations and the line feed are no word characters: the expression
    reads the texts without word character, and only them. *)
Definition only_non_alphanum (s : string) : bool :=
  all_chars (fun c => negb (Py.is_word c)) s.

Section VcardNames.

Variable token_sort_ratio : string → string → nat.
Variable str_of_name : Name → string.
Variable str_of_list : list string → string.

(** The body of [for attr_n in getattr(vcard, name_key + '_list')] *)
Definition collect_name (available_names : list string) (attr_n : ContentLine)
  : result (list string) :=
  let value :=
    close_parentheses_or_braces
      (Py.strip (value_str str_of_name str_of_list (cl_value attr_n))) in
  if negb (only_non_alphanum value) then
    if (count_char "@" value =? 1)%nat then
      let! name := build_name_from_email token_sort_ratio value in
      ok (add_available name available_names)
    else ok (add_available (sanitize_name token_sort_ratio value) available_names)
  else ok available_names.

(** The body of [for name_key in ['fn', 'n']] *)
Definition collect_name_key (v : vcard) (available_names : list string)
  (name_key : string) : result (list string) :=
  if hasattr v name_key
  then foldM collect_name (attr_list v name_key) available_names
  else ok available_names.

(** The body of the first [for email in vcard.email_list] *)
Definition collect_email_name (available_names : list string) (email : ContentLine)
  : result (list string) :=
  match cl_value email with
  | VStr s =>
      (* not a thunderbird invalid email *)
      if negb (Py.endswith (Py.strip (Py.lower s)) "nowhere.invalid") then
        match Re.name_email s with
        | Some (name, _) =>
            ok (add_available (sanitize_name token_sort_ratio name) available_names)
        | None => ok available_names
        end
      else ok available_names
  | _ => raise (AttributeError "lower")
  end.

(** The body of the second [for email in vcard.email_list] *)
Definition collect_built_email (available_names : list string) (email : ContentLine)
  : result (list string) :=
  match cl_value email with
  | VStr s =>
      let! name := build_name_from_email token_sort_ratio s in
      ok (add_available name available_names)
  | _ => raise (TypeError "parameter 'email' must be a string")
  end.

(** The body of [for org in vcard.org_list] *)
Definition collect_org (available_names : list string) (org : ContentLine)
  : result (list string) :=
  if value_truthy (cl_value org) then
    match cl_value org with
    | VList l =>
        ok (fold_left
              (fun names org_item =>
                 if negb (only_non_alphanum (Py.strip org_item))
                 then add_available (sanitize_name token_sort_ratio org_item) names
                 else names)
              l available_names)
    | VStr s =>
        if negb (only_non_alphanum (Py.strip s))
        then ok (add_available (sanitize_name token_sort_ratio s) available_names)
        else ok available_names
    | VName _ => raise (AttributeError "strip")
    end
  else ok available_names.

(** [not available_names] *)
Definition no_name (available_names : list string) : bool :=
  match available_names with [] => true | _ => false end.

(** [collect_vcard_names] *)
Definition collect_vcard_names (v : vcard) : result (list string) :=
  let available_names := [] in
  let! available_names := foldM (collect_name_key v) ["fn"; "n"] available_names in
  let! available_names :=
    (if hasattr v "email"
     then foldM collect_email_name (attr_list v "email") available_names
     else ok available_names) in
  (* no name found, but there is an email : build a name from it *)
  let! available_names :=
    (if no_name available_names && hasattr v "email"
     then foldM collect_built_email (attr_list v "email") available_names
     else ok available_names) in
  (* no name found, but there is an org : use it as name *)
  let! available_names :=
    (if no_name available_names && hasattr v "org"
     then foldM collect_org (attr_list v "org") available_names
     else ok available_names) in
  (* no name found, but there is a tel : build a name from it *)
  if no_name available_names && hasattr v "tel" then
    match attr_list v "tel" with
    | tel :: _ =>
        ok (add_available
              ("tel_" +:+ Py.strip (value_str str_of_name str_of_list (cl_value tel)))
              available_names)
    | [] => raise (AttributeError "tel")
    end
  else ok available_names.

End VcardNames.

(** ** Reading the records of files *)

(** What ends [get_vcards_from_files]: an exception [exn] of the program or
    of Python, an unbound local name, the ParseError of the parser, or an
    exception of another class (UnicodeDecodeError, binascii.Error ...). *)
Inductive failure : Type :=
| Raised (e : exn)
| UnboundLocalError (name : string)
| ParseError (message : string)
| OtherError (class message : string).

Definition lift {A} (r : result A) : failure + A :=
  match r with
  | inl e => inl (Raised e)
  | inr x => inr x
  end.

(** [except (TypeError, UnicodeDecodeError, binascii.Error)] *)
Definition first_handler (f : failure) : bool :=
  match f with
  | Raised (TypeError _) => true
  | OtherError class _ =>
      String.eqb class "UnicodeDecodeError" || String.eqb class "binascii.Error"
  | _ => false
  end.

(** The three handlers log and raise again; the first one reads
    [selected_name], which is bound once a name was selected. *)
Definition handle (selected_name : option string) (f : failure) : failure :=
  if first_handler f then
    match selected_name with
    | Some _ => f
    | None => UnboundLocalError "selected_name"
    end
  else f.

(** [str(index)] *)
Definition str_of_nat (n : nat) : string := pretty n.

Section ReadFiles.

Variable opts : options.
Variable token_sort_ratio : string → string → nat.
Variable str_of_name : Name → string.
Variable str_of_list : list string → string.

(** [readComponents(content)]: the records that the generator yields, and
    the exception that ends it, if any. *)
Variable readComponents : string → list vcard * option failure.

(** [vcard.serialize()]: the exception it raises, if any. *)
Variable serialize : vcard → option failure.

Variable do_not_fix_and_convert do_not_overwrite_names
         mv_name_parenth_braces_to_note do_not_remove_name_in_email : bool.

(** [while name_indexed in vcards]: the first free index; one of the
    indexes up to the number of keys plus one is free. *)
Definition name_indexed (vcards : odict vcard) (selected_name : string) : string :=
  match
    List.find (fun index =>
                 negb (bool_decide (is_Some
                         (od_map vcards !! (selected_name +:+ "(" +:+ str_of_nat index +:+ ")")))))
              (seq 1 (S (length (od_keys vcards))))
  with
  | Some index => selected_name +:+ "(" +:+ str_of_nat index +:+ ")"
  | None => selected_name
  end.

(** The state of the loops: the dict of the records and the local
    [selected_name]. *)
Definition read_state : Type := odict vcard * option string.

(** The body of [for vcard in vcard_list]: the state it leaves, and the
    exception it raises, if any. *)
Definition read_vcard (st : read_state) (v : vcard) : read_state * option failure :=
  let '(vcards, selected) := st in
  (* collect names *)
  match collect_vcard_names token_sort_ratio str_of_name str_of_list v with
  | inl e => (st, Some (Raised e))
  | inr available_names =>
      (* select the most relevant name *)
      match select_most_relevant_name available_names with
      | inl e => (st, Some (Raised e))
      | inr selected_name =>
          (* normalize the fields *)
          match normalize opts str_of_name str_of_list v selected_name
                  do_not_overwrite_names mv_name_parenth_braces_to_note
                  do_not_remove_name_in_email with
          | inl e => ((vcards, Some selected_name), Some (Raised e))
          | inr v' =>
              (* force the full parsing of the vcard to prevent further crash *)
              match serialize v' with
              | Some f => ((vcards, Some selected_name), Some f)
              | None =>
                  (* increment the name if already used *)
                  let selected_name :=
                    if bool_decide (is_Some (od_map vcards !! selected_name))
                    then name_indexed vcards selected_name
                    else selected_name in
                  (* add the card to the list *)
                  ((od_insert selected_name v' vcards, Some selected_name), None)
              end
          end
      end
  end.

Fixpoint read_vcards (st : read_state) (l : list vcard) : read_state * option failure :=
  match l with
  | [] => (st, None)
  | v :: r =>
      match read_vcard st v with
      | (st', None) => read_vcards st' r
      | (st', Some f) => (st', Some f)
      end
  end.

(** The text that is parsed. *)
Definition read_content (raw : string) : string :=
  if negb do_not_fix_and_convert then fix_and_convert_to_v3 opts raw
  else universal_newlines raw.

(** The body of [for f_path in files], for a file that holds [raw]. *)
Definition read_file (st : read_state) (raw : string) : failure + read_state :=
  let '(vcard_list, parse_failure) := readComponents (read_content raw) in
  match read_vcards st vcard_list with
  | (st', Some f) => inl (handle st'.2 f)
  | (st', None) =>
      match parse_failure with
      | Some f => inl (handle st'.2 f)
      | None => inr st'
      end
  end.

Fixpoint read_files (st : read_state) (raws : list string) : failure + read_state :=
  match raws with
  | [] => inr st
  | raw :: r =>
      match read_file st raw with
      | inl f => inl f
      | inr st' => read_files st' r
      end
  end.

(** [get_vcards_from_files], for files that can be read: a file is given by
    its path and by the text it holds. *)
Definition get_vcards_from_files (files : list (string * string))
  : failure + odict vcard :=
  match files with
  | [] => inl (Raised (ValueError "max() arg is an empty sequence"))
  | _ =>
      match read_files (od_empty, None) (map snd files) with
      | inl f => inl f
      | inr (vcards, _) => inr vcards
      end
  end.

End ReadFiles.

(** ** Deduplication *)

Section Deduplicate.

Variable opts : options.
Variable token_sort_ratio : string → string → nat.
Variable str_of_name : Name → string.
Variable str_of_list : list string → string.

(** [collect_attributes] and [build_vcard] read and build the records of
    the parser library: what they return, or the exception they raise. *)
Variable collect_attributes : list vcard → result (gmap string attr_entry).
Variable build_vcard : gmap string attr_entry → result vcard.

(** [deduplicate] *)
Definition deduplicate (v : vcard) : result vcard :=
  (* collect attributes for all vCards *)
  let! attributes := collect_attributes [v] in
  (* select a name (filter 'fn' and 'n' attributes) *)
  match set_name opts token_sort_ratio str_of_name str_of_list attributes with
  | (_, inl e) => raise e
  | (attributes, inr _) =>
      (* save the remaining attributes to the merged vCard *)
      build_vcard attributes
  end.

End Deduplicate.


(** ** The options of the command line

    [main] of [vcardtools.py] sets the options as attributes of the module
    [vcardlib]; the library reads them as its globals.  The module is the
    map of its attributes. *)

Inductive pyval : Type :=
| PBool (b : bool)
| PInt (n : Z)
| PRange (start stop : Z)
| PStrs (l : list string).

Abbreviation module := (gmap string pyval).

(** [bool(v)] *)
Definition py_bool (v : pyval) : bool :=
  match v with
  | PBool b => b
  | PInt n => negb (n =? 0)%Z
  | PRange start stop => (start <? stop)%Z
  | PStrs l => match l with [] => false | _ => true end
  end.

(** [len(v)] *)
Definition py_len (v : pyval) : result nat :=
  match v with
  | PStrs l => ok (length l)
  | PRange start stop => ok (Z.to_nat (stop - start))
  | PBool _ => raise (TypeError "object of type 'bool' has no len()")
  | PInt _ => raise (TypeError "object of type 'int' has no len()")
  end.

(** [l != v] for a list [l] *)
Definition strs_differ (l : list string) (v : pyval) : bool :=
  match v with
  | PStrs l' => negb (bool_decide (l = l'))
  | _ => true
  end.

(** [vcardlib.name] *)
Definition module_attr (m : module) (name : string) : result pyval :=
  match m !! name with
  | Some v => ok v
  | None => raise (AttributeError name)
  end.

(** The module [vcardlib] once it is imported: its global options. *)
Definition vcardlib_module : module :=
  <["OPTION_DOT_NOT_FORCE_ESCAPE_COMAS" := PBool false]>
  (<["OPTION_FRENCH_TWEAKS" := PBool false]>
  (<["OPTION_UPDATE_GROUP_KEY" := PBool true]>
  (<["OPTION_MATCH_APPROX_RATIO" := PInt 100]>
  (<["OPTION_MATCH_APPROX_MAX_DISTANCE" := PRange (-3) 3]>
  (<["OPTION_MATCH_APPROX_MIN_LENGTH" := PInt 5]>
  (<["OPTION_MATCH_APPROX_STARTSWITH" := PBool false]>
  (<["OPTION_MATCH_APPROX_SAME_FIRST_LETTER" := PBool true]>
  (<["OPTION_NO_MATCH_APPROX" := PBool false]>
  (<["OPTION_MATCH_ATTRIBUTES" := PStrs ["names"; "tel_!work"; "email"]]> ∅))))))))).

(** The arguments of the command line that [main] makes options of. *)
Record Args : Type := {
  no_match_approx : bool;
  match_attributes : list string;
  match_min_length : Z;
  no_match_same_first_letter : bool;
  match_startswith : bool;
  match_max_distance : Z;
  match_ratio : Z;
  french_tweaks : bool;
  do_not_force_escape_commas : bool
}.

(** The options that [main] sets from the arguments. *)
Definition set_options (args : Args) (vcardlib : module) : result module :=
  (* no match approx *)
  let vcardlib := <["OPTION_NO_MATCH_APPROX" := PBool (no_match_approx args)]> vcardlib in
  (* match attributes *)
  let! vcardlib :=
    if py_bool (PStrs (match_attributes args)) then
      let! current := module_attr vcardlib "OPTION_MATCH_ATTRIBUTES" in
      if strs_differ (match_attributes args) current then
        let! n := py_len current in
        ok (<["OPTION_MATCH_ATTRIBUTES" := PStrs (drop n (match_attributes args))]> vcardlib)
      else ok vcardlib
    else ok vcardlib in
  (* match approx min length *)
  let vcardlib :=
    if py_bool (PInt (match_min_length args))
    then <["OPTION_MATCH_APPROX_MIN_LENGTH" := PInt (match_min_length args)]> vcardlib
    else vcardlib in
  (* match approx same first letter *)
  let vcardlib :=
    <["OPTION_MATCH_APPROX_SAME_FIRST_LETTER" :=
        PBool (negb (no_match_same_first_letter args))]> vcardlib in
  (* match approx startswith *)
  let vcardlib :=
    <["OPTION_MATCH_APPROX_STARTSWITH" := PBool (match_startswith args)]> vcardlib in
  (* match approx max distance *)
  let vcardlib :=
    if py_bool (PInt (match_max_distance args))
    then <["OPTION_MATCH_APPROX_MAX_DISTANCE" :=
             PRange (- match_max_distance args) (match_max_distance args)]> vcardlib
    else vcardlib in
  (* match ratio *)
  let vcardlib :=
    if py_bool (PInt (match_ratio args))
    then <["OPTION_MATCH_APPROX_RATIO" := PInt (match_ratio args)]> vcardlib
    else vcardlib in
  (* french tweaks *)
  let vcardlib := <["OPTION_FRENCH_TWEAKS" := PBool (french_tweaks args)]> vcardlib in
  (* comma auto escape *)
  ok (<["OPTION_DO_NOT_FORCE_ESCAPE_COMMAS" :=
          PBool (do_not_force_escape_commas args)]> vcardlib).

(** The options as the library reads them in its globals, each one of the
    type the library uses it with. *)
Definition module_options (vcardlib : module) : option options :=
  match vcardlib !! "OPTION_MATCH_ATTRIBUTES", vcardlib !! "OPTION_NO_MATCH_APPROX",
        vcardlib !! "OPTION_UPDATE_GROUP_KEY", vcardlib !! "OPTION_FRENCH_TWEAKS",
        vcardlib !! "OPTION_DOT_NOT_FORCE_ESCAPE_COMAS" with
  | Some (PStrs attributes), Some no_approx, Some update, Some french, Some no_escape =>
      Some {| OPTION_MATCH_ATTRIBUTES := attributes;
              OPTION_NO_MATCH_APPROX := py_bool no_approx;
              OPTION_UPDATE_GROUP_KEY := py_bool update;
              OPTION_FRENCH_TWEAKS := py_bool french;
              OPTION_DOT_NOT_FORCE_ESCAPE_COMAS := py_bool no_escape |}
  | _, _, _, _, _ => None
  end.

(** A name without a letter and without an underscore. *)
Definition no_letter (k : string) : bool :=
  all_chars (fun a => negb (Py.is_alpha a) && negb (Ascii.eqb a "_")) k.

(** A text of ASCII characters: the case and white space functions of
    [Py] are those of Python on such a text only. *)
Definition is_ascii (c : ascii) : bool := (nat_of_ascii c <? 128)%nat.

Definition ascii_text (s : string) : bool := all_chars is_ascii s.

(** * Properties *)

(*THEOREMS*)
Local Open Scope nat_scope.

Example split_ex : Py.split "a - b - c" " - " = ["a"; "b"; "c"].
Proof. reflexivity. Qed.
Example replace_ex : Py.replace "a     b" "  " " " = "a   b".
Proof. reflexivity. Qed.
Example title_ex : Py.title "hello wORLD x1y" = "Hello World X1Y".
Proof. reflexivity. Qed.
Example strip_ex : Py.strip "  a b  " = "a b".
Proof. reflexivity. Qed.
Example endswith_ex : Py.endswith "a@nowhere.invalid" "@nowhere.invalid" = true.
Proof. reflexivity. Qed.

Example bracket_sub_ex : Re.bracket_sub "Marie (ICE1) Martin [x]  y" = "MarieMartiny".
Proof. reflexivity. Qed.
Example bracket_search_ex : Re.bracket_search "Marie (ICE1) Martin [x]" = Some "(ICE1)".
Proof. reflexivity. Qed.
Example ice_sub_ex : Re.ice_sub "ice1 a ICE, NICE ICE12x Ice" = " a , NICE ICE12x ".
Proof. reflexivity. Qed.
Example name_email_ex :
  Re.name_email (Py.dq +:+ "Jean Dupont" +:+ Py.dq +:+ " <jean.dupont@ex.fr>")
  = Some ("Jean Dupont", "jean.dupont@ex.fr").
Proof. reflexivity. Qed.
Example index_sub_ex : Re.index_sub "Bob (a)(12)" = "Bob (a)".
Proof. reflexivity. Qed.
Example index_sub_ex2 : Re.index_sub "Bob (12) x" = "Bob (12) x".
Proof. reflexivity. Qed.

Example bfn_ex : build_formatted_name default_options "Jean Dupont (work)"
  = {| family := "Dupont"; given := "Jean"; suffix := Some "(work)" |}.
Proof. reflexivity. Qed.
Example bfn_ex2 : build_formatted_name default_options "Acme - Jean Dupont"
  = {| family := "Acme"; given := "Jean Dupont"; suffix := None |}.
Proof. reflexivity. Qed.
Example sel_ex : select_most_relevant_name ["a"] = raise (TypeError "parameter 'names[0]' is undefined").
Proof. reflexivity. Qed.
Example san_ex : sanitize_name (fun _ _ => 0) "a     b" = "A  B".
Proof. reflexivity. Qed.
Example san_ex2 : sanitize_name (fun _ _ => 0) "A  B" = "A B".
Proof. reflexivity. Qed.
Example san_ex3 : sanitize_name (fun _ _ => 0) "ICE (ice)" = "Ice".
Proof. reflexivity. Qed.

Example merge_ex :
  merge [] [[line "tel" (VStr "1"); line "tel" (VStr "2")]]
  = ([], raise (AttributeError "TEL_list")).
Proof. reflexivity. Qed.

(** ** Name selection *)

Lemma select_loop_ok_inv names st st' :
  select_loop names st = inr st' → st' = st ∧ Forall (fun n => n = EmptyString) names.
Proof.
  revert st. induction names as [|name rest IH]; intros st H; simpl in H.
  - inversion H. auto.
  - destruct name as [|c name]; simpl in H.
    + destruct (IH _ H) as [-> HF]. auto.
    + discriminate.
Qed.

Lemma select_loop_no_KeyError names st e :
  select_loop names st = inl e → ∀ k, e ≠ KeyError k.
Proof.
  revert st. induction names as [|x l IH]; intros st H; simpl in H; [discriminate|].
  destruct (Py.is_empty x); [eapply IH, H|].
  inversion H; discriminate.
Qed.

(** Whatever the candidates, the selection ends in an exception, which is
    no [KeyError]. *)
Lemma select_most_relevant_name_raises names :
  ∃ e, select_most_relevant_name names = inl e ∧ ∀ k, e ≠ KeyError k.
Proof.
  destruct names as [|n rest]; [eexists; split; [reflexivity|discriminate]|].
  unfold select_most_relevant_name.
  destruct (select_loop (n :: rest)
              {| selected_name := None; longuest_length := 0; pos := 0 |})
    as [e|st'] eqn:E; simpl.
  - exists e. split; [reflexivity|]. eapply select_loop_no_KeyError, E.
  - apply select_loop_ok_inv in E as [-> _]. simpl.
    eexists; split; [reflexivity|discriminate].
Qed.

(** C3. [select_most_relevant_name] returns no candidate: on every list of
    names it raises, so it does not return the candidate of greatest length
    that the claim describes. *)
Theorem select_most_relevant_name_never_returns (names : list string) :
  is_ok (select_most_relevant_name names) = false.
Proof.
  destruct (select_most_relevant_name_raises names) as (e & -> & _). reflexivity.
Qed.

(** C4. Empty names are passed over in silence and the first name that is
    not empty is the one refused, as [names[0]]: the position is not
    advanced on the way. *)
Theorem select_most_relevant_name_refuses_nonempty
  (skipped : nat) (c : ascii) (name : string) (rest : list string) :
  select_most_relevant_name (repeat EmptyString skipped ++ String c name :: rest)
  = raise (TypeError "parameter 'names[0]' is undefined").
Proof.
  assert (L : ∀ st, pos st = 0 →
    select_loop (repeat EmptyString skipped ++ String c name :: rest) st
    = raise (TypeError "parameter 'names[0]' is undefined")).
  { induction skipped as [|k IH]; intros st Hp; simpl.
    - rewrite Hp. reflexivity.
    - apply IH, Hp. }
  unfold select_most_relevant_name.
  rewrite L by reflexivity.
  destruct (repeat EmptyString skipped ++ String c name :: rest) eqn:E; [|reflexivity].
  destruct skipped; discriminate.
Qed.

Section SetNameFacts.

Variable opts : options.
Variable token_sort_ratio : string → string → nat.
Variable str_of_name : Name → string.
Variable str_of_list : list string → string.

Let set_name' := set_name opts token_sort_ratio str_of_name str_of_list.
Let collect_names' := collect_names token_sort_ratio str_of_name str_of_list.

Lemma collect_fn_no_KeyError l names e :
  collect_fn token_sort_ratio l names = inl e → ∀ k, e ≠ KeyError k.
Proof.
  revert names. induction l as [|a l IH]; intros names H; simpl in H; [discriminate|].
  destruct (cl_value a); simpl in H; try (inversion H; subst; discriminate).
  eapply IH, H.
Qed.

Lemma collect_email_no_KeyError l names e :
  collect_email token_sort_ratio l names = inl e → ∀ k, e ≠ KeyError k.
Proof.
  revert names. induction l as [|a l IH]; intros names H; simpl in H; [discriminate|].
  destruct (cl_value a); simpl in H; try (inversion H; subst; discriminate).
  destruct (Re.name_email _) as [[? ?]|]; eapply IH, H.
Qed.

Lemma iter_entry_no_KeyError en e :
  iter_entry en = inl e → ∀ k, e ≠ KeyError k.
Proof.
  destruct en as [l|s|n]; simpl; [discriminate| |].
  - destruct (Py.is_empty s); [discriminate|]. intros H; inversion H; discriminate.
  - intros H; inversion H; discriminate.
Qed.

Lemma collect_names_no_KeyError attributes e :
  collect_names' attributes = inl e → ∀ k, e ≠ KeyError k.
Proof.
  unfold collect_names', collect_names.
  destruct (attributes !! "fn") as [efn|]; simpl.
  - destruct (iter_entry efn) as [e1|l1] eqn:E1; simpl.
    { intros H; inversion H; subst. eapply iter_entry_no_KeyError, E1. }
    destruct (collect_fn _ l1 []) as [e2|names1] eqn:E2; simpl.
    { intros H; inversion H; subst. eapply collect_fn_no_KeyError, E2. }
    destruct (attributes !! "n") as [en|]; simpl.
    + destruct (iter_entry en) as [e3|l3] eqn:E3; simpl.
      { intros H; inversion H; subst. eapply iter_entry_no_KeyError, E3. }
      destruct (attributes !! "email") as [em|]; simpl; [|discriminate].
      destruct (iter_entry em) as [e4|l4] eqn:E4; simpl.
      { intros H; inversion H; subst. eapply iter_entry_no_KeyError, E4. }
      apply collect_email_no_KeyError.
    + destruct (attributes !! "email") as [em|]; simpl; [|discriminate].
      destruct (iter_entry em) as [e4|l4] eqn:E4; simpl.
      { intros H; inversion H; subst. eapply iter_entry_no_KeyError, E4. }
      apply collect_email_no_KeyError.
  - destruct (attributes !! "n") as [en|]; simpl.
    + destruct (iter_entry en) as [e3|l3] eqn:E3; simpl.
      { intros H; inversion H; subst. eapply iter_entry_no_KeyError, E3. }
      destruct (attributes !! "email") as [em|]; simpl; [|discriminate].
      destruct (iter_entry em) as [e4|l4] eqn:E4; simpl.
      { intros H; inversion H; subst. eapply iter_entry_no_KeyError, E4. }
      apply collect_email_no_KeyError.
    + destruct (attributes !! "email") as [em|]; simpl; [|discriminate].
      destruct (iter_entry em) as [e4|l4] eqn:E4; simpl.
      { intros H; inversion H; subst. eapply iter_entry_no_KeyError, E4. }
      apply collect_email_no_KeyError.
Qed.

(** C10. [set_name] never reaches the deletion of ['fn'] and ['n']: the
    selection of the name raises first, whatever the keys of the dict.  The
    call raises, the exception is no [KeyError], and the dict is left as it
    was given. *)
Theorem set_name_raises_before_deletion (attributes : gmap string attr_entry) :
  ∃ e, set_name' attributes = (attributes, inl e) ∧ ∀ k, e ≠ KeyError k.
Proof.
  unfold set_name', set_name.
  fold (collect_names' attributes).
  destruct (collect_names' attributes) as [e|names] eqn:E.
  - exists e. split; [reflexivity|]. eapply collect_names_no_KeyError, E.
  - destruct (select_most_relevant_name_raises names) as (e & -> & He).
    exists e. split; [reflexivity|exact He].
Qed.

End SetNameFacts.

(** ** Characters and the string primitives *)

Ltac by_cases_on_ascii c :=
  destruct c as [[] [] [] [] [] [] [] []]; vm_compute; try reflexivity; try congruence; auto.

Definition tcase (b : bool) (c : ascii) : ascii :=
  if b then Py.lower_char c else Py.upper_char c.

Lemma tcase_idem b c : tcase b (tcase b c) = tcase b c.
Proof. destruct b; by_cases_on_ascii c. Qed.

Lemma tcase_alpha b c : Py.is_alpha (tcase b c) = Py.is_alpha c.
Proof. destruct b; by_cases_on_ascii c. Qed.

Lemma tcase_word b c : Py.is_word (tcase b c) = Py.is_word c.
Proof. destruct b; by_cases_on_ascii c. Qed.

Lemma tcase_digit b c : Py.is_digit (tcase b c) = Py.is_digit c.
Proof. destruct b; by_cases_on_ascii c. Qed.

Lemma tcase_space b c : Py.is_space (tcase b c) = Py.is_space c.
Proof. destruct b; by_cases_on_ascii c. Qed.

Lemma tcase_lower b c : Py.lower_char (tcase b c) = Py.lower_char c.
Proof. destruct b; by_cases_on_ascii c. Qed.

Lemma tcase_not_alpha b c : Py.is_alpha c = false → tcase b c = c.
Proof. destruct b; by_cases_on_ascii c. Qed.

Lemma space_not_word c : Py.is_space c = true → Py.is_word c = false.
Proof. by_cases_on_ascii c. Qed.

Lemma word_is_alpha_digit_us c :
  Py.is_word c = Py.is_alpha c || Py.is_digit c || Ascii.eqb c "_".
Proof. reflexivity. Qed.

Lemma title_from_eq b c r :
  Py.title_from b (String c r) = String (tcase b c) (Py.title_from (Py.is_alpha c) r).
Proof. destruct b; reflexivity. Qed.

Lemma title_from_idem b s : Py.title_from b (Py.title_from b s) = Py.title_from b s.
Proof.
  revert b. induction s as [|c r IH]; intros b; [reflexivity|].
  rewrite !title_from_eq, tcase_idem, tcase_alpha, IH. reflexivity.
Qed.

Lemma title_idem s : Py.title (Py.title s) = Py.title s.
Proof. apply title_from_idem. Qed.

(** Dropping the characters still to be passed over. *)
Lemma replace_from_drop old new k s :
  Py.replace_from old new k s = Py.replace_from old new 0 (Py.drop k s).
Proof.
  revert k. induction s as [|c r IH]; intros [|k]; try reflexivity.
  simpl Py.drop. rewrite <- IH. reflexivity.
Qed.

Lemma drop_length_le k s : String.length (Py.drop k s) ≤ String.length s.
Proof.
  revert k. induction s as [|c r IH]; intros [|k]; simpl; try lia.
  specialize (IH k). lia.
Qed.

(** The two equations of [s.replace('  ', ' ')]. *)
Lemma rep2_hit r :
  Py.replace (String " " (String " " r)) "  " " " = String " " (Py.replace r "  " " ").
Proof.
  unfold Py.replace.
  change (Py.replace_from "  " " " 0 (String " " (String " " r)))
    with (" " +:+ Py.replace_from "  " " " 1 (String " " r)).
  rewrite replace_from_drop. reflexivity.
Qed.

Lemma rep2_miss c r :
  Py.prefix "  " (String c r) = false →
  Py.replace (String c r) "  " " " = String c (Py.replace r "  " " ").
Proof. unfold Py.replace. intros H. cbn [Py.replace_from]. rewrite H. reflexivity. Qed.

Lemma prefix2_spec c r :
  Py.prefix "  " (String c r) = true ↔ c = " "%char ∧ ∃ r', r = String " " r'.
Proof.
  cbn [Py.prefix]. destruct r as [|d r'].
  - rewrite andb_false_r. split; [discriminate|]. intros [_ [r' H]]. discriminate.
  - rewrite andb_true_r, andb_true_iff, !Ascii.eqb_eq. split.
    + intros [<- <-]. eauto.
    + intros [-> [r'' H]]. inversion H. auto.
Qed.

(** An induction that follows [s.replace('  ', ' ')]. *)
Lemma rep2_ind (P : string → Prop) :
  P EmptyString →
  (∀ r, P r → P (String " " (String " " r))) →
  (∀ c r, Py.prefix "  " (String c r) = false → P r → P (String c r)) →
  ∀ s, P s.
Proof.
  intros H0 H2 H1 s.
  assert (H : ∀ n s, String.length s < n → P s).
  { clear s. induction n as [|n IH]; intros s Hn; [lia|].
    destruct s as [|c r]; [exact H0|].
    destruct (Py.prefix "  " (String c r)) eqn:E.
    - apply prefix2_spec in E as [-> [r' ->]]. apply H2, IH. simpl in Hn. lia.
    - apply H1; [exact E|]. apply IH. simpl in Hn. lia. }
  apply (H (S (String.length s))). lia.
Qed.

(** The texts without two spaces in a row are left as they are. *)
Lemma rep2_id s : Py.contains "  " s = false → Py.replace s "  " " " = s.
Proof.
  induction s as [|c r IH]; [reflexivity|].
  simpl Py.contains. intros H. apply orb_false_iff in H as [H1 H2].
  rewrite rep2_miss by exact H1. rewrite IH; [reflexivity|].
  destruct r; [reflexivity|exact H2].
Qed.

(** *** [strip] *)

Definition lstripped (s : string) : Prop :=
  match s with
  | EmptyString => True
  | String c _ => Py.is_space c = false
  end.

Lemma lstrip_lstripped s : lstripped (Py.lstrip s).
Proof.
  induction s as [|c r IH]; simpl; [exact I|].
  destruct (Py.is_space c) eqn:E; [exact IH|exact E].
Qed.

Lemma lstrip_id s : lstripped s → Py.lstrip s = s.
Proof. destruct s as [|c r]; simpl; [reflexivity|]. intros ->. reflexivity. Qed.

Lemma rstrip_cons c r :
  Py.rstrip (String c r) =
  match Py.rstrip r with
  | EmptyString => if Py.is_space c then EmptyString else String c EmptyString
  | r' => String c r'
  end.
Proof. reflexivity. Qed.

Lemma rstrip_head r d r' : Py.rstrip r = String d r' → ∃ r0, r = String d r0.
Proof.
  destruct r as [|c r0]; [discriminate|]. rewrite rstrip_cons.
  destruct (Py.rstrip r0); [destruct (Py.is_space c)|]; intros H; inversion H; eauto.
Qed.

Lemma rstrip_idem s : Py.rstrip (Py.rstrip s) = Py.rstrip s.
Proof.
  induction s as [|c r IH]; [reflexivity|]. rewrite rstrip_cons.
  destruct (Py.rstrip r) as [|d r'] eqn:E.
  - destruct (Py.is_space c) eqn:Ec; [reflexivity|].
    rewrite rstrip_cons. simpl Py.rstrip. rewrite Ec. reflexivity.
  - rewrite rstrip_cons, IH. reflexivity.
Qed.

Lemma rstrip_lstripped s : lstripped s → lstripped (Py.rstrip s).
Proof.
  destruct s as [|c r]; [trivial|]. intros Hc. change (Py.is_space c = false) in Hc.
  rewrite rstrip_cons. destruct (Py.rstrip r); [rewrite Hc|]; exact Hc.
Qed.

Lemma strip_lstripped s : lstripped (Py.strip s).
Proof. apply rstrip_lstripped, lstrip_lstripped. Qed.

Lemma strip_rstripped s : Py.rstrip (Py.strip s) = Py.strip s.
Proof. apply rstrip_idem. Qed.

Lemma strip_id s : lstripped s → Py.rstrip s = s → Py.strip s = s.
Proof. intros Hl Hr. unfold Py.strip. rewrite (lstrip_id _ Hl). exact Hr. Qed.

Lemma strip_idem s : Py.strip (Py.strip s) = Py.strip s.
Proof. apply strip_id; [apply strip_lstripped|apply strip_rstripped]. Qed.

Lemma title_from_lstripped b s : lstripped s → lstripped (Py.title_from b s).
Proof.
  destruct s as [|c r]; [trivial|]. rewrite title_from_eq. simpl.
  rewrite tcase_space. trivial.
Qed.

Lemma title_from_empty b s : Py.title_from b s = EmptyString → s = EmptyString.
Proof. destruct s; [reflexivity|]. rewrite title_from_eq. discriminate. Qed.

Lemma title_from_rstripped b s :
  Py.rstrip s = s → Py.rstrip (Py.title_from b s) = Py.title_from b s.
Proof.
  revert b. induction s as [|c r IH]; intros b; [reflexivity|].
  rewrite title_from_eq, !rstrip_cons.
  destruct (Py.rstrip r) as [|d r'] eqn:E.
  - destruct (Py.is_space c) eqn:Ec; [discriminate|].
    intros H. inversion H; subst. simpl. rewrite tcase_space, Ec. reflexivity.
  - intros H. inversion H as [H']. subst r.
    rewrite (IH _ eq_refl), title_from_eq. reflexivity.
Qed.

Lemma strip_title_strip s :
  Py.strip (Py.title (Py.strip s)) = Py.title (Py.strip s).
Proof.
  apply strip_id.
  - apply title_from_lstripped, strip_lstripped.
  - apply title_from_rstripped, strip_rstripped.
Qed.

(** *** Texts without two spaces in a row *)

Lemma contains_tail p c r : Py.contains p (String c r) = false → Py.contains p r = false.
Proof.
  simpl. intros H. apply orb_false_iff in H as [_ H].
  destruct r; [|exact H]. simpl in *. destruct p; [discriminate|reflexivity].
Qed.

Lemma contains_cons p c r :
  Py.contains p (String c r) = Py.prefix p (String c r) || Py.contains p r.
Proof.
  simpl. destruct r; [|reflexivity]. simpl.
  destruct p as [|a p]; [reflexivity|]. destruct (Ascii.eqb a c); simpl; [|reflexivity].
  destruct p; reflexivity.
Qed.

Lemma no_double_space_lstrip s :
  Py.contains "  " s = false → Py.contains "  " (Py.lstrip s) = false.
Proof.
  induction s as [|c r IH]; [trivial|]. intros H. simpl Py.lstrip.
  destruct (Py.is_space c); [|exact H]. apply IH. eapply contains_tail, H.
Qed.

Lemma no_double_space_rstrip s :
  Py.contains "  " s = false → Py.contains "  " (Py.rstrip s) = false.
Proof.
  induction s as [|c r IH]; [trivial|]. rewrite contains_cons. intros H.
  apply orb_false_iff in H as [H1 H2]. specialize (IH H2). rewrite rstrip_cons.
  destruct (Py.rstrip r) as [|d r'] eqn:E.
  - destruct (Py.is_space c); [reflexivity|].
    rewrite contains_cons. cbn [Py.prefix]. rewrite andb_false_r. reflexivity.
  - rewrite contains_cons, IH, orb_false_r.
    destruct (Py.prefix "  " (String c (String d r'))) eqn:Ep; [|reflexivity].
    apply prefix2_spec in Ep as [-> [r'' Hr]]. inversion Hr; subst.
    apply rstrip_head in E as [r0 ->]. exact H1.
Qed.

Lemma tcase_space_eqb b c : Ascii.eqb " " (tcase b c) = Ascii.eqb " " c.
Proof. destruct b; by_cases_on_ascii c. Qed.

Lemma prefix2_title b s : Py.prefix "  " (Py.title_from b s) = Py.prefix "  " s.
Proof.
  destruct s as [|c r]; [reflexivity|]. rewrite title_from_eq.
  cbn [Py.prefix]. rewrite tcase_space_eqb.
  destruct r as [|d r]; [reflexivity|]. rewrite title_from_eq, tcase_space_eqb. reflexivity.
Qed.

Lemma no_double_space_title b s :
  Py.contains "  " (Py.title_from b s) = Py.contains "  " s.
Proof.
  revert b. induction s as [|c r IH]; intros b; [reflexivity|].
  rewrite contains_cons, <- (prefix2_title b), title_from_eq, contains_cons, IH.
  reflexivity.
Qed.

(** *** Characters that the steps keep out *)

Lemma all_chars_rep2 P s :
  all_chars P s = true → all_chars P (Py.replace s "  " " ") = true.
Proof.
  induction s as [|r IH|c r Hp IH] using rep2_ind; [trivial| |].
  - rewrite rep2_hit. simpl. intros H.
    apply andb_true_iff in H as [H1 H]. apply andb_true_iff in H as [_ H].
    rewrite H1. apply IH, H.
  - rewrite rep2_miss by exact Hp. simpl. intros H.
    apply andb_true_iff in H as [H1 H]. rewrite H1. apply IH, H.
Qed.

Lemma all_chars_lstrip P s : all_chars P s = true → all_chars P (Py.lstrip s) = true.
Proof.
  induction s as [|c r IH]; [trivial|]. simpl Py.lstrip.
  destruct (Py.is_space c); [|trivial]. simpl. intros H.
  apply andb_true_iff in H as [_ H]. apply IH, H.
Qed.

Lemma all_chars_rstrip P s : all_chars P s = true → all_chars P (Py.rstrip s) = true.
Proof.
  induction s as [|c r IH]; [trivial|]. intros H. cbn [all_chars] in H.
  apply andb_true_iff in H as [H1 H]. specialize (IH H). rewrite rstrip_cons.
  destruct (Py.rstrip r); [destruct (Py.is_space c)|];
    cbn [all_chars] in *; rewrite ?H1, ?IH; reflexivity.
Qed.

Lemma all_chars_title P b s :
  (∀ b c, P (tcase b c) = P c) →
  all_chars P (Py.title_from b s) = all_chars P s.
Proof.
  intros HP. revert b. induction s as [|c r IH]; intros b; [reflexivity|].
  rewrite title_from_eq. simpl. rewrite HP, IH. reflexivity.
Qed.

Definition not_dot (c : ascii) : bool := negb (Ascii.eqb c ".").

Lemma dots_no_dot s : all_chars not_dot (Py.replace s "." " ") = true.
Proof.
  unfold Py.replace. induction s as [|c r IH]; [reflexivity|].
  cbn [Py.replace_from Py.prefix]. rewrite andb_true_r.
  destruct (Ascii.eqb_spec "." c) as [<-|Hc]; simpl.
  - exact IH.
  - rewrite IH, andb_true_r. unfold not_dot.
    destruct (Ascii.eqb_spec c "."); [congruence|reflexivity].
Qed.

Lemma dots_id s : all_chars not_dot s = true → Py.replace s "." " " = s.
Proof.
  unfold Py.replace. induction s as [|c r IH]; [reflexivity|].
  simpl all_chars. intros H. apply andb_true_iff in H as [H1 H].
  cbn [Py.replace_from Py.prefix]. rewrite andb_true_r.
  unfold not_dot in H1. rewrite Ascii.eqb_sym in H1.
  destruct (Ascii.eqb "." c); [discriminate|]. rewrite (IH H). reflexivity.
Qed.

Lemma tcase_not_dot b c : not_dot (tcase b c) = not_dot c.
Proof. destruct b; by_cases_on_ascii c. Qed.

(** *** The ICE tokens *)

Lemma lower_i_word c : Ascii.eqb (Py.lower_char c) "i" = true → Py.is_word c = true.
Proof. by_cases_on_ascii c. Qed.

Lemma ice_at_nonword s : starts_nonword s → Re.ice_at s = None.
Proof.
  destruct s as [|i [|c [|e r]]]; try reflexivity. simpl starts_nonword. intros Hi.
  unfold Re.ice_at. destruct (Ascii.eqb (Py.lower_char i) "i") eqn:E; [|reflexivity].
  apply lower_i_word in E. congruence.
Qed.

Lemma append_cons c x y : String c x +:+ y = String c (x +:+ y).
Proof. reflexivity. Qed.

Lemma append_nil_l y : EmptyString +:+ y = y.
Proof. reflexivity. Qed.

Lemma take_drop n s : take n s +:+ Py.drop n s = s.
Proof.
  revert n. induction s as [|c r IH]; intros [|n]; try reflexivity.
  cbn [take Py.drop]. rewrite append_cons, IH. reflexivity.
Qed.

Lemma take_length n s : n ≤ String.length s → String.length (take n s) = n.
Proof.
  revert n. induction s as [|c r IH]; intros [|n]; simpl; try lia.
  intros H. rewrite IH; lia.
Qed.

Lemma count_digits_le r : Re.count_digits r ≤ String.length r.
Proof.
  induction r as [|c r IH]; simpl; [lia|]. destruct (Py.is_digit c); simpl; lia.
Qed.

Lemma digit_is_word c : Py.is_digit c = true → Py.is_word c = true.
Proof. by_cases_on_ascii c. Qed.

Lemma count_digits_take r : all_chars Py.is_word (take (Re.count_digits r) r) = true.
Proof.
  induction r as [|c r IH]; [reflexivity|]. simpl Re.count_digits.
  destruct (Py.is_digit c) eqn:E; [|reflexivity].
  simpl. rewrite (digit_is_word _ E), IH. reflexivity.
Qed.

(** What a match of REGEX_ICE at the head of [s] is made of. *)
Lemma ice_at_some s m :
  Re.ice_at s = Some m →
  3 ≤ m ≤ String.length s ∧ all_chars Py.is_word (take m s) = true
  ∧ starts_nonword (Py.drop m s).
Proof.
  destruct s as [|i [|c [|e r]]]; try discriminate. unfold Re.ice_at.
  destruct (Ascii.eqb (Py.lower_char i) "i") eqn:Ei; [|discriminate].
  destruct (Ascii.eqb (Py.lower_char c) "c") eqn:Ec; [|discriminate].
  destruct (Ascii.eqb (Py.lower_char e) "e") eqn:Ee; [|discriminate].
  cbn [andb]. intros H.
  assert (Hm : m = 3 + Re.count_digits r ∧ starts_nonword (Py.drop (Re.count_digits r) r)).
  { destruct (Py.drop (Re.count_digits r) r) as [|x r'] eqn:Ed.
    - inversion H. split; [reflexivity|exact I].
    - destruct (Py.is_word x) eqn:Ex; [discriminate|]. inversion H. split; [reflexivity|exact Ex]. }
  destruct Hm as [-> Hs]. pose proof (count_digits_le r). split; [simpl; lia|].
  split; [|exact Hs].
  simpl. rewrite count_digits_take, andb_true_r.
  assert (Wi : Py.is_word i = true) by (apply lower_i_word, Ei).
  assert (Wc : Py.is_word c = true) by (revert Ec; clear; by_cases_on_ascii c).
  assert (We : Py.is_word e = true) by (revert Ee; clear; by_cases_on_ascii e).
  rewrite Wi, Wc, We. reflexivity.
Qed.

Lemma ice_sub_from_flag p p' s :
  starts_nonword s → Re.ice_sub_from 0 p s = Re.ice_sub_from 0 p' s.
Proof.
  destruct s as [|c r]; [reflexivity|]. intros H.
  cbn [Re.ice_sub_from]. rewrite (ice_at_nonword _ H). destruct p, p'; reflexivity.
Qed.

Lemma ice_free_from_flag p p' s :
  starts_nonword s → ice_free_from p s = ice_free_from p' s.
Proof.
  destruct s as [|c r]; [reflexivity|]. intros H.
  cbn [ice_free_from]. rewrite (ice_at_nonword _ H). destruct p, p'; reflexivity.
Qed.

Lemma ice_sub_from_skip k p s :
  starts_nonword (Py.drop k s) →
  Re.ice_sub_from k p s = Re.ice_sub_from 0 false (Py.drop k s).
Proof.
  revert k p. induction s as [|c r IH]; intros [|k] p H; try reflexivity.
  - apply ice_sub_from_flag, H.
  - cbn [Re.ice_sub_from Py.drop]. apply IH, H.
Qed.

(** The equation of [REGEX_ICE.sub('', s)] at the head of the text. *)
Lemma ice_sub_from_cons p c r :
  Re.ice_sub_from 0 p (String c r) =
  match (if p then None else Re.ice_at (String c r)) with
  | Some m => Re.ice_sub_from 0 false (Py.drop m (String c r))
  | None => String c (Re.ice_sub_from 0 (Py.is_word c) r)
  end.
Proof.
  cbn [Re.ice_sub_from].
  destruct (if p then None else Re.ice_at (String c r)) as [m|] eqn:E; [|reflexivity].
  destruct p; [discriminate|]. apply ice_at_some in E as (Hm & _ & Hs).
  destruct m as [|m]; [lia|]. simpl Py.drop in *.
  replace (S m - 1) with m by lia. apply ice_sub_from_skip, Hs.
Qed.

Lemma ice_sub_id p s : ice_free_from p s = true → Re.ice_sub_from 0 p s = s.
Proof.
  revert p. induction s as [|c r IH]; intros p H; [reflexivity|].
  cbn [ice_free_from] in H. apply andb_true_iff in H as [H1 H2].
  rewrite ice_sub_from_cons.
  destruct p; [rewrite (IH _ H2); reflexivity|].
  destruct (Re.ice_at (String c r)); [discriminate|]. rewrite (IH _ H2). reflexivity.
Qed.

Lemma word_prefix_ice_sub r :
  word_prefix (Re.ice_sub_from 0 true r) = word_prefix r.
Proof.
  induction r as [|c r IH]; [reflexivity|]. rewrite ice_sub_from_cons.
  cbn [word_prefix]. destruct (Py.is_word c) eqn:E; [|reflexivity].
  rewrite IH. reflexivity.
Qed.

Lemma count_digits_word_prefix r : Re.count_digits (word_prefix r) = Re.count_digits r.
Proof.
  induction r as [|c r IH]; [reflexivity|]. simpl.
  destruct (Py.is_word c) eqn:E.
  - simpl. rewrite IH. reflexivity.
  - destruct (Py.is_digit c) eqn:Ed; [|reflexivity].
    apply digit_is_word in Ed. congruence.
Qed.

Lemma drop_digits_word_prefix r :
  Py.drop (Re.count_digits r) (word_prefix r) = word_prefix (Py.drop (Re.count_digits r) r).
Proof.
  induction r as [|c r IH]; [reflexivity|]. simpl Re.count_digits.
  destruct (Py.is_digit c) eqn:Ed; [|reflexivity].
  simpl. rewrite (digit_is_word _ Ed). simpl. exact IH.
Qed.

(** A match depends on the word the text starts with, and on nothing
    after it. *)
Lemma ice_at_word_prefix s : Re.ice_at s = Re.ice_at (word_prefix s).
Proof.
  destruct (Re.ice_at s) as [m|] eqn:E.
  - destruct s as [|i [|c [|e r]]]; try discriminate.
    pose proof (ice_at_some _ _ E) as (_ & Hw & _).
    revert E. unfold Re.ice_at.
    destruct (Ascii.eqb (Py.lower_char i) "i") eqn:Ei; [|discriminate].
    destruct (Ascii.eqb (Py.lower_char c) "c") eqn:Ec; [|discriminate].
    destruct (Ascii.eqb (Py.lower_char e) "e") eqn:Ee; [|discriminate].
    cbn [andb]. intros H.
    assert (Wi : Py.is_word i = true) by (apply lower_i_word, Ei).
    assert (Wc : Py.is_word c = true) by (revert Ec; clear; by_cases_on_ascii c).
    assert (We : Py.is_word e = true) by (revert Ee; clear; by_cases_on_ascii e).
    cbn [word_prefix]. rewrite Wi, Wc, We, Ei, Ec, Ee. cbn [andb].
    rewrite count_digits_word_prefix, drop_digits_word_prefix.
    destruct (Py.drop (Re.count_digits r) r) as [|x r'] eqn:Ed; [exact (eq_sym H)|].
    cbn [word_prefix]. destruct (Py.is_word x) eqn:Ex; [discriminate|]. exact (eq_sym H).
  - destruct s as [|i [|c [|e r]]]; try reflexivity.
    + simpl. destruct (Py.is_word i); reflexivity.
    + simpl. destruct (Py.is_word i); [|reflexivity]. destruct (Py.is_word c); reflexivity.
    + revert E. unfold Re.ice_at at 1. cbn [word_prefix].
      destruct (Py.is_word i) eqn:Wi; [|reflexivity].
      destruct (Py.is_word c) eqn:Wc; [|reflexivity].
      destruct (Py.is_word e) eqn:We; [|destruct (_ && _); reflexivity].
      unfold Re.ice_at.
      destruct (_ && _); [|reflexivity].
      rewrite count_digits_word_prefix, drop_digits_word_prefix.
      destruct (Py.drop (Re.count_digits r) r) as [|x r'] eqn:Ed; [discriminate|].
      cbn [word_prefix]. destruct (Py.is_word x) eqn:Ex; [|discriminate].
      rewrite Ex. reflexivity.
Qed.

Lemma ice_at_cons_ext c r r' :
  word_prefix r = word_prefix r' → Re.ice_at (String c r) = Re.ice_at (String c r').
Proof.
  intros H. rewrite (ice_at_word_prefix (String c r)), (ice_at_word_prefix (String c r')).
  cbn [word_prefix]. rewrite H. reflexivity.
Qed.

Lemma ice_free_from_cons_ext p c r r' :
  word_prefix r = word_prefix r' →
  ice_free_from p (String c r) =
  (if p then true else match Re.ice_at (String c r') with Some _ => false | None => true end)
  && ice_free_from (Py.is_word c) r.
Proof. intros H. cbn [ice_free_from]. rewrite (ice_at_cons_ext c r r' H). reflexivity. Qed.

(** After [REGEX_ICE.sub] no token is left. *)
Lemma ice_sub_free s p : ice_free_from p (Re.ice_sub_from 0 p s) = true.
Proof.
  assert (H : ∀ n s p, String.length s < n → ice_free_from p (Re.ice_sub_from 0 p s) = true).
  { clear. induction n as [|n IH]; intros s p Hn; [lia|].
    destruct s as [|c r]; [reflexivity|]. rewrite ice_sub_from_cons.
    destruct (if p then None else Re.ice_at (String c r)) as [m|] eqn:E.
    - destruct p; [discriminate|]. apply ice_at_some in E as (Hm & _ & _).
      apply IH. destruct m as [|m]; [lia|]. simpl Py.drop.
      pose proof (drop_length_le m r). simpl in Hn. lia.
    - assert (Hr : ice_free_from (Py.is_word c) (Re.ice_sub_from 0 (Py.is_word c) r) = true)
        by (apply IH; simpl in Hn; lia).
      destruct (Py.is_word c) eqn:Wc.
      + rewrite (ice_free_from_cons_ext p c _ r (word_prefix_ice_sub r)).
        rewrite Wc, Hr, andb_true_r. destruct p; [reflexivity|]. rewrite E. reflexivity.
      + cbn [ice_free_from]. rewrite Wc, Hr, andb_true_r.
        rewrite (ice_at_nonword (String c _)) by exact Wc. destruct p; reflexivity. }
  apply (H (S (String.length s))). lia.
Qed.

Lemma word_key_i c x :
  Py.is_word x = true →
  Ascii.eqb (Py.lower_char (word_key c)) x = Ascii.eqb (Py.lower_char c) x.
Proof.
  unfold word_key. destruct (Py.is_word c) eqn:E.
  - intros _. f_equal. revert E. clear. by_cases_on_ascii c.
  - intros Hx. transitivity false.
    + destruct (Ascii.eqb_spec (Py.lower_char " ") x) as [<-|]; [discriminate|reflexivity].
    + symmetry. destruct (Ascii.eqb_spec (Py.lower_char c) x) as [<-|]; [|reflexivity].
      revert E Hx. clear. by_cases_on_ascii c.
Qed.

Lemma word_key_digit c : Py.is_digit (word_key c) = Py.is_digit c.
Proof. by_cases_on_ascii c. Qed.

Lemma word_key_word c : Py.is_word (word_key c) = Py.is_word c.
Proof. by_cases_on_ascii c. Qed.

Lemma count_digits_keys r :
  Re.count_digits (Py.map_chars word_key r) = Re.count_digits r.
Proof.
  induction r as [|c r IH]; [reflexivity|]. simpl.
  rewrite word_key_digit, IH. reflexivity.
Qed.

Lemma drop_map_chars f n s : Py.drop n (Py.map_chars f s) = Py.map_chars f (Py.drop n s).
Proof.
  revert n. induction s as [|c r IH]; intros [|n]; try reflexivity. simpl. apply IH.
Qed.

Lemma ice_at_keys s : Re.ice_at (Py.map_chars word_key s) = Re.ice_at s.
Proof.
  destruct s as [|i [|c [|e r]]]; try reflexivity.
  cbn [Py.map_chars]. unfold Re.ice_at.
  rewrite !word_key_i by reflexivity.
  rewrite count_digits_keys, drop_map_chars.
  destruct (Py.drop (Re.count_digits r) r) as [|x r']; [reflexivity|].
  cbn [Py.map_chars]. rewrite word_key_word. reflexivity.
Qed.

Lemma ice_free_from_keys p s :
  ice_free_from p (Py.map_chars word_key s) = ice_free_from p s.
Proof.
  revert p. induction s as [|c r IH]; intros p; [reflexivity|].
  change (Py.map_chars word_key (String c r))
    with (String (word_key c) (Py.map_chars word_key r)).
  cbn [ice_free_from].
  change (String (word_key c) (Py.map_chars word_key r))
    with (Py.map_chars word_key (String c r)).
  rewrite ice_at_keys, word_key_word, IH. reflexivity.
Qed.

(** Two texts that REGEX_ICE reads alike have the same tokens. *)
Lemma ice_free_from_same_keys p s s' :
  Py.map_chars word_key s = Py.map_chars word_key s' →
  ice_free_from p s = ice_free_from p s'.
Proof.
  intros H. rewrite <- (ice_free_from_keys p s), <- (ice_free_from_keys p s'), H.
  reflexivity.
Qed.

Lemma replace_char a b s :
  Py.replace s (String a EmptyString) (String b EmptyString)
  = Py.map_chars (fun c => if Ascii.eqb a c then b else c) s.
Proof.
  unfold Py.replace. induction s as [|c r IH]; [reflexivity|].
  cbn [Py.replace_from Py.prefix Py.map_chars]. rewrite andb_true_r.
  destruct (Ascii.eqb a c); simpl; rewrite IH; reflexivity.
Qed.

Lemma keys_dots s :
  Py.map_chars word_key (Py.replace s "." " ") = Py.map_chars word_key s.
Proof.
  rewrite replace_char. induction s as [|c r IH]; [reflexivity|].
  cbn [Py.map_chars]. rewrite IH. f_equal.
  destruct (Ascii.eqb_spec "." c) as [<-|]; reflexivity.
Qed.

Lemma word_key_tcase b c : word_key (tcase b c) = word_key c.
Proof. destruct b; by_cases_on_ascii c. Qed.

Lemma keys_title b s :
  Py.map_chars word_key (Py.title_from b s) = Py.map_chars word_key s.
Proof.
  revert b. induction s as [|c r IH]; intros b; [reflexivity|].
  rewrite title_from_eq. cbn [Py.map_chars]. rewrite word_key_tcase, IH. reflexivity.
Qed.

Lemma word_prefix_rep2 s : word_prefix (Py.replace s "  " " ") = word_prefix s.
Proof.
  induction s as [|r IH|c r Hp IH] using rep2_ind; [reflexivity| |].
  - rewrite rep2_hit. reflexivity.
  - rewrite rep2_miss by exact Hp. cbn [word_prefix]. rewrite IH. reflexivity.
Qed.

Lemma ice_free_from_nonword_cons p c r :
  Py.is_word c = false → ice_free_from p (String c r) = ice_free_from false r.
Proof.
  intros Wc. cbn [ice_free_from]. rewrite (ice_at_nonword (String c r)) by exact Wc.
  rewrite Wc. destruct p; reflexivity.
Qed.

Lemma ice_free_from_rep2 s :
  ∀ p, ice_free_from p (Py.replace s "  " " ") = ice_free_from p s.
Proof.
  induction s as [|r IH|c r Hp IH] using rep2_ind; intros p; [reflexivity| |].
  - rewrite rep2_hit, !ice_free_from_nonword_cons by reflexivity. apply IH.
  - rewrite rep2_miss by exact Hp.
    rewrite (ice_free_from_cons_ext p c _ r (word_prefix_rep2 r)).
    cbn [ice_free_from]. rewrite IH. reflexivity.
Qed.

Lemma ice_free_from_lstrip s :
  ice_free_from false s = true → ice_free_from false (Py.lstrip s) = true.
Proof.
  induction s as [|c r IH]; [trivial|]. intros H. simpl Py.lstrip.
  destruct (Py.is_space c) eqn:E; [|exact H]. apply IH.
  cbn [ice_free_from] in H. apply andb_true_iff in H as [_ H].
  rewrite (space_not_word _ E) in H. exact H.
Qed.

Lemma word_prefix_rstrip s : word_prefix (Py.rstrip s) = word_prefix s.
Proof.
  induction s as [|c r IH]; [reflexivity|]. rewrite rstrip_cons. cbn [word_prefix].
  destruct (Py.rstrip r) as [|d r'] eqn:E.
  - destruct (Py.is_space c) eqn:Ec.
    + rewrite (space_not_word _ Ec). reflexivity.
    + cbn [word_prefix]. rewrite <- IH. reflexivity.
  - cbn [word_prefix] in *. rewrite IH. reflexivity.
Qed.

Lemma ice_free_from_rstrip s :
  ∀ p, ice_free_from p s = true → ice_free_from p (Py.rstrip s) = true.
Proof.
  induction s as [|c r IH]; intros p H; [trivial|].
  cbn [ice_free_from] in H. apply andb_true_iff in H as [H1 H2]. specialize (IH _ H2).
  rewrite rstrip_cons. destruct (Py.rstrip r) as [|d r'] eqn:E.
  - destruct (Py.is_space c) eqn:Ec; [reflexivity|].
    rewrite (ice_free_from_cons_ext p c _ r) by (rewrite <- (word_prefix_rstrip r), E; reflexivity).
    rewrite H1. reflexivity.
  - rewrite (ice_free_from_cons_ext p c _ r) by (rewrite <- E; apply word_prefix_rstrip).
    rewrite H1, IH. reflexivity.
Qed.

(** The sanitized name holds no ICE token. *)
Lemma ice_free_title_strip_collapsed s :
  ice_free_from false (Py.title (Py.strip (collapsed s))) = true.
Proof.
  unfold Py.title. rewrite (ice_free_from_same_keys _ _ _ (keys_title false _)).
  unfold Py.strip. apply ice_free_from_rstrip, ice_free_from_lstrip.
  unfold collapsed. rewrite !ice_free_from_rep2.
  rewrite (ice_free_from_same_keys _ _ _ (keys_dots _)).
  apply ice_sub_free.
Qed.

(** *** Bracketed segments *)

Lemma take_until_none stop r :
  Re.take_until stop r = None ↔ has_char stop r = false.
Proof.
  induction r as [|c r IH]; [split; reflexivity|]. simpl.
  destruct (Ascii.eqb c stop); simpl; [split; discriminate|].
  destruct (Re.take_until stop r) as [[inner rest]|].
  - split; [discriminate|]. intros H. apply IH in H. discriminate.
  - split; [intros _; apply IH; reflexivity|reflexivity].
Qed.

Lemma bracket_at_cons x r :
  Re.bracket_at (String x r) =
  if Ascii.eqb x " " then Re.bracket_at r
  else if Ascii.eqb x "(" then
    match Re.take_until ")" r with
    | Some (inner, rest) => Some ("(" +:+ inner +:+ ")", Re.skip_spaces rest)
    | None => None
    end
  else if Ascii.eqb x "[" then
    match Re.take_until "]" r with
    | Some (inner, rest) => Some ("[" +:+ inner +:+ "]", Re.skip_spaces rest)
    | None => None
    end
  else None.
Proof. destruct x as [[] [] [] [] [] [] [] []]; reflexivity. Qed.

Lemma bracket_search_cons x r :
  Re.bracket_search (String x r) =
  match Re.bracket_at (String x r) with
  | Some (g, _) => Some g
  | None => Re.bracket_search r
  end.
Proof. reflexivity. Qed.

Lemma bracket_search_at s : Re.bracket_search s = None → Re.bracket_at s = None.
Proof.
  destruct s as [|x r]; [reflexivity|]. rewrite bracket_search_cons.
  destruct (Re.bracket_at (String x r)) as [[g rest]|]; [discriminate|reflexivity].
Qed.

(** The search fails when no opening character has its closing character
    after it. *)
Lemma bracket_search_none s :
  Re.bracket_search s = None ↔
  pair_in "(" ")" s = false ∧ pair_in "[" "]" s = false.
Proof.
  induction s as [|x r IH]; [split; [split|]; reflexivity|].
  rewrite bracket_search_cons. cbn [pair_in]. rewrite !orb_false_iff.
  destruct (Re.bracket_search r) eqn:Es.
  - split.
    + destruct (Re.bracket_at (String x r)) as [[g rest]|]; discriminate.
    + intros [[_ H1] [_ H2]]. destruct IH as [_ IH]. specialize (IH (conj H1 H2)).
      discriminate.
  - destruct IH as [IH _]. specialize (IH eq_refl) as [I1 I2].
    rewrite bracket_at_cons, (bracket_search_at _ Es).
    destruct (Ascii.eqb_spec x " ") as [->|Hs]; [split; [intros _; repeat split; assumption|reflexivity]|].
    destruct (Ascii.eqb_spec x "(") as [->|Ho]; simpl.
    { destruct (Re.take_until ")" r) as [[inner rest]|] eqn:Et.
      - split; [discriminate|]. intros [[H _] _].
        apply take_until_none in H. congruence.
      - apply take_until_none in Et. split; [intros _; repeat split; assumption|reflexivity]. }
    destruct (Ascii.eqb_spec x "[") as [->|Hb]; simpl.
    { destruct (Re.take_until "]" r) as [[inner rest]|] eqn:Et.
      - split; [discriminate|]. intros [_ [H _]].
        apply take_until_none in H. congruence.
      - apply take_until_none in Et. split; [intros _; repeat split; assumption|reflexivity]. }
    split; [intros _; repeat split; assumption|reflexivity].
Qed.

Lemma has_char_brackets c s :
  is_bracket c = true → has_char c (brackets s) = has_char c s.
Proof.
  intros Hc. induction s as [|x r IH]; [reflexivity|]. cbn [brackets has_char].
  destruct (is_bracket x) eqn:Ex; cbn [has_char]; rewrite IH; [reflexivity|].
  destruct (Ascii.eqb_spec x c) as [->|]; [congruence|reflexivity].
Qed.

Lemma pair_in_brackets o c s :
  is_bracket o = true → is_bracket c = true →
  pair_in o c (brackets s) = pair_in o c s.
Proof.
  intros Ho Hc. induction s as [|x r IH]; [reflexivity|]. cbn [brackets pair_in].
  destruct (is_bracket x) eqn:Ex; cbn [pair_in]; rewrite IH, ?has_char_brackets by exact Hc;
    [reflexivity|].
  destruct (Ascii.eqb_spec x o) as [->|]; [congruence|reflexivity].
Qed.

(** The search sees the text through its parentheses and braces. *)
Lemma bracket_search_brackets s s' :
  brackets s' = brackets s →
  Re.bracket_search s = None → Re.bracket_search s' = None.
Proof.
  intros Hb. rewrite !bracket_search_none.
  rewrite <- (pair_in_brackets "(" ")" s), <- (pair_in_brackets "[" "]" s) by reflexivity.
  rewrite <- (pair_in_brackets "(" ")" s'), <- (pair_in_brackets "[" "]" s') by reflexivity.
  rewrite Hb. trivial.
Qed.

Lemma brackets_app a b : brackets (a +:+ b) = brackets a +:+ brackets b.
Proof.
  induction a as [|c a IH]; [reflexivity|]. rewrite append_cons. cbn [brackets].
  destruct (is_bracket c); rewrite IH; reflexivity.
Qed.

Lemma word_not_bracket c : Py.is_word c = true → is_bracket c = false.
Proof. by_cases_on_ascii c. Qed.

Lemma space_not_bracket c : Py.is_space c = true → is_bracket c = false.
Proof. by_cases_on_ascii c. Qed.

Lemma brackets_words w : all_chars Py.is_word w = true → brackets w = EmptyString.
Proof.
  induction w as [|c w IH]; [reflexivity|]. cbn [all_chars brackets]. intros H.
  apply andb_true_iff in H as [H1 H2]. rewrite (word_not_bracket _ H1). apply IH, H2.
Qed.

Lemma brackets_ice_sub s p : brackets (Re.ice_sub_from 0 p s) = brackets s.
Proof.
  assert (H : ∀ n s p, String.length s < n → brackets (Re.ice_sub_from 0 p s) = brackets s).
  { clear. induction n as [|n IH]; intros s p Hn; [lia|].
    destruct s as [|c r]; [reflexivity|]. rewrite ice_sub_from_cons.
    destruct (if p then None else Re.ice_at (String c r)) as [m|] eqn:E.
    - destruct p; [discriminate|]. apply ice_at_some in E as (Hm & Hw & _).
      rewrite IH.
      + rewrite <- (take_drop m (String c r)) at 2.
        rewrite brackets_app, (brackets_words _ Hw). reflexivity.
      + destruct m as [|m]; [lia|]. simpl Py.drop.
        pose proof (drop_length_le m r). simpl in Hn. lia.
    - cbn [brackets]. rewrite IH by (simpl in Hn; lia). reflexivity. }
  apply (H (S (String.length s))). lia.
Qed.

Lemma brackets_dots s : brackets (Py.replace s "." " ") = brackets s.
Proof.
  rewrite replace_char. induction s as [|c r IH]; [reflexivity|].
  cbn [Py.map_chars brackets]. rewrite IH.
  destruct (Ascii.eqb_spec "." c) as [<-|]; reflexivity.
Qed.

Lemma brackets_rep2 s : brackets (Py.replace s "  " " ") = brackets s.
Proof.
  induction s as [|r IH|c r Hp IH] using rep2_ind; [reflexivity| |].
  - rewrite rep2_hit. cbn [brackets]. exact IH.
  - rewrite rep2_miss by exact Hp. cbn [brackets]. rewrite IH. reflexivity.
Qed.

Lemma brackets_lstrip s : brackets (Py.lstrip s) = brackets s.
Proof.
  induction s as [|c r IH]; [reflexivity|]. simpl Py.lstrip.
  destruct (Py.is_space c) eqn:E; [|reflexivity].
  cbn [brackets]. rewrite (space_not_bracket _ E). exact IH.
Qed.

Lemma brackets_rstrip s : brackets (Py.rstrip s) = brackets s.
Proof.
  induction s as [|c r IH]; [reflexivity|]. rewrite rstrip_cons. cbn [brackets].
  rewrite <- IH. destruct (Py.rstrip r) as [|d r'].
  - destruct (Py.is_space c) eqn:E.
    + rewrite (space_not_bracket _ E). reflexivity.
    + reflexivity.
  - reflexivity.
Qed.

Lemma tcase_bracket b c : is_bracket (tcase b c) = is_bracket c.
Proof. destruct b; by_cases_on_ascii c. Qed.

Lemma bracket_not_alpha c : is_bracket c = true → Py.is_alpha c = false.
Proof. by_cases_on_ascii c. Qed.

Lemma brackets_title b s : brackets (Py.title_from b s) = brackets s.
Proof.
  revert b. induction s as [|c r IH]; intros b; [reflexivity|].
  rewrite title_from_eq. cbn [brackets]. rewrite tcase_bracket, IH.
  destruct (is_bracket c) eqn:E; [|reflexivity].
  rewrite (tcase_not_alpha b c (bracket_not_alpha _ E)). reflexivity.
Qed.

Lemma brackets_title_strip_collapsed s :
  brackets (Py.title (Py.strip (collapsed s))) = brackets s.
Proof.
  unfold Py.title, Py.strip, collapsed, Re.ice_sub.
  rewrite brackets_title, brackets_rstrip, brackets_lstrip, !brackets_rep2,
    brackets_dots, brackets_ice_sub.
  reflexivity.
Qed.

(** ** [sanitize_name] *)

Section SanitizeFacts.

Variable token_sort_ratio : string → string → nat.

Lemma sanitize_name_plain s :
  Re.bracket_search s = None →
  sanitize_name token_sort_ratio s = Py.title (Py.strip (collapsed s)).
Proof. unfold sanitize_name, collapsed. intros ->. reflexivity. Qed.

(** C8, amended. On an ASCII name without a bracketed segment that the two
    replacements leave without two spaces in a row, [sanitize_name] is
    idempotent. *)
Theorem sanitize_name_idempotent_plain (s : string) :
  ascii_text s = true →
  Re.bracket_search s = None →
  Py.contains "  " (collapsed s) = false →
  sanitize_name token_sort_ratio (sanitize_name token_sort_ratio s)
  = sanitize_name token_sort_ratio s.
Proof.
  intros _ Hb Hs. rewrite (sanitize_name_plain s Hb).
  set (t := Py.title (Py.strip (collapsed s))).
  assert (Hbt : Re.bracket_search t = None).
  { eapply bracket_search_brackets; [|exact Hb]. apply brackets_title_strip_collapsed. }
  rewrite (sanitize_name_plain t Hbt). unfold collapsed.
  assert (Hice : Re.ice_sub t = t) by apply ice_sub_id, ice_free_title_strip_collapsed.
  assert (Hdot : Py.replace t "." " " = t).
  { apply dots_id. unfold t, Py.title.
    rewrite (all_chars_title _ _ _ tcase_not_dot).
    apply all_chars_rstrip, all_chars_lstrip. unfold collapsed.
    apply all_chars_rep2, all_chars_rep2, dots_no_dot. }
  assert (Hrep : Py.replace t "  " " " = t).
  { apply rep2_id. unfold t, Py.title. rewrite no_double_space_title.
    apply no_double_space_rstrip, no_double_space_lstrip, Hs. }
  rewrite Hice, Hdot, Hrep, Hrep. unfold t.
  rewrite strip_title_strip. apply title_idem.
Qed.

End SanitizeFacts.

(** C8, witness. *)
Lemma sanitize_name_idempotent_plain_witness :
  ascii_text " jean.DUPONT  ice1 " = true
  ∧ Re.bracket_search " jean.DUPONT  ice1 " = None
  ∧ Py.contains "  " (collapsed " jean.DUPONT  ice1 ") = false
  ∧ sanitize_name (fun _ _ => 0) (sanitize_name (fun _ _ => 0) " jean.DUPONT  ice1 ")
    = sanitize_name (fun _ _ => 0) " jean.DUPONT  ice1 ".
Proof.
  split; [reflexivity|]. split; [reflexivity|]. split; [reflexivity|].
  apply (sanitize_name_idempotent_plain (fun _ _ => 0) " jean.DUPONT  ice1 ");
    reflexivity.
Defined.

(** C8, counterexample. Five spaces are left as two by the two
    replacements, and as one by the next call: whatever the scoring
    function, [sanitize_name] is not idempotent. *)
Lemma sanitize_name_not_idempotent :
  ¬ ∃ token_sort_ratio, ∀ s,
      sanitize_name token_sort_ratio (sanitize_name token_sort_ratio s)
      = sanitize_name token_sort_ratio s.
Proof.
  intros [tsr H]. specialize (H "a     b"). vm_compute in H. discriminate H.
Qed.

(** ** Records *)

Lemma named_true k c : named k c = true ↔ cl_name c = k.
Proof. apply String.eqb_eq. Qed.

Lemma attr_list_cons k c v :
  attr_list (c :: v) k = if named k c then c :: attr_list v k else attr_list v k.
Proof.
  unfold attr_list. rewrite filter_cons.
  destruct (named k c); case_decide; congruence.
Qed.

Lemma delattr_cons k c v :
  delattr (c :: v) k = if named k c then delattr v k else c :: delattr v k.
Proof.
  unfold delattr. rewrite filter_cons.
  destruct (named k c); case_decide; congruence.
Qed.

Lemma hasattr_cons k c v : hasattr (c :: v) k = named k c || hasattr v k.
Proof. reflexivity. Qed.

Lemma hasattr_false v k : hasattr v k = false ↔ attr_list v k = [].
Proof.
  induction v as [|c v IH]; [split; reflexivity|].
  rewrite hasattr_cons, attr_list_cons, orb_false_iff.
  destruct (named k c); [split; [intros [? _]|]; discriminate|].
  rewrite IH. tauto.
Qed.

Lemma named_other k k' c : k ≠ k' → named k c = true → named k' c = false.
Proof.
  intros Hk H. apply named_true in H. unfold named. apply String.eqb_neq. congruence.
Qed.

Lemma attr_list_delattr v k k' :
  attr_list (delattr v k) k' = if String.eqb k k' then [] else attr_list v k'.
Proof.
  induction v as [|c v IH].
  { destruct (String.eqb k k'); reflexivity. }
  rewrite delattr_cons, attr_list_cons.
  destruct (String.eqb_spec k k') as [Heq|Hk]; [subst k'|].
  - destruct (named k c) eqn:E; [exact IH|]. rewrite attr_list_cons, E. exact IH.
  - destruct (named k c) eqn:E.
    + rewrite (named_other _ _ _ Hk E). exact IH.
    + rewrite attr_list_cons, IH. reflexivity.
Qed.

(** [del vcard.k] behind [hasattr(vcard, k)] *)
Lemma attr_list_cond_del v k k' :
  attr_list (if hasattr v k then delattr v k else v) k'
  = if String.eqb k k' then [] else attr_list v k'.
Proof.
  destruct (hasattr v k) eqn:E; [apply attr_list_delattr|].
  destruct (String.eqb_spec k k') as [Heq|]; [subst k'|reflexivity].
  apply hasattr_false, E.
Qed.

Lemma attr_list_add v c k :
  attr_list (add v c) k
  = if String.eqb (cl_name c) k then attr_list v k ++ [c] else attr_list v k.
Proof.
  induction v as [|x r IH].
  - simpl add. rewrite attr_list_cons. unfold named.
    destruct (String.eqb (cl_name c) k); reflexivity.
  - cbn [add].
    destruct (named (cl_name c) x && negb (existsb (named (cl_name c)) r)) eqn:E.
    + apply andb_true_iff in E as [Ex Er]. apply negb_true_iff in Er.
      change (existsb (named (cl_name c)) r) with (hasattr r (cl_name c)) in Er.
      apply hasattr_false in Er. rewrite !attr_list_cons. fold (named k c).
      destruct (named k c) eqn:Ec.
      * apply named_true in Ec. subst k. rewrite Ex, Er. reflexivity.
      * reflexivity.
    + rewrite !attr_list_cons, IH.
      destruct (named k x); destruct (String.eqb (cl_name c) k); reflexivity.
Qed.




Lemma normalize_emails_other d v v' k :
  normalize_emails d v = inr v' → k ≠ "email" → attr_list v' k = attr_list v k.
Proof.
  intros H Hk. revert v' H. induction v as [|c r IH]; intros v' H; simpl in H.
  { inversion H. reflexivity. }
  destruct (named "email" c) eqn:E.
  - destruct (normalize_email d (cl_value c)) as [e|x]; [discriminate|]. simpl in H.
    destruct (normalize_emails d r) as [e|r']; [discriminate|]. simpl in H.
    assert (Hc : named k c = false) by (eapply named_other; [|exact E]; congruence).
    rewrite attr_list_cons, Hc.
    destruct x as [x'|]; inversion H; subst.
    + rewrite attr_list_cons. unfold named in *. cbn [set_value cl_name]. rewrite Hc.
      apply IH. reflexivity.
    + apply IH. reflexivity.
  - destruct (normalize_emails d r) as [e|r']; [discriminate|]. simpl in H.
    inversion H; subst. rewrite !attr_list_cons, (IH r' eq_refl). reflexivity.
Qed.


Lemma map_attr_other k f v v' k' :
  map_attr k f v = inr v' → k' ≠ k → attr_list v' k' = attr_list v k'.
Proof.
  intros H Hk. revert v' H. induction v as [|c r IH]; intros v' H; simpl in H.
  { inversion H. reflexivity. }
  destruct (named k c) eqn:E.
  - destruct (f (cl_value c)) as [e|x]; [discriminate|]. simpl in H.
    destruct (map_attr k f r) as [e|r']; [discriminate|]. simpl in H.
    inversion H; subst. rewrite !attr_list_cons.
    assert (Hc : named k' c = false) by (eapply named_other; [|exact E]; congruence).
    unfold named in *. cbn [set_value cl_name]. rewrite Hc. apply IH. reflexivity.
  - simpl in H. destruct (map_attr k f r) as [e|r']; [discriminate|]. simpl in H.
    inversion H; subst. rewrite !attr_list_cons, (IH r' eq_refl). reflexivity.
Qed.


(** ** Normalizer *)

(** *** Texts cut out of a text *)

Definition chars_of (a s : string) : Prop :=
  ∀ P, all_chars P s = true → all_chars P a = true.

Lemma chars_of_refl s : chars_of s s.
Proof. intros P H. exact H. Qed.

Lemma chars_of_trans a b c : chars_of a b → chars_of b c → chars_of a c.
Proof. intros H1 H2 P H. apply H1, H2, H. Qed.

Lemma chars_of_tail c r : chars_of r (String c r).
Proof. intros P H. simpl in H. apply andb_true_iff in H as [_ H]. exact H. Qed.



Lemma take_until_some stop s inner rest :
  Re.take_until stop s = Some (inner, rest) →
  chars_of inner s ∧ chars_of rest s ∧ has_char stop inner = false.
Proof.
  revert inner rest. induction s as [|c r IH]; intros inner rest H; [discriminate|].
  simpl in H. destruct (Ascii.eqb c stop) eqn:E.
  - inversion H; subst.
    split; [intros P _; reflexivity|]. split; [apply chars_of_tail|reflexivity].
  - destruct (Re.take_until stop r) as [[i0 r0]|]; [|discriminate].
    inversion H; subst. destruct (IH _ _ eq_refl) as (H1 & H2 & H3).
    split; [|split].
    + intros P HP. simpl in *. apply andb_true_iff in HP as [Hc HP].
      rewrite Hc. apply H1, HP.
    + eapply chars_of_trans; [exact H2|apply chars_of_tail].
    + simpl. rewrite E. exact H3.
Qed.

Lemma some_until_some stop s inner rest :
  Re.some_until stop s = Some (inner, rest) →
  chars_of inner s ∧ chars_of rest s ∧ has_char stop inner = false.
Proof.
  unfold Re.some_until.
  destruct (Re.take_until stop s) as [[[|a i0] r0]|] eqn:E; try discriminate.
  intros H. inversion H; subst. apply take_until_some, E.
Qed.





(** *** Lower case *)












(** *** Telephone numbers *)












Section NormalizeFacts.

Variable opts : options.
Variable str_of_name : Name → string.
Variable str_of_list : list string → string.




End NormalizeFacts.





(** ** Grouper *)

Lemma foldM_inv {S A} (P : S → Prop) (f : S → A → result S) l s s' :
  (∀ s x s', P s → f s x = inr s' → P s') →
  P s → foldM f l s = inr s' → P s'.
Proof.
  intros Hf. revert s. induction l as [|x r IH]; intros s Hs H; simpl in H.
  - inversion H; subst. exact Hs.
  - destruct (f s x) as [e|s1] eqn:E; [discriminate|]. simpl in H.
    eapply IH; [|exact H]. eapply Hf; [exact Hs|exact E].
Qed.

Lemma foldM_alike {S T A} (R : S → T → Prop) (f : S → A → result S)
  (g : T → A → option T) l :
  (∀ s t x, R s t → alike R (f s x) (g t x)) →
  ∀ s t, R s t → alike R (foldM f l s) (ofold g l t).
Proof.
  intros Hfg. induction l as [|x r IH]; intros s t Hst; simpl; [exact Hst|].
  specialize (Hfg s t x Hst). unfold alike in Hfg.
  destruct (f s x) as [e|s1], (g t x) as [t1|]; simpl; try contradiction; auto.
Qed.


Lemma ungrouped_group_of m k : ungrouped m → group_of m k = GNone.
Proof.
  intros [_ Hv]. unfold group_of.
  destruct (vcard_group m !! k) as [g|] eqn:E; [|reflexivity]. simpl. eapply Hv, E.
Qed.

(** While no group exists, [group_keys] returns for one and the same key
    only, which it maps to [None]. *)
Lemma group_keys_ungrouped opts m k1 k2 m' g :
  group_keys opts m k1 k2 GNone GNone = inr (m', g) →
  k1 = k2 ∧ g = GNone
  ∧ m' = set_vcard_group m (<[k1 := GNone]> (vcard_group m)).
Proof.
  unfold group_keys, group_keys_in_place. cbn [bad_group_type truthy negb andb orb view].
  destruct (String.eqb_spec k1 k2) as [->|Hk]; cbn [negb andb returned ok].
  - intros H. inversion H; subst. rewrite insert_insert_eq. auto.
  - destruct (select_most_relevant_name_raises [k1; k2]) as (e & -> & _).
    discriminate.
Qed.

Lemma ungrouped_set_none m k :
  ungrouped m → ungrouped (set_vcard_group m (<[k := GNone]> (vcard_group m))).
Proof.
  intros [Hg Hv]. split; [exact Hg|]. intros k' g. simpl.
  destruct (decide (k = k')) as [->|Hk].
  - rewrite lookup_insert_eq. congruence.
  - rewrite lookup_insert_ne by exact Hk. apply Hv.
Qed.

(** *** The index *)

Lemma index_get_set m a v l a' v' :
  index_get (index_set m a v l) a' v'
  = if decide (a = a' ∧ v = v') then Some l else index_get m a' v'.
Proof.
  unfold index_get, index_set. simpl.
  destruct (decide (a = a')) as [<-|Ha].
  - rewrite lookup_insert_eq. simpl.
    destruct (decide (v = v')) as [<-|Hv].
    + rewrite lookup_insert_eq. rewrite decide_True by auto. reflexivity.
    + rewrite lookup_insert_ne by exact Hv. rewrite decide_False by tauto.
      destruct (attributes m !! a); reflexivity.
  - rewrite lookup_insert_ne by exact Ha. rewrite decide_False by tauto. reflexivity.
Qed.

Lemma index_get_new_dict m a a' v' :
  attributes m !! a = None →
  index_get (set_attributes m (<[a := od_empty]> (attributes m))) a' v'
  = index_get m a' v'.
Proof.
  intros H. unfold index_get. simpl. destruct (decide (a = a')) as [<-|Ha].
  - rewrite lookup_insert_eq, H. reflexivity.
  - rewrite lookup_insert_ne by exact Ha. reflexivity.
Qed.

Lemma indexed_ungrouped m owners : indexed m owners → ungrouped m.
Proof.
  intros (Hg & Hv & _). split; [exact Hg|]. intros k g. rewrite Hv, lookup_empty.
  discriminate.
Qed.

Section GrouperFacts.

Variable opts : options.
Variable str_of_name : Name → string.
Variable str_of_list : list string → string.
Variable set_iter : list string → list string.

Let phase1' := phase1 opts str_of_name str_of_list set_iter.
Let claim_vcard' := claim_vcard opts str_of_name str_of_list set_iter.

(** The body of the loop over the values claims the pair. *)
Lemma map_value_alike key a st owners v :
  indexed_st st owners →
  alike indexed_st (map_value opts key a st v) (claim key owners (a, v)).
Proof.
  destruct st as [m g]. intros [(Hg & Hv & Hi) Hn]. cbn [fst snd] in *. subst g.
  unfold map_value, claim. rewrite Hi.
  destruct (owners !! (a, v)) as [k|] eqn:Eo; simpl.
  - rewrite bool_decide_decide.
    destruct (String.eqb_spec k key) as [->|Hk].
    + rewrite decide_True by (apply list_elem_of_singleton; reflexivity).
      simpl. repeat split; assumption.
    + rewrite decide_False by (rewrite list_elem_of_singleton; congruence).
      destruct (Py.is_empty k); [exact I|].
      destruct (group_keys opts _ key k GNone _) as [e|[m' g']] eqn:E; [exact I|].
      unfold group_of in E. simpl in E. rewrite Hv, lookup_empty in E. simpl in E.
      apply group_keys_ungrouped in E as [E _]. congruence.
  - split; [|reflexivity]. split; [exact Hg|]. split; [exact Hv|].
    intros a' v'. cbn [fst]. rewrite index_get_set, Hi.
    destruct (decide (a = a' ∧ v = v')) as [[<- <-]|Hne].
    + rewrite lookup_insert_eq. reflexivity.
    + rewrite lookup_insert_ne; [reflexivity|]. intros H. inversion H. tauto.
Qed.

Lemma map_attribute_alike key v st owners attr :
  indexed_st st owners →
  alike indexed_st
    (map_attribute opts str_of_name str_of_list set_iter key v st attr)
    (claim_attribute str_of_name str_of_list set_iter key v owners attr).
Proof.
  intros Hst. unfold map_attribute, claim_attribute.
  destruct (collect_values str_of_name str_of_list v [attr]) as [e|values];
    cbn [bind]; [exact I|].
  destruct (set_iter values) as [|x r] eqn:Ev; [exact Hst|].
  destruct st as [m g].
  apply (foldM_alike indexed_st (map_value opts key (a_key_of attr))
           (fun owners a_value => claim key owners (a_key_of attr, a_value))).
  - intros s t y. apply map_value_alike.
  - destruct Hst as [(Hg & Hv & Hi) Hn]. simpl in *.
    destruct (attributes m !! a_key_of attr) eqn:Ea.
    + repeat split; assumption.
    + split; [|exact Hn]. split; [exact Hg|]. split; [exact Hv|].
      intros a' v'. simpl. rewrite index_get_new_dict by exact Ea. apply Hi.
Qed.

Lemma map_vcard_alike m owners kv :
  indexed m owners →
  alike indexed (map_vcard opts str_of_name str_of_list set_iter m kv)
    (claim_vcard' owners kv).
Proof.
  intros Hm. destruct kv as [key v]. unfold claim_vcard', claim_vcard, map_vcard.
  cbn [fst snd]. destruct (hasattr v "fn"); simpl; [|exact I].
  destruct Hm as (Hg & Hv & Hi). rewrite Hg, lookup_empty.
  pose proof (foldM_alike indexed_st
    (map_attribute opts str_of_name str_of_list set_iter key v)
    (claim_attribute str_of_name str_of_list set_iter key v)
    (OPTION_MATCH_ATTRIBUTES opts)
    (fun s t x => map_attribute_alike key v s t x) (m, GNone) owners) as H.
  specialize (H (conj (conj Hg (conj Hv Hi)) eq_refl)). unfold alike in *.
  destruct (foldM _ _ _) as [e|[m' g']], (ofold _ _ _) as [o|]; simpl;
    try contradiction; [exact I|exact (proj1 H)].
Qed.

(** Phase 1 and the claims of the records end alike. *)
Lemma phase1_alike vcards :
  alike indexed (phase1' vcards) (ofold claim_vcard' vcards ∅).
Proof.
  apply foldM_alike.
  - intros s t x. apply map_vcard_alike.
  - split; [reflexivity|]. split; [reflexivity|]. intros a v.
    unfold index_get. simpl. rewrite !lookup_empty. reflexivity.
Qed.

(** *** The claims of two records commute *)










(** *** Phase 2 *)

Variable match_approx : string → string → bool.

Lemma compare_names_ungrouped name1 keys1 m item2 m' :
  ungrouped m →
  compare_names opts match_approx name1 keys1 m item2 = inr m' → ungrouped m'.
Proof.
  intros Hm. destruct item2 as [name2 keys2]. unfold compare_names.
  destruct (match_approx name1 name2); [|intros H; inversion H; subst; exact Hm].
  destruct keys1 as [|key1 ?]; [discriminate|].
  destruct (if bool_decide (key1 ∈ keys2) then _ else _) as [e|key2]; [discriminate|].
  cbn [bind]. rewrite !(ungrouped_group_of _ _ Hm).
  destruct (group_keys opts m key1 key2 GNone GNone) as [e|[m1 g]] eqn:E; [discriminate|].
  apply group_keys_ungrouped in E as (_ & _ & ->).
  simpl. intros H. inversion H; subst. apply ungrouped_set_none, Hm.
Qed.

Lemma compare_all_ungrouped items m m' :
  ungrouped m → compare_all opts match_approx items m = inr m' → ungrouped m'.
Proof.
  revert m. induction items as [|[name1 keys1] r IH]; intros m Hm H; simpl in H.
  - inversion H; subst. exact Hm.
  - destruct (foldM _ r m) as [e|m1] eqn:E; [discriminate|]. simpl in H.
    eapply IH; [|exact H].
    eapply (foldM_inv ungrouped); [|exact Hm|exact E].
    intros s x s' Hs. apply compare_names_ungrouped, Hs.
Qed.

Lemma phase2_ungrouped m m' :
  ungrouped m → phase2 opts match_approx m = inr m' → ungrouped m'.
Proof.
  intros Hm. unfold phase2.
  destruct (_ && _); [intros H; inversion H; subst; exact Hm|].
  destruct (negb _); [|intros H; inversion H; subst; exact Hm].
  destruct (attributes m !! "names"); [|discriminate].
  apply compare_all_ungrouped, Hm.
Qed.


End GrouperFacts.



(** ** The fixer *)

(** *** Texts *)

Lemma append_nil_r s : s +:+ EmptyString = s.
Proof.
  induction s as [|c r IH]; [reflexivity|]. rewrite append_cons, IH. reflexivity.
Qed.

Lemma append_assoc a b c : (a +:+ b) +:+ c = a +:+ (b +:+ c).
Proof.
  induction a as [|x r IH]; [rewrite !append_nil_l; reflexivity|].
  rewrite !append_cons, IH. reflexivity.
Qed.

Lemma map_chars_app f a b :
  Py.map_chars f (a +:+ b) = Py.map_chars f a +:+ Py.map_chars f b.
Proof.
  induction a as [|x r IH]; [rewrite !append_nil_l; reflexivity|].
  cbn [Py.map_chars]. rewrite !append_cons. cbn [Py.map_chars].
  rewrite IH. reflexivity.
Qed.

Lemma all_chars_app P a b : all_chars P (a +:+ b) = all_chars P a && all_chars P b.
Proof.
  induction a as [|x r IH]; [rewrite append_nil_l; reflexivity|].
  rewrite append_cons. cbn [all_chars]. rewrite IH, andb_assoc. reflexivity.
Qed.

Lemma has_char_app c a b : has_char c (a +:+ b) = has_char c a || has_char c b.
Proof.
  induction a as [|x r IH]; [rewrite append_nil_l; reflexivity|].
  rewrite append_cons. cbn [has_char]. rewrite IH, orb_assoc. reflexivity.
Qed.

Lemma contains_char a s : Py.contains (String a EmptyString) s = has_char a s.
Proof.
  induction s as [|c r IH]; [reflexivity|].
  rewrite contains_cons, IH. cbn [Py.prefix has_char].
  rewrite andb_true_r, (Ascii.eqb_sym a c). reflexivity.
Qed.

Lemma contains_head_absent a p s :
  has_char a s = false → Py.contains (String a p) s = false.
Proof.
  induction s as [|c r IH]; [reflexivity|].
  cbn [has_char]. intros H. apply orb_false_iff in H as [Hc Hr].
  rewrite contains_cons, (IH Hr). cbn [Py.prefix].
  rewrite (Ascii.eqb_sym a c), Hc. reflexivity.
Qed.

Lemma replace_remove a s :
  Py.replace s (String a EmptyString) EmptyString = remove_chars (Ascii.eqb a) s.
Proof.
  unfold Py.replace. induction s as [|c r IH]; [reflexivity|].
  cbn [Py.replace_from Py.prefix remove_chars]. rewrite andb_true_r.
  destruct (Ascii.eqb a c); simpl; rewrite IH; reflexivity.
Qed.

Lemma is_empty_app_nl s : Py.is_empty (s +:+ Py.nl) = false.
Proof. destruct s; reflexivity. Qed.

Lemma join_cons x l : Py.join EmptyString (x :: l) = x +:+ Py.join EmptyString l.
Proof.
  destruct l as [|y l]; [cbn [Py.join]; rewrite append_nil_r; reflexivity|].
  cbn [Py.join]. rewrite append_nil_l. reflexivity.
Qed.

Lemma join_app_single l x :
  Py.join EmptyString (l ++ [x]) = Py.join EmptyString l +:+ x.
Proof.
  induction l as [|y l IH]; [cbn [app Py.join]; rewrite append_nil_l; reflexivity|].
  rewrite <- app_comm_cons, !join_cons, IH, append_assoc. reflexivity.
Qed.

(** *** Upper case *)

Lemma upper_char_idem c : Py.upper_char (Py.upper_char c) = Py.upper_char c.
Proof. by_cases_on_ascii c. Qed.

Lemma upper_idem s : Py.upper (Py.upper s) = Py.upper s.
Proof.
  induction s as [|c r IH]; [reflexivity|]. unfold Py.upper in *.
  cbn [Py.map_chars]. rewrite IH, upper_char_idem. reflexivity.
Qed.

Lemma upper_char_colon c : Ascii.eqb (Py.upper_char c) ":" = Ascii.eqb c ":".
Proof. by_cases_on_ascii c. Qed.

Lemma upper_char_space c : Ascii.eqb (Py.upper_char c) " " = Ascii.eqb c " ".
Proof. by_cases_on_ascii c. Qed.

Lemma upper_char_semicolon c : Ascii.eqb (Py.upper_char c) ";" = Ascii.eqb c ";".
Proof. by_cases_on_ascii c. Qed.

Lemma upper_char_comma c : Ascii.eqb (Py.upper_char c) "," = Ascii.eqb c ",".
Proof. by_cases_on_ascii c. Qed.

Lemma upper_char_lf c : Ascii.eqb (Py.upper_char c) "010" = Ascii.eqb c "010".
Proof. by_cases_on_ascii c. Qed.

Lemma upper_char_no_eol c : no_eol (Py.upper_char c) = no_eol c.
Proof. by_cases_on_ascii c. Qed.

Lemma upper_char_key c : key_char (Py.upper_char c) = key_char c.
Proof. unfold key_char. rewrite upper_char_colon, upper_char_space. reflexivity. Qed.

Lemma has_char_upper x s :
  (∀ c, Ascii.eqb (Py.upper_char c) x = Ascii.eqb c x) →
  has_char x (Py.upper s) = has_char x s.
Proof.
  intros Hx. induction s as [|c r IH]; [reflexivity|]. unfold Py.upper in *.
  cbn [Py.map_chars has_char]. rewrite IH, Hx. reflexivity.
Qed.

Lemma all_chars_upper P s :
  (∀ c, P (Py.upper_char c) = P c) → all_chars P (Py.upper s) = all_chars P s.
Proof.
  intros HP. induction s as [|c r IH]; [reflexivity|]. unfold Py.upper in *.
  cbn [Py.map_chars all_chars]. rewrite IH, HP. reflexivity.
Qed.

Lemma upper_app a b : Py.upper (a +:+ b) = Py.upper a +:+ Py.upper b.
Proof. apply map_chars_app. Qed.

(** *** Key:value lines *)

Lemma split_hd cur s :
  hd EmptyString (Py.split_from ":" 0 cur s) = cur +:+ before_colon s.
Proof.
  revert cur. induction s as [|c r IH]; intros cur.
  - cbn [Py.split_from hd before_colon]. rewrite append_nil_r. reflexivity.
  - cbn [Py.split_from Py.prefix before_colon]. rewrite andb_true_r.
    rewrite (Ascii.eqb_sym ":" c). destruct (Ascii.eqb c ":").
    + cbn [hd]. rewrite append_nil_r. reflexivity.
    + rewrite IH, append_assoc, append_cons, append_nil_l. reflexivity.
Qed.

Lemma header_key_eq s : header_key s = before_colon s.
Proof. unfold header_key, Py.split. rewrite split_hd, append_nil_l. reflexivity. Qed.

Lemma take_until_colon s :
  has_char ":" s = true → Re.take_until ":" s = Some (before_colon s, after_colon s).
Proof.
  induction s as [|c r IH]; [discriminate|].
  cbn [has_char Re.take_until before_colon after_colon].
  destruct (Ascii.eqb c ":"); [reflexivity|].
  intros H. rewrite (IH H). reflexivity.
Qed.

Lemma colon_split s :
  has_char ":" s = true → s = before_colon s +:+ ":" +:+ after_colon s.
Proof.
  induction s as [|c r IH]; [discriminate|].
  cbn [has_char before_colon after_colon].
  destruct (Ascii.eqb_spec c ":") as [->|Hc].
  - intros _. rewrite append_nil_l. reflexivity.
  - intros H. rewrite append_cons, <- (IH H). reflexivity.
Qed.

Lemma header_from_key seen s :
  Re.header_from seen s = true →
  has_char ":" s = true ∧ all_chars key_char (before_colon s) = true
  ∧ (seen = false → before_colon s ≠ EmptyString).
Proof.
  revert seen. induction s as [|c r IH]; intros seen; [discriminate|].
  cbn [Re.header_from has_char before_colon].
  destruct (Ascii.eqb c ":") eqn:Ec.
  - intros ->. repeat split. discriminate.
  - destruct (Ascii.eqb c " ") eqn:Es; [discriminate|].
    intros H. destruct (IH _ H) as (H1 & H2 & _).
    cbn [all_chars]. unfold key_char at 1. rewrite Ec, Es, H2.
    repeat split; [exact H1|discriminate].
Qed.

Lemma header_key_chars l :
  Re.header l = true →
  has_char ":" l = true ∧ all_chars key_char (before_colon l) = true
  ∧ before_colon l ≠ EmptyString.
Proof.
  intros H. destruct (header_from_key _ _ H) as (H1 & H2 & H3).
  repeat split; [exact H1|exact H2|apply H3; reflexivity].
Qed.

Lemma drop_key_eq l : Re.header l = true → Re.drop_key l = after_colon l.
Proof.
  intros H. destruct (header_key_chars _ H) as (H1 & _ & H3).
  unfold Re.drop_key, Re.some_until. rewrite (take_until_colon _ H1).
  destruct (before_colon l); [contradiction|reflexivity].
Qed.

Lemma before_colon_key k r :
  all_chars key_char k = true → before_colon (k +:+ ":" +:+ r) = k.
Proof.
  induction k as [|c k IH]; [intros _; rewrite append_nil_l; reflexivity|].
  cbn [all_chars]. unfold key_char at 1. intros H.
  apply andb_true_iff in H as [Hc Hk]. apply andb_true_iff in Hc as [Hc _].
  rewrite append_cons. cbn [before_colon].
  destruct (Ascii.eqb c ":"); [discriminate|]. rewrite (IH Hk). reflexivity.
Qed.

Lemma after_colon_key k r :
  all_chars key_char k = true → after_colon (k +:+ ":" +:+ r) = r.
Proof.
  induction k as [|c k IH]; [intros _; rewrite append_nil_l; reflexivity|].
  cbn [all_chars]. unfold key_char at 1. intros H.
  apply andb_true_iff in H as [Hc Hk]. apply andb_true_iff in Hc as [Hc _].
  rewrite append_cons. cbn [after_colon].
  destruct (Ascii.eqb c ":"); [discriminate|]. exact (IH Hk).
Qed.

Lemma header_from_build seen k r :
  all_chars key_char k = true →
  Re.header_from seen (k +:+ ":" +:+ r) = seen || negb (Py.is_empty k).
Proof.
  revert seen. induction k as [|c k IH]; intros seen.
  - intros _. rewrite append_nil_l. cbn. rewrite orb_false_r. reflexivity.
  - cbn [all_chars]. unfold key_char at 1. intros H.
    apply andb_true_iff in H as [Hc Hk]. apply andb_true_iff in Hc as [Hc Hs].
    rewrite append_cons. cbn [Re.header_from Py.is_empty].
    destruct (Ascii.eqb c ":"); [discriminate|].
    destruct (Ascii.eqb c " "); [discriminate|].
    rewrite (IH _ Hk). cbn. rewrite orb_true_r. reflexivity.
Qed.

Lemma header_build k r :
  all_chars key_char k = true → k ≠ EmptyString →
  Re.header (k +:+ ":" +:+ r) = true.
Proof.
  intros Hk Hn. unfold Re.header. rewrite (header_from_build _ _ _ Hk).
  destruct k; [contradiction|reflexivity].
Qed.

Lemma upper_not_empty k : k ≠ EmptyString → Py.upper k ≠ EmptyString.
Proof. destruct k; [contradiction|discriminate]. Qed.

(** *** Escaped commas *)

(** Induction on a text by its tails of one and of two characters. *)
Lemma string_ind2 (P : string → Prop) :
  P EmptyString →
  (∀ c, P (String c EmptyString)) →
  (∀ c x r, P r → P (String x r) → P (String c (String x r))) →
  ∀ s, P s.
Proof.
  intros H0 H1 H2 s.
  assert (H : P s ∧ ∀ c, P (String c s)); [|exact (proj1 H)].
  induction s as [|x r [IH1 IH2]]; [split; [exact H0|exact H1]|].
  split; [apply IH2|]. intros c. apply H2; [exact IH1|apply IH2].
Qed.

Lemma escape_from_cons2 start c x r :
  Re.escape_from start (String c (String x r))
  = if Ascii.eqb x "," && negb (Ascii.eqb c "092")
    then String c (String "092" (String "," (Re.escape_from false r)))
    else if start && Ascii.eqb c ","
    then String "092" (String "," (Re.escape_from false (String x r)))
    else String c (Re.escape_from false (String x r)).
Proof. reflexivity. Qed.

Lemma escape_from_cons1 start c :
  Re.escape_from start (String c EmptyString)
  = if start && Ascii.eqb c ","
    then String "092" (String "," EmptyString)
    else String c EmptyString.
Proof. reflexivity. Qed.

(** A text whose commas all follow a backslash is left as it is. *)
Lemma escape_from_escaped s :
  ∀ start after_backslash,
    escaped_from after_backslash s = true →
    start && after_backslash = false →
    Re.escape_from start s = s.
Proof.
  induction s as [|c r IH]; intros start ab H Hs; [reflexivity|].
  cbn [escaped_from] in H. apply andb_true_iff in H as [Hc Hr].
  assert (Hsc : start && Ascii.eqb c "," = false).
  { destruct start; [|reflexivity]. cbn in Hs |- *. subst ab.
    rewrite orb_false_r in Hc. apply negb_true_iff in Hc. exact Hc. }
  destruct r as [|x r'].
  - rewrite escape_from_cons1, Hsc. reflexivity.
  - rewrite escape_from_cons2, Hsc.
    assert (Hx : Ascii.eqb x "," && negb (Ascii.eqb c "092") = false).
    { cbn [escaped_from] in Hr. apply andb_true_iff in Hr as [Hx _].
      destruct (Ascii.eqb x ","); [|reflexivity].
      cbn in Hx |- *. rewrite Hx. reflexivity. }
    rewrite Hx. rewrite (IH false (Ascii.eqb c "092") Hr eq_refl). reflexivity.
Qed.

Lemma prefix_commas c x r :
  Py.prefix ",," (String c (String x r)) = Ascii.eqb c "," && Ascii.eqb x ",".
Proof.
  cbn [Py.prefix]. rewrite andb_true_r, (Ascii.eqb_sym "," c), (Ascii.eqb_sym "," x).
  reflexivity.
Qed.

(** After one pass over a text that has no two commas in a row, every comma
    follows a backslash. *)
Lemma escape_from_escapes s :
  ∀ start after_backslash,
    Py.contains ",," s = false →
    start || after_backslash || negb (Py.prefix "," s) = true →
    escaped_from after_backslash (Re.escape_from start s) = true.
Proof.
  induction s as [|c|c x r IH1 IH2] using string_ind2; intros start ab Hn Hs.
  - reflexivity.
  - rewrite escape_from_cons1. cbn [Py.prefix] in Hs.
    rewrite andb_true_r, (Ascii.eqb_sym "," c) in Hs.
    destruct start, ab, (Ascii.eqb c ",") eqn:Ec; cbn in Hs |- *;
      rewrite ?Ec; try reflexivity; discriminate.
  - pose proof (contains_tail _ _ _ Hn) as Hn1.
    pose proof (contains_tail _ _ _ Hn1) as Hn2.
    rewrite contains_cons, prefix_commas in Hn.
    apply orb_false_iff in Hn as [Hcx _].
    cbn [Py.prefix] in Hs. rewrite andb_true_r, (Ascii.eqb_sym "," c) in Hs.
    rewrite escape_from_cons2.
    destruct (Ascii.eqb x ",") eqn:Ex.
    + (* the comma [x] *)
      rewrite andb_true_r in Hcx.
      destruct (Ascii.eqb c "092") eqn:Eb; cbn [negb andb].
      * rewrite Hcx, andb_false_r. cbn [escaped_from]. rewrite Hcx, Eb. cbn [negb orb andb].
        apply (IH2 false true Hn1). reflexivity.
      * assert (Hr : Py.prefix "," r = false).
        { destruct r as [|y r0]; [reflexivity|].
          rewrite contains_cons, prefix_commas, Ex in Hn1.
          apply orb_false_iff in Hn1 as [Hy _]. cbn [andb] in Hy.
          cbn [Py.prefix]. rewrite andb_true_r, (Ascii.eqb_sym "," y). exact Hy. }
        cbn [escaped_from]. rewrite Hcx. cbn.
        apply (IH1 false false Hn2). rewrite Hr. reflexivity.
    + cbn [andb].
      assert (Hp : Py.prefix "," (String x r) = false).
      { cbn [Py.prefix]. rewrite andb_true_r, (Ascii.eqb_sym "," x). exact Ex. }
      destruct (start && Ascii.eqb c ",") eqn:Esc.
      * cbn [escaped_from]. cbn.
        change (escaped_from false (Re.escape_from false (String x r)) = true).
        apply (IH2 false false Hn1). rewrite Hp. reflexivity.
      * cbn [escaped_from].
        assert (Hc : negb (Ascii.eqb c ",") || ab = true).
        { destruct start, ab, (Ascii.eqb c ","); cbn in *; congruence. }
        rewrite Hc. cbn [andb].
        apply (IH2 false _ Hn1). rewrite Hp, orb_true_r. reflexivity.
Qed.

(** Two passes over a text with no two commas in a row give what one pass
    gives. *)
Lemma escape_commas_idem s :
  Py.contains ",," s = false →
  Re.escape_commas (Re.escape_commas s) = Re.escape_commas s.
Proof.
  intros H. unfold Re.escape_commas.
  apply (escape_from_escaped _ true false); [|reflexivity].
  apply escape_from_escapes; [exact H|reflexivity].
Qed.

Lemma escape_from_comma s : ∀ start, has_char "," (Re.escape_from start s) = has_char "," s.
Proof.
  induction s as [|c|c x r IH1 IH2] using string_ind2; intros start.
  - reflexivity.
  - rewrite escape_from_cons1. destruct (start && Ascii.eqb c ",") eqn:E; [|reflexivity].
    apply andb_true_iff in E as [_ E]. cbn. rewrite E. reflexivity.
  - rewrite escape_from_cons2.
    destruct (Ascii.eqb x "," && negb (Ascii.eqb c "092")) eqn:E1.
    + apply andb_true_iff in E1 as [Ex _]. cbn [has_char]. rewrite Ex.
      cbn. rewrite !orb_true_r. reflexivity.
    + destruct (start && Ascii.eqb c ",") eqn:E2.
      * apply andb_true_iff in E2 as [_ Ec]. cbn [has_char]. rewrite Ec. reflexivity.
      * cbn [has_char]. rewrite (IH2 false). reflexivity.
Qed.

Lemma no_comma_escaped s : ∀ b, has_char "," s = false → escaped_from b s = true.
Proof.
  induction s as [|c r IH]; intros b H; [reflexivity|].
  cbn [has_char] in H. apply orb_false_iff in H as [Hc Hr].
  cbn [escaped_from]. rewrite Hc, (IH _ Hr). reflexivity.
Qed.

Lemma escape_from_no_comma s start :
  has_char "," s = false → Re.escape_from start s = s.
Proof.
  intros H. apply (escape_from_escaped s start false); [|apply andb_false_r].
  apply no_comma_escaped, H.
Qed.

Lemma all_chars_escape P s :
  P "092"%char = true → P ","%char = true →
  ∀ start, all_chars P s = true → all_chars P (Re.escape_from start s) = true.
Proof.
  intros Hb Hc. induction s as [|c|c x r IH1 IH2] using string_ind2; intros start H.
  - reflexivity.
  - rewrite escape_from_cons1. destruct (start && Ascii.eqb c ",").
    + cbn. rewrite Hb, Hc. reflexivity.
    + exact H.
  - rewrite escape_from_cons2. cbn [all_chars] in H.
    apply andb_true_iff in H as [H1 H2]. pose proof H2 as H2'.
    apply andb_true_iff in H2 as [H2 H3].
    destruct (Ascii.eqb x "," && negb (Ascii.eqb c "092")).
    + cbn [all_chars]. rewrite H1, Hb, Hc, (IH1 false H3). reflexivity.
    + destruct (start && Ascii.eqb c ",").
      * cbn [all_chars]. rewrite Hb, Hc. cbn [andb]. apply (IH2 false).
        cbn [all_chars]. exact H2'.
      * cbn [all_chars]. rewrite H1. cbn [andb]. apply (IH2 false).
        cbn [all_chars]. exact H2'.
Qed.

(** *** BEGIN and END lines *)

Lemma at_dollar_upper e : Re.at_dollar (Py.upper e) = Re.at_dollar e.
Proof.
  destruct e as [|c [|x r]]; [reflexivity| |reflexivity].
  cbn. apply upper_char_lf.
Qed.

Lemma expect_nocase_upper p :
  ∀ s, Re.expect_nocase p (Py.upper s) = Py.upper <$> Re.expect_nocase p s.
Proof.
  induction p as [|a p IH]; intros s; [reflexivity|].
  destruct s as [|b s]; [reflexivity|].
  cbn [Re.expect_nocase Py.upper Py.map_chars]. rewrite upper_char_idem.
  destruct (Ascii.eqb (Py.upper_char b) a); [apply IH|reflexivity].
Qed.

Lemma begin_end_upper s : Re.begin_end (Py.upper s) = Re.begin_end s.
Proof.
  unfold Re.begin_end. rewrite !expect_nocase_upper.
  destruct (Re.expect_nocase "BEGIN:VCARD" s), (Re.expect_nocase "END:VCARD" s);
    cbn [fmap option_fmap option_map]; rewrite ?at_dollar_upper; reflexivity.
Qed.

Lemma expect_nocase_comma p :
  ∀ s e, Re.expect_nocase p s = Some e →
         has_char "," s = has_char "," p || has_char "," e.
Proof.
  induction p as [|a p IH]; intros s e H.
  - cbn in H. inversion H; subst. reflexivity.
  - destruct s as [|b s]; [discriminate|]. cbn [Re.expect_nocase] in H.
    destruct (Ascii.eqb_spec (Py.upper_char b) a) as [Ha|]; [|discriminate].
    cbn [has_char]. rewrite (IH _ _ H), <- Ha, upper_char_comma, orb_assoc.
    reflexivity.
Qed.

Lemma at_dollar_comma e : Re.at_dollar e = true → has_char "," e = false.
Proof.
  destruct e as [|c [|x r]]; [reflexivity| |discriminate].
  cbn. intros H. apply Ascii.eqb_eq in H. subst c. reflexivity.
Qed.

Lemma begin_end_no_comma s : Re.begin_end s = true → has_char "," s = false.
Proof.
  unfold Re.begin_end. intros H. apply orb_true_iff in H as [H|H].
  - destruct (Re.expect_nocase "BEGIN:VCARD" s) as [e|] eqn:E; [|discriminate].
    rewrite (expect_nocase_comma _ _ _ E), (at_dollar_comma _ H). reflexivity.
  - destruct (Re.expect_nocase "END:VCARD" s) as [e|] eqn:E; [|discriminate].
    rewrite (expect_nocase_comma _ _ _ E), (at_dollar_comma _ H). reflexivity.
Qed.

(** *** Line endings *)

Lemma no_eol_chars s :
  all_chars no_eol s = true ↔ has_char "010" s = false ∧ has_char "013" s = false.
Proof.
  induction s as [|c r IH]; [split; [split; reflexivity|reflexivity]|].
  cbn [all_chars has_char]. unfold no_eol at 1.
  rewrite andb_true_iff, IH, !orb_false_iff, andb_true_iff, !negb_true_iff.
  tauto.
Qed.

Lemma remove_chars_absent a s :
  has_char a s = false → remove_chars (Ascii.eqb a) s = s.
Proof.
  induction s as [|c r IH]; [reflexivity|]. cbn [has_char remove_chars].
  intros H. apply orb_false_iff in H as [Hc Hr].
  rewrite (Ascii.eqb_sym a c), Hc, (IH Hr). reflexivity.
Qed.

Lemma remove_chars_app P a b :
  remove_chars P (a +:+ b) = remove_chars P a +:+ remove_chars P b.
Proof.
  induction a as [|c r IH]; [rewrite !append_nil_l; reflexivity|].
  rewrite append_cons. cbn [remove_chars].
  destruct (P c); [exact IH|]. rewrite append_cons, IH. reflexivity.
Qed.

Lemma has_char_remove_chars a b s :
  has_char a s = false → has_char a (remove_chars (Ascii.eqb b) s) = false.
Proof.
  induction s as [|c r IH]; [reflexivity|]. cbn [has_char remove_chars].
  intros H. apply orb_false_iff in H as [Hc Hr].
  destruct (Ascii.eqb b c); [exact (IH Hr)|].
  cbn [has_char]. rewrite Hc, (IH Hr). reflexivity.
Qed.

Lemma has_char_removed a s : has_char a (remove_chars (Ascii.eqb a) s) = false.
Proof.
  induction s as [|c r IH]; [reflexivity|]. cbn [remove_chars].
  destruct (Ascii.eqb a c) eqn:E; [exact IH|].
  cbn [has_char]. rewrite (Ascii.eqb_sym c a), E, IH. reflexivity.
Qed.

Lemma has_char_replaced a b s :
  a ≠ b →
  has_char a (Py.map_chars (fun c => if Ascii.eqb a c then b else c) s) = false.
Proof.
  intros Hab. induction s as [|c r IH]; [reflexivity|].
  cbn [Py.map_chars has_char]. rewrite IH, orb_false_r.
  destruct (Ascii.eqb a c) eqn:E.
  - apply Ascii.eqb_neq. congruence.
  - rewrite Ascii.eqb_sym. exact E.
Qed.

(** A line of the loop holds no line ending. *)
Lemma unix_line_clean x : all_chars no_eol (unix_line x) = true.
Proof.
  unfold unix_line. set (y := if Py.contains _ x then _ else x).
  set (z := if Py.contains Py.cr y then _ else y).
  assert (Hz : has_char "013" z = false).
  { subst z. destruct (Py.contains Py.cr y) eqn:E.
    - unfold Py.cr, Py.nl. rewrite replace_char. apply has_char_replaced. discriminate.
    - unfold Py.cr in E. rewrite contains_char in E. exact E. }
  unfold Py.nl. rewrite replace_remove. apply no_eol_chars. split.
  - apply has_char_removed.
  - apply has_char_remove_chars, Hz.
Qed.

(** A line without line ending, with its line feed, is read as it is. *)
Lemma unix_line_nl l : all_chars no_eol l = true → unix_line (l +:+ Py.nl) = l.
Proof.
  intros H. apply no_eol_chars in H as [Hn Hr].
  assert (Hc : has_char "013" (l +:+ Py.nl) = false).
  { rewrite has_char_app, Hr. reflexivity. }
  assert (H1 : Py.contains (Py.cr +:+ Py.nl) (l +:+ Py.nl) = false).
  { exact (contains_head_absent "013"%char Py.nl _ Hc). }
  assert (H2 : Py.contains Py.cr (l +:+ Py.nl) = false).
  { unfold Py.cr. rewrite contains_char. exact Hc. }
  unfold unix_line. rewrite H1, H2.
  unfold Py.nl. rewrite replace_remove, remove_chars_app, (remove_chars_absent _ _ Hn).
  cbn. apply append_nil_r.
Qed.

Lemma universal_newlines_id s : has_char "013" s = false → universal_newlines s = s.
Proof.
  induction s as [|c r IH]; [reflexivity|]. cbn [has_char universal_newlines].
  intros H. apply orb_false_iff in H as [Hc Hr]. rewrite Hc, (IH Hr). reflexivity.
Qed.

Lemma readlines_cons l rest :
  has_char "010" l = false →
  readlines (l +:+ Py.nl +:+ rest) = (l +:+ Py.nl) :: readlines rest.
Proof.
  induction l as [|c l IH]; intros H.
  - rewrite !append_nil_l. reflexivity.
  - cbn [has_char] in H. apply orb_false_iff in H as [Hc Hl].
    rewrite !append_cons. cbn [readlines]. rewrite Hc, (IH Hl). reflexivity.
Qed.

Lemma readlines_lines ls :
  Forall (fun l => all_chars no_eol l = true) ls →
  readlines (Py.join EmptyString (map (fun l => l +:+ Py.nl) ls))
  = map (fun l => l +:+ Py.nl) ls.
Proof.
  induction 1 as [|l ls Hl _ IH]; [reflexivity|].
  cbn [map]. rewrite join_cons, append_assoc.
  apply no_eol_chars in Hl as [Hn _].
  rewrite (readlines_cons _ _ Hn), IH. reflexivity.
Qed.

Lemma lines_no_cr ls :
  Forall (fun l => all_chars no_eol l = true) ls →
  has_char "013" (Py.join EmptyString (map (fun l => l +:+ Py.nl) ls)) = false.
Proof.
  induction 1 as [|l ls Hl _ IH]; [reflexivity|].
  cbn [map]. rewrite join_cons, !has_char_app, IH.
  apply no_eol_chars in Hl as [_ Hr]. rewrite Hr. reflexivity.
Qed.

(** The lines of a text made of lines without line ending are these lines. *)
Lemma physical_lines_lines ls :
  Forall (fun l => all_chars no_eol l = true) ls →
  physical_lines (Py.join EmptyString (map (fun l => l +:+ Py.nl) ls)) = ls.
Proof.
  intros H. unfold physical_lines.
  rewrite (universal_newlines_id _ (lines_no_cr _ H)), (readlines_lines _ H).
  rewrite map_map. induction H as [|l ls Hl _ IH]; [reflexivity|].
  cbn [map]. rewrite (unix_line_nl _ Hl), IH. reflexivity.
Qed.

(** *** The loop over the lines *)

Section FixerFacts.

Variable opts : options.

Let fix' := fix_and_convert_to_v3 opts.

Lemma fix_key_value_plain l :
  Py.contains ";" (header_key l) = false →
  fix_key_value opts false l
  = (Py.upper (header_key l) +:+ ":"
     +:+ (if negb (OPTION_DOT_NOT_FORCE_ESCAPE_COMAS opts)
          then Re.escape_commas (Re.drop_key l) else Re.drop_key l),
     false).
Proof.
  intros H.
  assert (Hu : Py.contains ";" (Py.upper (header_key l)) = false).
  { rewrite contains_char, (has_char_upper _ _ upper_char_semicolon), <- contains_char.
    exact H. }
  unfold fix_key_value. fold (header_key l). rewrite Hu. reflexivity.
Qed.

(** A plain line becomes [fix_plain] of it. *)
Lemma fix_line_plain l :
  plain_line opts l = true → fix_line opts false l = (fix_plain opts l, false).
Proof.
  intros Hp. unfold fix_line, fix_plain.
  destruct (Re.begin_end l); [reflexivity|].
  destruct (Re.header l) eqn:Hh; [|reflexivity].
  unfold plain_line in Hp. rewrite Hh in Hp. cbn [negb orb] in Hp.
  apply andb_true_iff in Hp as [Hs _]. apply negb_true_iff in Hs.
  apply fix_key_value_plain, Hs.
Qed.

Lemma begin_end_fixed k r r' :
  Re.begin_end (k +:+ ":" +:+ r) = false →
  r' = r ∨ r' = Re.escape_commas r →
  Re.begin_end (Py.upper k +:+ ":" +:+ r') = false.
Proof.
  intros Hb Hr.
  assert (Hsame : Re.begin_end (Py.upper k +:+ ":" +:+ r) = false).
  { rewrite <- begin_end_upper, !upper_app, upper_idem, <- !upper_app, begin_end_upper.
    exact Hb. }
  destruct Hr as [->| ->]; [exact Hsame|].
  destruct (has_char "," r) eqn:E.
  - destruct (Re.begin_end (Py.upper k +:+ ":" +:+ Re.escape_commas r)) eqn:B;
      [|reflexivity].
    apply begin_end_no_comma in B. unfold Re.escape_commas in B.
    rewrite !has_char_app, escape_from_comma, E, !orb_true_r in B. discriminate.
  - unfold Re.escape_commas. rewrite (escape_from_no_comma _ _ E). exact Hsame.
Qed.

(** What the fixer makes of a plain line is left as it is. *)
Lemma fix_line_again l :
  plain_line opts l = true →
  fix_line opts false (fix_plain opts l) = (fix_plain opts l, false).
Proof.
  intros Hp. unfold fix_plain. destruct (Re.begin_end l) eqn:Hb.
  { unfold fix_line. rewrite begin_end_upper, Hb, upper_idem. reflexivity. }
  destruct (Re.header l) eqn:Hh.
  2:{ unfold fix_line. rewrite Hb, Hh. reflexivity. }
  unfold plain_line in Hp. rewrite Hh in Hp. cbn [negb orb] in Hp.
  apply andb_true_iff in Hp as [Hs Hc]. apply negb_true_iff in Hs.
  rewrite (drop_key_eq _ Hh) in *. rewrite header_key_eq in *.
  destruct (header_key_chars _ Hh) as (Hcolon & Hk & Hne).
  pose proof (colon_split _ Hcolon) as Hl.
  set (k := before_colon l) in *. set (r := after_colon l) in *.
  set (r' := if negb (OPTION_DOT_NOT_FORCE_ESCAPE_COMAS opts)
             then Re.escape_commas r else r).
  assert (Hr' : r' = r ∨ r' = Re.escape_commas r).
  { subst r'. destruct (OPTION_DOT_NOT_FORCE_ESCAPE_COMAS opts); [left|right]; reflexivity. }
  assert (Hku : all_chars key_char (Py.upper k) = true).
  { rewrite (all_chars_upper _ _ upper_char_key). exact Hk. }
  assert (Hb' : Re.begin_end (Py.upper k +:+ ":" +:+ r') = false).
  { apply (begin_end_fixed k r); [rewrite <- Hl; exact Hb|exact Hr']. }
  assert (Hh' : Re.header (Py.upper k +:+ ":" +:+ r') = true).
  { apply header_build; [exact Hku|apply upper_not_empty, Hne]. }
  unfold fix_line. rewrite Hb', Hh'.
  rewrite fix_key_value_plain.
  2:{ rewrite header_key_eq, (before_colon_key _ _ Hku).
      rewrite contains_char, (has_char_upper _ _ upper_char_semicolon), <- contains_char.
      exact Hs. }
  rewrite header_key_eq, (before_colon_key _ _ Hku), upper_idem.
  rewrite (drop_key_eq _ Hh'), (after_colon_key _ _ Hku).
  subst r'. destruct (OPTION_DOT_NOT_FORCE_ESCAPE_COMAS opts); cbn [negb orb] in *.
  - reflexivity.
  - apply negb_true_iff in Hc. rewrite (escape_commas_idem _ Hc). reflexivity.
Qed.

Lemma fix_plain_clean l :
  all_chars no_eol l = true → all_chars no_eol (fix_plain opts l) = true.
Proof.
  intros H. unfold fix_plain. destruct (Re.begin_end l).
  { rewrite (all_chars_upper _ _ upper_char_no_eol). exact H. }
  destruct (Re.header l) eqn:Hh; [|exact H].
  rewrite (drop_key_eq _ Hh), header_key_eq.
  destruct (header_key_chars _ Hh) as (Hcolon & _ & _).
  rewrite (colon_split _ Hcolon), !all_chars_app in H.
  apply andb_true_iff in H as [Hk Hr]. apply andb_true_iff in Hr as [_ Hr].
  rewrite !all_chars_app, (all_chars_upper _ _ upper_char_no_eol), Hk.
  cbn [all_chars andb no_eol Ascii.eqb Bool.eqb negb].
  destruct (negb _); [|exact Hr].
  apply all_chars_escape; [reflexivity|reflexivity|exact Hr].
Qed.

(** One turn of the loop on a line that is made a line [g x], outside of a
    quoted-printable value. *)
Lemma fix_step_line (g : string → string) st x :
  fs_started_quoted_printable st = false →
  fix_line opts false (unix_line x) = (g x, false) →
  fs_started_quoted_printable (fix_step opts st x) = false
  ∧ fix_output (fix_step opts st x) = fix_output st +:+ g x +:+ Py.nl.
Proof.
  intros Hs Hg. unfold fix_step. rewrite Hs, andb_false_r. cbn [andb].
  unfold fix_output. destruct (has_last_line st) eqn:Hl.
  - cbn [fs_started_quoted_printable fs_lines]. rewrite Hg.
    cbn [fs_started_quoted_printable]. split; [reflexivity|].
    unfold has_last_line, save_last_line. cbn [fs_last_line fs_lines].
    rewrite is_empty_app_nl. cbn [negb]. apply join_app_single.
  - rewrite Hs, Hg. cbn [fs_started_quoted_printable]. split; [reflexivity|].
    unfold has_last_line at 1. unfold save_last_line at 1. cbn [fs_last_line fs_lines].
    rewrite is_empty_app_nl. cbn [negb]. apply join_app_single.
Qed.

Lemma fold_lines (g : string → string) L :
  ∀ st,
    fs_started_quoted_printable st = false →
    Forall (fun x => fix_line opts false (unix_line x) = (g x, false)) L →
    fix_output (fold_left (fix_step opts) L st)
    = fix_output st +:+ Py.join EmptyString (map (fun x => g x +:+ Py.nl) L).
Proof.
  induction L as [|x L IH]; intros st Hs HL.
  - cbn [fold_left map Py.join]. rewrite append_nil_r. reflexivity.
  - apply Forall_cons in HL as [Hx HL].
    destruct (fix_step_line g st x Hs Hx) as [Hs' Ho].
    cbn [fold_left map]. rewrite (IH _ Hs' HL), Ho, join_cons, !append_assoc.
    reflexivity.
Qed.

(** The text made of plain lines. *)
Lemma fix_plain_text content :
  forallb (plain_line opts) (physical_lines content) = true →
  fix' content
  = Py.join EmptyString
      (map (fun l => l +:+ Py.nl) (map (fix_plain opts) (physical_lines content))).
Proof.
  intros H. unfold fix', fix_and_convert_to_v3.
  change (fix_output (fold_left (fix_step opts) (readlines (universal_newlines content))
                        fix_init) = Py.join EmptyString
            (map (fun l => l +:+ Py.nl) (map (fix_plain opts) (physical_lines content)))).
  rewrite (fold_lines (fun x => fix_plain opts (unix_line x))); [|reflexivity|].
  - unfold physical_lines. rewrite !map_map. apply append_nil_l.
  - apply Forall_forall. intros x Hx.
    apply fix_line_plain, (proj1 (forallb_forall _ _) H).
    unfold physical_lines. apply in_map, list_elem_of_In, Hx.
Qed.

(** A text of lines that the fixer leaves as they are is left as it is. *)
Lemma fix_fixed_text ls :
  Forall (fun l => all_chars no_eol l = true ∧ fix_line opts false l = (l, false)) ls →
  fix' (Py.join EmptyString (map (fun l => l +:+ Py.nl) ls))
  = Py.join EmptyString (map (fun l => l +:+ Py.nl) ls).
Proof.
  intros H.
  assert (Hc : Forall (fun l => all_chars no_eol l = true) ls).
  { eapply Forall_impl; [exact H|]. intros l [Hl _]. exact Hl. }
  unfold fix', fix_and_convert_to_v3.
  change (fix_output (fold_left (fix_step opts)
                        (readlines (universal_newlines
                           (Py.join EmptyString (map (fun l => l +:+ Py.nl) ls))))
                        fix_init)
          = Py.join EmptyString (map (fun l => l +:+ Py.nl) ls)).
  rewrite (universal_newlines_id _ (lines_no_cr _ Hc)), (readlines_lines _ Hc).
  rewrite (fold_lines unix_line); [|reflexivity|].
  - rewrite map_map, append_nil_l. f_equal.
    clear H. induction Hc as [|l ls Hl _ IH]; [reflexivity|].
    cbn [map]. rewrite (unix_line_nl _ Hl), IH. reflexivity.
  - clear Hc. induction H as [|l ls [Hl Hf] _ IH]; [constructor|].
    cbn [map]. constructor; [|exact IH].
    rewrite (unix_line_nl _ Hl). exact Hf.
Qed.

(** X1. The fixer applied to its own output returns this output, for every
    text whose key:value lines have no parameter in the key part and no two
    commas in a row in the value (any value when commas are not escaped). *)
Theorem fix_idempotent_plain (content : string) :
  forallb (plain_line opts) (physical_lines content) = true →
  fix_and_convert_to_v3 opts (fix_and_convert_to_v3 opts content)
  = fix_and_convert_to_v3 opts content.
Proof.
  intros H. pose proof (fix_plain_text _ H) as E. unfold fix' in E. rewrite E.
  apply fix_fixed_text. apply Forall_forall. intros l' Hl'.
  apply list_elem_of_In, in_map_iff in Hl' as (l & <- & Hl).
  pose proof (proj1 (forallb_forall _ _) H l Hl) as Hl2.
  split; [|apply fix_line_again, Hl2].
  apply fix_plain_clean. unfold physical_lines in Hl.
  apply in_map_iff in Hl as (x & <- & _). apply unix_line_clean.
Qed.


End FixerFacts.

(** X1, witness: a card with DOS and Apple line endings. *)
Lemma fix_idempotent_plain_witness :
  let content := "begin:vcard" +:+ Py.cr +:+ Py.nl +:+ "fn:Doe, John" +:+ Py.nl
                 +:+ "n:Doe;John" +:+ Py.cr +:+ " a note, with no key" +:+ Py.nl
                 +:+ "end:vcard" in
  forallb (plain_line default_options) (physical_lines content) = true
  ∧ fix_and_convert_to_v3 default_options (fix_and_convert_to_v3 default_options content)
    = fix_and_convert_to_v3 default_options content.
Proof.
  intros content. split; [vm_compute; reflexivity|].
  apply (fix_idempotent_plain default_options content). vm_compute. reflexivity.
Defined.


(** ** What the grouper never does *)

Lemma view_key g s : view g = Key s → g = GKey s ∧ truthy g = true.
Proof.
  destruct g as [|s'|l]; try discriminate. cbn [view truthy].
  destruct (Py.is_empty s'); [discriminate|]. intros H. inversion H. auto.
Qed.

(** X3. Called with two different keys that are not already in one group,
    [group_keys] raises.  It makes no group, merges none and records no
    membership: the mappings are left as they were, but for the path on
    which one key joins the group of the other: there the key is already
    appended to the group when the call raises. *)
Theorem group_keys_raises_on_grouping (opts : options) (m : mappings)
  (key1 key2 : string) (group1 group2 : group_ref) :
  key1 ≠ key2 →
  group1 ≠ group2 ∨ (truthy group1 = false ∧ truthy group2 = false) →
  ∃ m' e,
    group_keys_in_place opts m key1 key2 group1 group2 = (m', inl e)
    ∧ group_keys opts m key1 key2 group1 group2 = inl e
    ∧ vcard_group m' = vcard_group m
    ∧ attributes m' = attributes m
    ∧ (truthy group1 = truthy group2 → groups m' = groups m)
    ∧ (∀ g l, group1 = GKey g → truthy group1 = true → truthy group2 = false →
              groups m !! g = Some l → groups m' = <[g := l ++ [key2]]> (groups m))
    ∧ (∀ g l, group2 = GKey g → truthy group2 = true → truthy group1 = false →
              groups m !! g = Some l → groups m' = <[g := l ++ [key1]]> (groups m)).
Proof.
  intros Hk Hg.
  assert (R : ∀ m' e, group_keys_in_place opts m key1 key2 group1 group2 = (m', inl e) →
                      group_keys opts m key1 key2 group1 group2 = inl e).
  { intros m' e E. unfold group_keys. rewrite E. reflexivity. }
  assert (T : ∀ g, view g = Falsy → bad_group_type g = false → truthy g = false).
  { intros [|s|[|x l]]; cbn; try reflexivity; try discriminate.
    destruct (Py.is_empty s); [reflexivity|discriminate]. }
  assert (K : ∀ g s, view g = Key s → g = GKey s ∧ truthy g = true).
  { intros g s V. apply view_key in V as [-> V]. split; [reflexivity|exact V]. }
  unfold group_keys_in_place in *.
  destruct (bad_group_type group1) eqn:B1.
  { eexists _, _. split; [reflexivity|]. split; [eapply R; reflexivity|].
    repeat split; try reflexivity.
    - intros g l ->. discriminate B1.
    - intros g l -> _ F. destruct group1 as [| |[|]]; discriminate. }
  destruct (bad_group_type group2) eqn:B2.
  { eexists _, _. split; [reflexivity|]. split; [eapply R; reflexivity|].
    repeat split; try reflexivity.
    - intros g l -> _ F. destruct group2 as [| |[|]]; discriminate.
    - intros g l ->. discriminate B2. }
  destruct (String.eqb_spec key1 key2) as [|_]; [contradiction|]. cbn [negb andb] in *.
  assert (Hc : negb (bool_decide (group1 = group2))
               || negb (truthy group1) && negb (truthy group2) = true).
  { destruct Hg as [Hg|[H1 H2]].
    - rewrite bool_decide_eq_false_2 by exact Hg. reflexivity.
    - rewrite H1, H2. apply orb_true_r. }
  rewrite Hc in *.
  destruct (view group1) as [|g1] eqn:V1, (view group2) as [|g2] eqn:V2.
  - pose proof (T _ V1 B1) as T1. pose proof (T _ V2 B2) as T2.
    destruct (select_most_relevant_name_raises [key1; key2]) as (e & E & _).
    rewrite E in *. eexists _, _. split; [reflexivity|]. split; [eapply R; reflexivity|].
    repeat split; try reflexivity.
    + intros g l _ F. rewrite T1 in F. discriminate.
    + intros g l _ F. rewrite T2 in F. discriminate.
  - pose proof (T _ V1 B1) as T1. destruct (K _ _ V2) as [-> T2].
    unfold join_group in *. unfold groups_get in *.
    destruct (groups m !! g2) as [l2|] eqn:G; cbn [raise ok] in *.
    + destruct (select_most_relevant_name_raises [g2; key1]) as (e & E & _).
      rewrite E in *. eexists _, _. split; [reflexivity|]. split; [eapply R; reflexivity|].
      repeat split; try reflexivity.
      * rewrite T1, T2. discriminate.
      * intros g l _ F. rewrite T1 in F. discriminate.
      * intros g l [= <-] _ _ Hl. rewrite G in Hl. injection Hl as <-. reflexivity.
    + eexists _, _. split; [reflexivity|]. split; [eapply R; reflexivity|].
      repeat split; try reflexivity.
      * intros g l _ F. rewrite T1 in F. discriminate.
      * intros g l [= <-] _ _ F. rewrite G in F. discriminate.
  - pose proof (T _ V2 B2) as T2. destruct (K _ _ V1) as [-> T1].
    unfold join_group in *. unfold groups_get in *.
    destruct (groups m !! g1) as [l1|] eqn:G; cbn [raise ok] in *.
    + destruct (select_most_relevant_name_raises [g1; key2]) as (e & E & _).
      rewrite E in *. eexists _, _. split; [reflexivity|]. split; [eapply R; reflexivity|].
      repeat split; try reflexivity.
      * rewrite T1, T2. discriminate.
      * intros g l [= <-] _ _ Hl. rewrite G in Hl. injection Hl as <-. reflexivity.
      * intros g l _ F. rewrite T2 in F. discriminate.
    + eexists _, _. split; [reflexivity|]. split; [eapply R; reflexivity|].
      repeat split; try reflexivity.
      * intros g l [= <-] _ _ F. rewrite G in F. discriminate.
      * intros g l _ F. rewrite T2 in F. discriminate.
  - destruct (K _ _ V1) as [-> T1]. destruct (K _ _ V2) as [-> T2].
    destruct (String.eqb_spec g1 g2) as [->|_]; cbn [negb] in *.
    + destruct Hg as [Hg|[H1 _]]; [contradiction|]. rewrite T1 in H1. discriminate.
    + unfold merge_groups in *.
      destruct (select_most_relevant_name_raises [g1; g2]) as (e & E & _).
      rewrite E in *. eexists _, _. split; [reflexivity|]. split; [eapply R; reflexivity|].
      repeat split; try reflexivity.
      * intros g l _ _ F. rewrite T2 in F. discriminate.
      * intros g l _ _ F. rewrite T1 in F. discriminate.
Qed.

(** X3, witness: a record joins the group of another. *)
Lemma group_keys_raises_on_grouping_witness :
  let m := set_groups empty_mappings {["Ann" := ["Ann"; "Al"]]} in
  ∃ m' e,
    group_keys_in_place default_options m "Ann" "Bob" (GKey "Ann") GNone = (m', inl e)
    ∧ vcard_group m' = ∅
    ∧ groups m' !! "Ann" = Some ["Ann"; "Al"; "Bob"].
Proof.
  intros m.
  destruct (group_keys_raises_on_grouping default_options m "Ann" "Bob" (GKey "Ann") GNone)
    as (m' & e & E & _ & Hv & _ & _ & Hj & _).
  - discriminate.
  - left. discriminate.
  - exists m', e. split; [exact E|]. split; [exact Hv|].
    rewrite (Hj "Ann" ["Ann"; "Al"] eq_refl eq_refl eq_refl eq_refl).
    apply lookup_insert_eq.
Defined.

(** X4. Whenever [get_vcards_groups] returns, the groups it returns are
    empty. *)
Theorem get_vcards_groups_no_group (opts : options) (str_of_name : Name → string)
  (str_of_list : list string → string) (set_iter : list string → list string)
  (match_approx : string → string → bool) (vcards : list (string * vcard))
  (vcards_grouped : gmap string (list string)) (vcards_not_grouped : list string) :
  get_vcards_groups opts str_of_name str_of_list set_iter match_approx vcards
  = inr (vcards_grouped, vcards_not_grouped) →
  vcards_grouped = ∅.
Proof.
  unfold get_vcards_groups, grouper.
  pose proof (phase1_alike opts str_of_name str_of_list set_iter vcards) as H1.
  destruct (phase1 opts str_of_name str_of_list set_iter vcards) as [e|m1];
    [discriminate|].
  cbn [bind]. destruct (phase2 opts match_approx m1) as [e|m] eqn:H2; [discriminate|].
  cbn [bind ok]. intros H. inversion H; subst. clear H.
  unfold alike in H1. destruct (ofold _ _ _); [|contradiction].
  apply indexed_ungrouped in H1.
  exact (proj1 (phase2_ungrouped _ _ _ _ H1 H2)).
Qed.

(** X4, witness: two records that share nothing. *)
Lemma get_vcards_groups_no_group_witness :
  let ann := [line "fn" (VStr "Ann"); line "email" (VStr "ann@example.com")] in
  let bob := [line "fn" (VStr "Bob"); line "email" (VStr "bob@example.com")] in
  ∃ vcards_grouped,
    get_vcards_groups default_options (fun _ => EmptyString)
      (fun _ => EmptyString) remove_dups (fun _ _ => false)
      [("Ann", ann); ("Bob", bob)] = inr (vcards_grouped, ["Ann"; "Bob"])
    ∧ vcards_grouped = ∅.
Proof.
  intros ann bob. eexists. split; [vm_compute; reflexivity|].
  apply (get_vcards_groups_no_group default_options (fun _ => EmptyString)
           (fun _ => EmptyString) remove_dups (fun _ _ => false)
           [("Ann", ann); ("Bob", bob)] _ ["Ann"; "Bob"]).
  vm_compute. reflexivity.
Defined.

(** ** Phase 1 and shared values *)

(** A loop of steps that keep what was established and establish [P x]. *)
Lemma ofold_established {T A} (kept : T → T → Prop) (P : A → T → Prop)
  (f : T → A → option T) l :
  (∀ t, kept t t) →
  (∀ a b c, kept a b → kept b c → kept a c) →
  (∀ x a b, P x a → kept a b → P x b) →
  (∀ t x t', f t x = Some t' → kept t t' ∧ P x t') →
  ∀ t t', ofold f l t = Some t' → kept t t' ∧ ∀ x, x ∈ l → P x t'.
Proof.
  intros Hrefl Htrans Hstable Hstep.
  induction l as [|y l IH]; intros t t' H; cbn [ofold] in H.
  - inversion H; subst. split; [apply Hrefl|]. intros x Hx. inversion Hx.
  - destruct (f t y) as [t1|] eqn:E; [|discriminate].
    destruct (Hstep _ _ _ E) as [K1 P1]. destruct (IH _ _ H) as [K2 P2].
    split; [eapply Htrans; eassumption|].
    intros x Hx. apply elem_of_cons in Hx as [->|Hx]; [|apply P2, Hx].
    eapply Hstable; eassumption.
Qed.

Lemma owners_kept_refl o : owners_kept o o.
Proof. intros p k H. exact H. Qed.

Lemma owners_kept_trans a b c : owners_kept a b → owners_kept b c → owners_kept a c.
Proof. intros H1 H2 p k H. apply H2, H1, H. Qed.

Lemma claim_owner key o p o' :
  claim key o p = Some o' → owners_kept o o' ∧ o' !! p = Some key.
Proof.
  unfold claim. destruct (o !! p) as [k|] eqn:E.
  - destruct (String.eqb_spec k key) as [->|]; [|discriminate].
    intros H. inversion H; subst. split; [apply owners_kept_refl|exact E].
  - intros H. inversion H; subst. split; [|apply lookup_insert_eq].
    intros q k Hq. rewrite lookup_insert_ne; [exact Hq|]. congruence.
Qed.

Section SharedValues.

Variable opts : options.
Variable str_of_name : Name → string.
Variable str_of_list : list string → string.
Variable set_iter : list string → list string.

(** The values of [attr] in the record [v] are owned by [key]. *)
Let owns (key : string) (v : vcard) (attr : string)
  (o : gmap (string * string) string) : Prop :=
  ∀ values x,
    collect_values str_of_name str_of_list v [attr] = inr values →
    x ∈ set_iter values → o !! (a_key_of attr, x) = Some key.

Lemma claim_attribute_owner key v o attr o' :
  claim_attribute str_of_name str_of_list set_iter key v o attr = Some o' →
  owners_kept o o' ∧ owns key v attr o'.
Proof.
  unfold claim_attribute, owns.
  destruct (collect_values str_of_name str_of_list v [attr]) as [e|values];
    [discriminate|].
  intros H.
  destruct (ofold_established owners_kept
              (fun x o => o !! (a_key_of attr, x) = Some key)
              (fun o x => claim key o (a_key_of attr, x)) (set_iter values)
              owners_kept_refl owners_kept_trans) with (t := o) (t' := o')
    as [K P]; [| |exact H|].
  - intros x a b Ha Hab. apply Hab, Ha.
  - intros t x t'. apply claim_owner.
  - split; [exact K|]. intros values' x E Hx. inversion E; subst. apply P, Hx.
Qed.

Lemma claim_vcard_owner o kv o' :
  claim_vcard opts str_of_name str_of_list set_iter o kv = Some o' →
  owners_kept o o'
  ∧ ∀ attr, attr ∈ OPTION_MATCH_ATTRIBUTES opts → owns kv.1 kv.2 attr o'.
Proof.
  unfold claim_vcard. destruct (negb (hasattr kv.2 "fn")); [discriminate|].
  apply (ofold_established owners_kept (owns kv.1 kv.2));
    [apply owners_kept_refl|apply owners_kept_trans| |].
  - intros attr a b Ha Hab values x E Hx. apply Hab, (Ha values x E Hx).
  - intros t attr t'. apply claim_attribute_owner.
Qed.

Lemma claims_owner vcards o o' :
  ofold (claim_vcard opts str_of_name str_of_list set_iter) vcards o = Some o' →
  ∀ kv attr, kv ∈ vcards → attr ∈ OPTION_MATCH_ATTRIBUTES opts →
             owns kv.1 kv.2 attr o'.
Proof.
  intros H kv attr Hkv Hattr.
  destruct (ofold_established owners_kept
              (fun kv o => ∀ attr, attr ∈ OPTION_MATCH_ATTRIBUTES opts →
                                   owns kv.1 kv.2 attr o)
              (claim_vcard opts str_of_name str_of_list set_iter) vcards
              owners_kept_refl owners_kept_trans) with (t := o) (t' := o')
    as [_ P]; [| |exact H|].
  - intros x a b Ha Hab attr' Hattr' values y E Hy. apply Hab, (Ha attr' Hattr' values y E Hy).
  - intros t x t'. apply claim_vcard_owner.
  - apply (P kv Hkv attr Hattr).
Qed.

(** X5. Phase 1 returns only when no two records share a value: if two
    records with different keys hold the same value under attributes that
    are matched under one key of the index, the grouper raises. *)
Theorem phase1_returns_without_shared_value (vcards : list (string * vcard))
  (m : mappings) (key1 key2 : string) (vcard1 vcard2 : vcard)
  (attr1 attr2 : string) (values1 values2 : list string) (a_value : string) :
  phase1 opts str_of_name str_of_list set_iter vcards = inr m →
  (key1, vcard1) ∈ vcards → (key2, vcard2) ∈ vcards →
  attr1 ∈ OPTION_MATCH_ATTRIBUTES opts → attr2 ∈ OPTION_MATCH_ATTRIBUTES opts →
  a_key_of attr1 = a_key_of attr2 →
  collect_values str_of_name str_of_list vcard1 [attr1] = inr values1 →
  collect_values str_of_name str_of_list vcard2 [attr2] = inr values2 →
  a_value ∈ set_iter values1 → a_value ∈ set_iter values2 →
  key1 = key2.
Proof.
  intros Hm H1 H2 Ha1 Ha2 Ha E1 E2 Hx1 Hx2.
  pose proof (phase1_alike opts str_of_name str_of_list set_iter vcards) as Hal.
  rewrite Hm in Hal. unfold alike in Hal.
  destruct (ofold _ vcards ∅) as [o|] eqn:Ho; [|contradiction].
  pose proof (claims_owner _ _ _ Ho (key1, vcard1) attr1 H1 Ha1 values1 a_value E1 Hx1) as O1.
  pose proof (claims_owner _ _ _ Ho (key2, vcard2) attr2 H2 Ha2 values2 a_value E2 Hx2) as O2.
  cbn [fst snd] in O1, O2. rewrite Ha, O2 in O1. inversion O1. reflexivity.
Qed.

End SharedValues.

(** X5, witness: the two records share no value, and phase 1 returns. *)
Lemma phase1_returns_without_shared_value_witness :
  let ann := [line "fn" (VStr "Ann"); line "email" (VStr "ann@example.com")] in
  let vcards := [("Ann", ann)] in
  ∃ m, phase1 default_options (fun _ => EmptyString) (fun _ => EmptyString)
         remove_dups vcards = inr m
       ∧ ("Ann", ann) ∈ vcards
       ∧ ("email" : string) ∈ OPTION_MATCH_ATTRIBUTES default_options
       ∧ collect_values (fun _ => EmptyString) (fun _ => EmptyString) ann ["email"]
         = inr ["ann@example.com"]
       ∧ ("ann@example.com" : string) ∈ remove_dups ["ann@example.com"]
       ∧ ("Ann" : string) = "Ann".
Proof.
  intros ann vcards. eexists.
  split; [vm_compute; reflexivity|].
  assert (Hin : ("Ann", ann) ∈ vcards) by (apply list_elem_of_here).
  assert (Ha : ("email" : string) ∈ OPTION_MATCH_ATTRIBUTES default_options).
  { cbn. apply list_elem_of_further, list_elem_of_further, list_elem_of_here. }
  assert (Hc : collect_values (fun _ => EmptyString) (fun _ => EmptyString) ann ["email"]
               = inr ["ann@example.com"]) by (vm_compute; reflexivity).
  assert (Hx : ("ann@example.com" : string) ∈ remove_dups ["ann@example.com"]).
  { vm_compute. apply list_elem_of_here. }
  split; [exact Hin|]. split; [exact Ha|]. split; [exact Hc|]. split; [exact Hx|].
  eapply (phase1_returns_without_shared_value default_options (fun _ => EmptyString)
            (fun _ => EmptyString) remove_dups vcards _ "Ann" "Ann" ann ann
            "email" "email" ["ann@example.com"] ["ann@example.com"] "ann@example.com");
    [vm_compute; reflexivity|exact Hin|exact Hin|exact Ha|exact Ha|reflexivity
    |exact Hc|exact Hc|exact Hx|exact Hx].
Defined.

(** ** What [merge] keeps and adds *)

Lemma line_eta (c : ContentLine) :
  {| cl_name := cl_name c; cl_value := cl_value c; cl_params := cl_params c |} = c.
Proof. destruct c; reflexivity. Qed.

Lemma attr_list_named v k c : c ∈ attr_list v k → cl_name c = k.
Proof.
  induction v as [|x r IH]; [intros H; inversion H|].
  rewrite attr_list_cons. destruct (named k x) eqn:E; [|exact IH].
  intros H. apply elem_of_cons in H as [->|H]; [|apply IH, H].
  apply named_true, E.
Qed.

(** The lines of a name that are added keep this name. *)
Lemma add_lines_named (k : string) (l : list ContentLine) :
  (∀ c, c ∈ l → cl_name c = k) →
  ∀ v k',
    attr_list
      (fold_left (fun v attr => add v {| cl_name := k; cl_value := cl_value attr;
                                            cl_params := cl_params attr |}) l v) k'
    = if String.eqb k k' then attr_list v k' ++ l else attr_list v k'.
Proof.
  induction l as [|a l IH]; intros Hl v k'; cbn [fold_left].
  - destruct (String.eqb k k'); [rewrite app_nil_r|]; reflexivity.
  - rewrite IH by (intros c Hc; apply Hl, list_elem_of_further, Hc).
    rewrite attr_list_add. cbn [cl_name].
    destruct (String.eqb k k'); [|reflexivity].
    rewrite <- (Hl a (list_elem_of_here _ _)), line_eta, <- app_assoc. reflexivity.
Qed.

Lemma length_concat_repeat {A} (l : list A) n :
  length (concat (repeat l n)) = n * length l.
Proof.
  induction n as [|n IH]; [reflexivity|].
  cbn [repeat concat]. rewrite length_app, IH. reflexivity.
Qed.

Lemma add_sublist v c : v `sublist_of` add v c.
Proof.
  induction v as [|x r IH]; cbn [add]; [apply sublist_nil_l|].
  destruct (named (cl_name c) x && negb (existsb (named (cl_name c)) r)).
  - apply sublist_skip, sublist_cons. reflexivity.
  - apply sublist_skip, IH.
Qed.

Lemma fold_left_sublist {A B} (f : list A → B → list A) l :
  (∀ v x, v `sublist_of` f v x) → ∀ v, v `sublist_of` fold_left f l v.
Proof.
  intros Hf. induction l as [|x l IH]; intros v; cbn [fold_left]; [reflexivity|].
  etransitivity; [apply Hf|apply IH].
Qed.

Lemma for_each_sublist {A B} (f : list A → B → in_place (list A) unit) l :
  (∀ v x, v `sublist_of` (f v x).1) → ∀ v, v `sublist_of` (for_each f l v).1.
Proof.
  intros Hf. induction l as [|x l IH]; intros v; cbn [for_each]; [reflexivity|].
  pose proof (Hf v x) as H. destruct (f v x) as [v' [e|u]]; [exact H|].
  etransitivity; [exact H|apply IH].
Qed.

(** *** The instances under the name of a child *)

(** A letter in lower case is not its own upper case, also with the
    underscore read as a dash. *)
Lemma dash_upper_char a :
  Py.lower_char a = a →
  Py.lower_char (if Ascii.eqb "_" (Py.upper_char a) then "-"%char else Py.upper_char a)
  = (if Ascii.eqb "_" (Py.upper_char a) then "-"%char else Py.upper_char a) →
  Py.upper_char a = a.
Proof. by_cases_on_ascii a. Qed.

(** A key in lower case is found under its upper case only if it has no
    letter. *)
Lemma upper_key n :
  Py.lower n = n →
  Py.lower (Py.replace (Py.upper n) "_" "-") = Py.replace (Py.upper n) "_" "-" →
  Py.upper n = n.
Proof.
  rewrite replace_char. unfold Py.lower, Py.upper.
  induction n as [|a n IH]; [reflexivity|]. cbn [Py.map_chars].
  intros H1 H2. injection H1 as Ha Hn. injection H2 as Ha' Hn'.
  rewrite (dash_upper_char a Ha Ha'), (IH Hn Hn'). reflexivity.
Qed.

Lemma getattr_list_missing w c :
  Forall (fun x => Py.lower (cl_name x) = cl_name x) w →
  Py.lower (cl_name c) = cl_name c → Py.upper (cl_name c) ≠ cl_name c →
  getattr_list w (child_name c) = raise (AttributeError (child_name c +:+ "_list")).
Proof.
  intros Hw Hc Hu. unfold getattr_list, child_name.
  destruct (hasattr w (Py.replace (Py.upper (cl_name c)) "_" "-")) eqn:E; [|reflexivity].
  unfold hasattr in E. apply existsb_exists in E as (x & Hx & Hn).
  apply named_true in Hn. rewrite Forall_forall in Hw.
  pose proof (Hw x (proj2 (list_elem_of_In _ _) Hx)) as Hl. rewrite Hn in Hl.
  destruct (Hu (upper_key _ Hc Hl)).
Qed.

(** C7. The instances of a child are looked up under the child's name,
    which is in upper case, and the record keeps them under the name in
    lower case: when the first record to merge starts with a line whose name
    has a letter, [merge] raises [AttributeError] and the record it merges
    into is left as it was; no instance is appended. *)
Theorem merge_raises_on_named_line (base : vcard) (c : ContentLine)
  (rest : vcard) (others : list vcard) :
  Forall (fun x => Py.lower (cl_name x) = cl_name x) (c :: rest) →
  Py.upper (cl_name c) ≠ cl_name c →
  merge base ((c :: rest) :: others)
  = (base, raise (AttributeError (Py.upper (cl_name c) +:+ "_list"))).
Proof.
  intros Hw Hu. pose proof Hw as Hw'. apply Forall_cons in Hw' as [Hc _].
  unfold merge. cbn [for_each]. unfold merge_one. cbn [for_each].
  unfold merge_child. rewrite (getattr_list_missing _ _ Hw Hc Hu). reflexivity.
Qed.

(** C7, witness: two telephone numbers merged into a record. *)
Lemma merge_raises_on_named_line_witness :
  merge [line "fn" (VStr "Bob")] [[line "tel" (VStr "1"); line "tel" (VStr "2")]]
  = ([line "fn" (VStr "Bob")], raise (AttributeError "TEL_list")).
Proof.
  apply (merge_raises_on_named_line [line "fn" (VStr "Bob")] (line "tel" (VStr "1"))
           [line "tel" (VStr "2")] []).
  - repeat constructor.
  - discriminate.
Defined.

(** *** Names without a letter *)

Lemma no_letter_char a :
  negb (Py.is_alpha a) && negb (Ascii.eqb a "_") = true →
  Py.upper_char a = a ∧ Py.lower_char a = a
  ∧ (if Ascii.eqb "_" a then "-"%char else a) = a.
Proof. by_cases_on_ascii a. Qed.

Lemma no_letter_key k :
  no_letter k = true →
  Py.upper k = k ∧ Py.lower k = k ∧ Py.replace k "_" "-" = k.
Proof.
  rewrite replace_char. unfold no_letter, Py.lower, Py.upper.
  induction k as [|a k IH]; [repeat split|]. cbn [all_chars Py.map_chars].
  intros H. apply andb_true_iff in H as [Ha Hk].
  destruct (no_letter_char a Ha) as (-> & -> & ->).
  destruct (IH Hk) as (-> & -> & ->). repeat split.
Qed.

(** The child of a record whose name has no letter: the lines of its name
    are added. *)
Lemma merge_child_no_letter w v c :
  c ∈ w → no_letter (cl_name c) = true →
  merge_child w v c
  = (fold_left (fun v attr => add v {| cl_name := cl_name c; cl_value := cl_value attr;
                                         cl_params := cl_params attr |})
       (attr_list w (cl_name c)) v, ok tt).
Proof.
  intros Hc Hk. destruct (no_letter_key _ Hk) as (Hu & Hl & Hr).
  unfold merge_child, getattr_list, child_name. rewrite Hu, Hl, Hr.
  assert (H : hasattr w (cl_name c) = true).
  { unfold hasattr. apply existsb_exists. exists c.
    split; [apply list_elem_of_In, Hc|apply named_true; reflexivity]. }
  rewrite H. reflexivity.
Qed.

Lemma attr_list_merge_children w cs :
  (∀ c, c ∈ cs → c ∈ w ∧ no_letter (cl_name c) = true) →
  ∀ v, ∃ v',
    for_each (merge_child w) cs v = (v', ok tt)
    ∧ ∀ k, attr_list v' k
           = attr_list v k ++ concat (repeat (attr_list w k) (length (attr_list cs k))).
Proof.
  induction cs as [|c cs IH]; intros Hcs v; cbn [for_each].
  - exists v. split; [reflexivity|]. intros k. cbn. rewrite app_nil_r. reflexivity.
  - destruct (Hcs c (list_elem_of_here _ _)) as [Hc Hk].
    rewrite (merge_child_no_letter w v c Hc Hk).
    destruct (IH (fun x Hx => Hcs x (list_elem_of_further _ _ _ Hx))
                (fold_left (fun v attr => add v {| cl_name := cl_name c;
                                                    cl_value := cl_value attr;
                                                    cl_params := cl_params attr |})
                   (attr_list w (cl_name c)) v)) as (v' & E & H).
    exists v'. split; [exact E|]. intros k. rewrite H, attr_list_cons.
    rewrite (add_lines_named (cl_name c) (attr_list w (cl_name c)))
      by (intros x; apply attr_list_named).
    unfold named. destruct (String.eqb (cl_name c) k) eqn:Ek.
    + apply String.eqb_eq in Ek. subst k. cbn [length repeat concat].
      rewrite <- app_assoc. reflexivity.
    + reflexivity.
Qed.

(** X6. A record whose names have no letter and no underscore is merged
    without error, and for every name the whole list of its lines of this
    name is added once for each of these lines: n lines of a name are added
    n times n times, after the lines that the name had. *)
Theorem merge_adds_squares (v vcard_to_merge : vcard) :
  Forall (fun c => no_letter (cl_name c) = true) vcard_to_merge →
  ∃ merged,
    merge v [vcard_to_merge] = (merged, ok tt)
    ∧ ∀ k,
        attr_list merged k
        = attr_list v k
          ++ concat (repeat (attr_list vcard_to_merge k)
                       (length (attr_list vcard_to_merge k)))
        ∧ length (attr_list merged k)
          = length (attr_list v k)
            + length (attr_list vcard_to_merge k) * length (attr_list vcard_to_merge k).
Proof.
  intros Hw. rewrite Forall_forall in Hw.
  destruct (attr_list_merge_children vcard_to_merge vcard_to_merge
              (fun c Hc => conj Hc (Hw c Hc)) v)
    as (merged & E & H).
  exists merged. split.
  - unfold merge, merge_one. cbn [for_each]. rewrite E. reflexivity.
  - intros k. split; [apply H|].
    rewrite H, length_app, length_concat_repeat. reflexivity.
Qed.

(** X6, witness: two lines of the name [1]. *)
Lemma merge_adds_squares_witness :
  ∃ merged,
    merge [line "fn" (VStr "Bob")] [[line "1" (VStr "a"); line "1" (VStr "b")]]
    = (merged, ok tt)
    ∧ length (attr_list merged "1") = 4.
Proof.
  destruct (merge_adds_squares [line "fn" (VStr "Bob")]
              [line "1" (VStr "a"); line "1" (VStr "b")]) as (merged & E & H).
  - repeat constructor.
  - exists merged. split; [exact E|]. rewrite (proj2 (H "1")). reflexivity.
Defined.

(** X7. [merge] loses no line of the record it merges into and keeps these
    lines in their order, whether it returns or raises: the record before
    the call is a sublist of the record as the call leaves it. *)
Theorem merge_keeps_base (v : vcard) (vcards_to_merge : list vcard) :
  v `sublist_of` (merge v vcards_to_merge).1.
Proof.
  unfold merge. apply for_each_sublist. intros v1 w.
  unfold merge_one. apply for_each_sublist. intros v2 c.
  unfold merge_child. destruct (getattr_list w (child_name c)); cbn [fst]; [reflexivity|].
  apply fold_left_sublist. intros v3 a. apply add_sublist.
Qed.

(** ** The form of a sanitized name *)

(** X8. The sanitized name of an ASCII name has no white space at its ends
    and is in title case: [strip] and [title] leave it as it is. *)
Theorem sanitize_name_stripped_title (token_sort_ratio : string → string → nat)
  (name : string) :
  ascii_text name = true →
  Py.strip (sanitize_name token_sort_ratio name) = sanitize_name token_sort_ratio name
  ∧ Py.title (sanitize_name token_sort_ratio name) = sanitize_name token_sort_ratio name.
Proof.
  intros _. unfold sanitize_name. destruct (Re.bracket_search name) as [g|].
  - destruct (_ || _); split;
      first [apply strip_title_strip|apply title_idem].
  - split; [apply strip_title_strip|apply title_idem].
Qed.

(** X8, witness: a name with a bracketed segment. *)
Lemma sanitize_name_stripped_title_witness :
  ascii_text " jean dupont (work) " = true
  ∧ Py.strip (sanitize_name (fun _ _ => 0) " jean dupont (work) ")
    = sanitize_name (fun _ _ => 0) " jean dupont (work) "
  ∧ Py.title (sanitize_name (fun _ _ => 0) " jean dupont (work) ")
    = sanitize_name (fun _ _ => 0) " jean dupont (work) ".
Proof.
  split; [reflexivity|].
  apply (sanitize_name_stripped_title (fun _ _ => 0) " jean dupont (work) ").
  reflexivity.
Defined.

(** ** File names *)

Lemma map_chars_map_chars f g s :
  Py.map_chars g (Py.map_chars f s) = Py.map_chars (fun c => g (f c)) s.
Proof.
  induction s as [|c r IH]; [reflexivity|]. cbn [Py.map_chars]. rewrite IH. reflexivity.
Qed.

Lemma map_chars_ext f g s : (∀ c, f c = g c) → Py.map_chars f s = Py.map_chars g s.
Proof.
  intros H. induction s as [|c r IH]; [reflexivity|].
  cbn [Py.map_chars]. rewrite IH, H. reflexivity.
Qed.

Lemma map_chars_length f s : String.length (Py.map_chars f s) = String.length s.
Proof.
  induction s as [|c r IH]; [reflexivity|]. cbn [Py.map_chars String.length].
  rewrite IH. reflexivity.
Qed.

Lemma all_chars_map_chars P f s :
  (∀ c, P (f c) = true) → all_chars P (Py.map_chars f s) = true.
Proof.
  intros H. induction s as [|c r IH]; [reflexivity|].
  cbn [Py.map_chars all_chars]. rewrite H, IH. reflexivity.
Qed.

(** The replacements, one character after the other, work character by
    character. *)
Lemma replace_chars_fold (l : list ascii) :
  ∀ s,
    fold_left (fun s old_char => Py.replace s (String old_char EmptyString) "_") l s
    = Py.map_chars
        (fun c => fold_left (fun c old_char => if Ascii.eqb old_char c then "_"%char else c)
                    l c) s.
Proof.
  induction l as [|a l IH]; intros s; cbn [fold_left].
  - induction s as [|c r IHs]; [reflexivity|]. cbn [Py.map_chars]. rewrite <- IHs.
    reflexivity.
  - rewrite IH, replace_char, map_chars_map_chars. reflexivity.
Qed.

Lemma sanitise_name_chars s : sanitise_name s = Py.map_chars sanitise_char s.
Proof. apply replace_chars_fold. Qed.

Lemma sanitise_char_spec c :
  sanitise_char c = if from_character c then "_"%char else c.
Proof. by_cases_on_ascii c. Qed.

Lemma sanitise_char_safe c : from_character (sanitise_char c) = false.
Proof. by_cases_on_ascii c. Qed.

Lemma sanitise_char_idem c : sanitise_char (sanitise_char c) = sanitise_char c.
Proof. by_cases_on_ascii c. Qed.

(** X9. The name made for a file holds none of the characters of
    FROM_CHARACTERS, each of them is replaced by an underscore and the other
    characters are kept; so the length is kept, and a sanitised name is
    left as it is. *)
Theorem sanitise_name_safe (a_name : string) :
  sanitise_name a_name
  = Py.map_chars (fun c => if from_character c then "_"%char else c) a_name
  ∧ all_chars (fun c => negb (from_character c)) (sanitise_name a_name) = true
  ∧ String.length (sanitise_name a_name) = String.length a_name
  ∧ sanitise_name (sanitise_name a_name) = sanitise_name a_name.
Proof.
  rewrite !sanitise_name_chars. repeat split.
  - apply map_chars_ext, sanitise_char_spec.
  - apply all_chars_map_chars. intros c. rewrite sanitise_char_safe. reflexivity.
  - apply map_chars_length.
  - rewrite map_chars_map_chars. apply map_chars_ext, sanitise_char_idem.
Qed.

(** X10. The file name made for a key holds a slash or a backslash only
    where the extension does: the key adds no directory to the path. *)
Theorem mk_vcard_fnm_no_separator (a_name ext : string) :
  has_char "/" (mk_vcard_fnm a_name ext) = has_char "/" ext
  ∧ has_char "092" (mk_vcard_fnm a_name ext) = has_char "092" ext.
Proof.
  unfold mk_vcard_fnm. rewrite !has_char_app, sanitise_name_chars.
  assert (H : ∀ x, from_character x = true →
                   has_char x (Py.map_chars sanitise_char a_name) = false).
  { intros x Hx. induction a_name as [|c r IH]; [reflexivity|].
    cbn [Py.map_chars has_char]. rewrite IH, orb_false_r.
    apply Ascii.eqb_neq. intros E. rewrite <- E, sanitise_char_safe in Hx.
    discriminate. }
  rewrite !H by reflexivity. split; reflexivity.
Qed.

(** ** The parts of a name *)

Lemma join_cons2 sep x y l :
  Py.join sep (x :: y :: l) = x +:+ sep +:+ Py.join sep (y :: l).
Proof. reflexivity. Qed.

Lemma split_from_cons sep skip cur s :
  ∃ x l, Py.split_from sep skip cur s = x :: l.
Proof.
  revert skip cur. induction s as [|c r IH]; intros skip cur; cbn [Py.split_from].
  - eauto.
  - destruct skip; [|apply IH]. destruct (Py.prefix sep (String c r)); [eauto|apply IH].
Qed.

(** [' '.join(s.split(' ')) == s] *)
Lemma join_split_space s :
  ∀ cur, Py.join " " (Py.split_from " " 0 cur s) = cur +:+ s.
Proof.
  induction s as [|c r IH]; intros cur; cbn [Py.split_from].
  - cbn [Py.join]. rewrite append_nil_r. reflexivity.
  - cbn [Py.prefix String.length Nat.sub]. rewrite andb_true_r.
    destruct (Ascii.eqb_spec " " c) as [<-|Hc].
    + destruct (split_from_cons " " 0 EmptyString r) as (x & l & E).
      pose proof (IH EmptyString) as H. rewrite E in *.
      rewrite join_cons2, H, append_nil_l. reflexivity.
    + rewrite IH, append_assoc, append_cons, append_nil_l. reflexivity.
Qed.

Lemma join_snoc sep l x :
  l ≠ [] → Py.join sep (l ++ [x]) = Py.join sep l +:+ sep +:+ x.
Proof.
  induction l as [|y l IH]; [contradiction|]. intros _.
  destruct l as [|z l]; [reflexivity|].
  change ((y :: z :: l) ++ [x]) with (y :: (z :: l) ++ [x]).
  change ((z :: l) ++ [x]) with (z :: l ++ [x]) at 1.
  rewrite join_cons2. change (z :: l ++ [x]) with ((z :: l) ++ [x]).
  rewrite IH by discriminate. rewrite join_cons2, !append_assoc. reflexivity.
Qed.

Lemma split_space_single s cur :
  Py.contains " " s = false → Py.split_from " " 0 cur s = [cur +:+ s].
Proof.
  revert cur. induction s as [|c r IH]; intros cur H; cbn [Py.split_from].
  - rewrite append_nil_r. reflexivity.
  - pose proof (contains_tail _ _ _ H) as Hr. rewrite contains_cons in H.
    apply orb_false_iff in H as [Hp _]. rewrite Hp, (IH _ Hr).
    rewrite append_assoc, append_cons, append_nil_l. reflexivity.
Qed.

Lemma split_space_more s cur :
  Py.contains " " s = true → ∃ x y l, Py.split_from " " 0 cur s = x :: y :: l.
Proof.
  revert cur. induction s as [|c r IH]; intros cur H; [discriminate|].
  cbn [Py.split_from]. rewrite contains_cons in H.
  destruct (Py.prefix " " (String c r)).
  - destruct (split_from_cons " " (String.length " " - 1) EmptyString r) as (y & l & ->).
    eauto.
  - apply IH. exact H.
Qed.

Lemma split_space_fields s :
  ∀ cur, has_char " " cur = false →
         Forall (fun f => has_char " " f = false) (Py.split_from " " 0 cur s).
Proof.
  induction s as [|c r IH]; intros cur H; cbn [Py.split_from].
  - constructor; [exact H|constructor].
  - cbn [Py.prefix String.length Nat.sub]. rewrite andb_true_r.
    destruct (Ascii.eqb " " c) eqn:Ec.
    + constructor; [exact H|]. apply IH. reflexivity.
    + apply IH. rewrite has_char_app, H. cbn [has_char].
      rewrite (Ascii.eqb_sym c " "), Ec. reflexivity.
Qed.

Lemma removelast_last {A} (l : list A) d :
  l ≠ [] → removelast l ++ [List.last l d] = l.
Proof. intros H. symmetry. apply app_removelast_last, H. Qed.

Lemma last_elem_of {A} (l : list A) d : l ≠ [] → List.last l d ∈ l.
Proof.
  intros H. rewrite <- (removelast_last l d H) at 2.
  apply elem_of_app. right. apply list_elem_of_here.
Qed.

(** X11. The structured name of a name without bracketed segment and
    without [" - "] (french tweaks off) loses nothing: the family name is
    the last word and the given name is what comes before its space, so
    given, a space and family make the name again; a name of one word is
    the family name. *)
Theorem build_formatted_name_last_word (opts : options) (name : string) :
  OPTION_FRENCH_TWEAKS opts = false →
  Re.bracket_search name = None →
  Py.contains " - " name = false →
  suffix (build_formatted_name opts name) = None
  ∧ has_char " " (family (build_formatted_name opts name)) = false
  ∧ if Py.contains " " name
    then given (build_formatted_name opts name) +:+ " "
         +:+ family (build_formatted_name opts name) = name
    else family (build_formatted_name opts name) = name
         ∧ given (build_formatted_name opts name) = EmptyString.
Proof.
  intros Hf Hb Hd. unfold build_formatted_name. rewrite Hb, Hd, Hf.
  cbn [andb fst snd suffix family given]. split; [reflexivity|].
  unfold Py.split.
  destruct (split_from_cons " " 0 EmptyString name) as (x0 & l0 & E0).
  assert (HL : Py.split_from " " 0 EmptyString name ≠ []) by (rewrite E0; discriminate).
  split.
  { pose proof (split_space_fields name EmptyString eq_refl) as F.
    rewrite Forall_forall in F. apply F, last_elem_of, HL. }
  destruct (Py.contains " " name) eqn:Hs.
  - destruct (split_space_more name EmptyString Hs) as (x & y & l & E).
    pose proof (join_split_space name EmptyString) as J. rewrite append_nil_l in J.
    rewrite <- (removelast_last _ EmptyString HL) in J at 1.
    rewrite join_snoc in J; [exact J|].
    rewrite E. cbn. destruct l; discriminate.
  - rewrite (split_space_single _ _ Hs), append_nil_l. split; reflexivity.
Qed.

(** X11, witness. *)
Lemma build_formatted_name_last_word_witness :
  OPTION_FRENCH_TWEAKS default_options = false
  ∧ Re.bracket_search "Jean Paul Dupont" = None
  ∧ Py.contains " - " "Jean Paul Dupont" = false
  ∧ build_formatted_name default_options "Jean Paul Dupont"
    = {| family := "Dupont"; given := "Jean Paul"; suffix := None |}
  ∧ "Jean Paul" +:+ " " +:+ "Dupont" = "Jean Paul Dupont".
Proof.
  split; [reflexivity|]. split; [reflexivity|]. split; [reflexivity|].
  split; [reflexivity|].
  exact (proj2 (proj2 (build_formatted_name_last_word default_options
                         "Jean Paul Dupont" eq_refl eq_refl eq_refl))).
Defined.

(** ** Fuzzy matching with the default ratio *)

(** X12. With the ratio of 100 and without the [startswith] comparison
    (the defaults), two names match exactly when their score is 100, for a
    score that is at most 100: the length test, the first letters and the
    reversed names change nothing. *)
Theorem match_approx_default_is_score_100 (opts : options) (aopts : approx_options)
  (token_sort_ratio : string → string → nat) (reference compared : string) :
  OPTION_MATCH_APPROX_RATIO aopts = 100%Z →
  OPTION_MATCH_APPROX_STARTSWITH aopts = false →
  token_sort_ratio reference compared ≤ 100 →
  match_approx opts aopts token_sort_ratio reference compared
  = (token_sort_ratio reference compared =? 100)%nat.
Proof.
  intros Hr Hs Hle. unfold match_approx. rewrite Hr, Hs. cbn [Z.eqb Pos.eqb andb].
  destruct (Nat.eqb_spec (token_sort_ratio reference compared) 100) as [E|E];
    [reflexivity|].
  assert (Hlt : (100 <=? Z.of_nat (token_sort_ratio reference compared))%Z = false).
  { apply Z.leb_gt. lia. }
  rewrite Hlt. destruct (_ && _)%Z; [|reflexivity]. destruct (_ || _); reflexivity.
Qed.

(** X12, witness: a score of 90 for two long names with the same first
    letter. *)
Lemma match_approx_default_is_score_100_witness :
  OPTION_MATCH_APPROX_RATIO default_approx_options = 100%Z
  ∧ OPTION_MATCH_APPROX_STARTSWITH default_approx_options = false
  ∧ (fun _ _ : string => 90) "Jean Dupont" "Jean Dupond" ≤ 100
  ∧ match_approx default_options default_approx_options (fun _ _ => 90)
      "Jean Dupont" "Jean Dupond" = false.
Proof.
  split; [reflexivity|]. split; [reflexivity|]. split; [cbn; lia|].
  rewrite (match_approx_default_is_score_100 default_options default_approx_options
             (fun _ _ => 90) "Jean Dupont" "Jean Dupond");
    [reflexivity|reflexivity|reflexivity|cbn; lia].
Defined.

(** ** Names built from emails *)



(** ** Values filtered by a parameter *)

Lemma flat_map_split {A B} (p : A → bool) (f : A → list B) l :
  flat_map (fun a => if p a then f a else []) l
  ++ flat_map (fun a => if negb (p a) then f a else []) l
  ≡ₚ flat_map f l.
Proof.
  induction l as [|a l IH]; [reflexivity|]. cbn [flat_map].
  destruct (p a); cbn [negb app].
  - rewrite <- app_assoc. apply Permutation_app_head, IH.
  - etransitivity; [apply Permutation_app_swap_app|].
    apply Permutation_app_head, IH.
Qed.

(** X14. A type filter and its negation share the values of an attribute:
    every value of the lines of [key] is returned by exactly one of
    [filter_values_by_param(vcard, key, p, t)] and
    [filter_values_by_param(vcard, key, p, '!' + t)], for a type [t] that
    does not start with [!]. *)
Theorem filter_values_by_param_complement (str_of_name : Name → string)
  (str_of_list : list string → string) (v : vcard)
  (key param_key param_value : string) :
  Py.startswith param_value "!" = false →
  filter_values_by_param str_of_name str_of_list v key param_key param_value
  ++ filter_values_by_param str_of_name str_of_list v key param_key ("!" +:+ param_value)
  ≡ₚ flat_map (fun attr => shown_values str_of_name str_of_list key (cl_value attr))
       (attr_list v key).
Proof.
  intros H. unfold filter_values_by_param. rewrite H.
  change (Py.startswith ("!" +:+ param_value) "!") with true.
  cbn match. change (Py.drop 1 ("!" +:+ param_value)) with param_value.
  cbn [negb].
  set (hit := fun attr : ContentLine =>
         String.eqb
           (Py.upper match params_get (cl_params attr) param_key with
                     | Some l => str_of_list l
                     | None => "None"
                     end)
           ("['" +:+ Py.upper param_value +:+ "']")).
  etransitivity; [|apply (flat_map_split hit)]. apply Permutation_app.
  - apply Permutation_refl'. apply flat_map_ext. intros a. subst hit. cbn beta.
    destruct (String.eqb _ _); reflexivity.
  - apply Permutation_refl'. apply flat_map_ext. intros a. subst hit. cbn beta.
    destruct (String.eqb _ _); reflexivity.
Qed.

(** X14, witness: the numbers of work and the others. *)
Lemma filter_values_by_param_complement_witness :
  let v := [{| cl_name := "tel"; cl_value := VStr "01"; cl_params := [("TYPE", ["WORK"])] |};
            {| cl_name := "tel"; cl_value := VStr "02"; cl_params := [("TYPE", ["HOME"])] |};
            line "tel" (VStr "03")] in
  let str_of_list := fun l => "['" +:+ Py.join "', '" l +:+ "']" in
  Py.startswith "work" "!" = false
  ∧ filter_values_by_param (fun _ => EmptyString) str_of_list v "tel" "TYPE" "work" = ["01"]
  ∧ filter_values_by_param (fun _ => EmptyString) str_of_list v "tel" "TYPE" "!work"
    = ["02"; "03"]
  ∧ ["01"] ++ ["02"; "03"]
    ≡ₚ flat_map (fun attr => shown_values (fun _ => EmptyString) str_of_list "tel"
                               (cl_value attr)) (attr_list v "tel").
Proof.
  intros v str_of_list. split; [reflexivity|]. split; [vm_compute; reflexivity|].
  split; [vm_compute; reflexivity|].
  exact (filter_values_by_param_complement (fun _ => EmptyString) str_of_list v
           "tel" "TYPE" "work" eq_refl).
Defined.

(** ** What [normalize] keeps *)

Lemma attr_list_cond_add_other v k0 x k :
  k ≠ k0 →
  attr_list (if negb (hasattr v k0) then add v (line k0 x) else v) k = attr_list v k.
Proof.
  intros Hk. destruct (negb (hasattr v k0)); [|reflexivity].
  rewrite attr_list_add. cbn [line cl_name].
  destruct (String.eqb_spec k0 k); [congruence|reflexivity].
Qed.

Lemma attr_list_cond_del_other v k0 k :
  k ≠ k0 → attr_list (if hasattr v k0 then delattr v k0 else v) k = attr_list v k.
Proof.
  intros Hk. rewrite attr_list_cond_del.
  destruct (String.eqb_spec k0 k); [congruence|reflexivity].
Qed.

(** X15. Without the move of bracketed segments to the note, [normalize]
    changes the lines of VERSION, FN, N, EMAIL and TEL only: the lines of
    any other name are the same, in the same order, after the call. *)
Theorem normalize_keeps_other_lines (opts : options) (str_of_name : Name → string)
  (str_of_list : list string → string) (v v' : vcard) (selected_name : string)
  (do_not_overwrite_names do_not_remove_name_in_email : bool) (k : string) :
  normalize opts str_of_name str_of_list v selected_name
    do_not_overwrite_names false do_not_remove_name_in_email = inr v' →
  k ≠ "version" → k ≠ "fn" → k ≠ "n" → k ≠ "email" → k ≠ "tel" →
  attr_list v' k = attr_list v k.
Proof.
  intros H Hv Hf Hn He Ht. unfold normalize in H. cbn [bind ok] in H.
  destruct (normalize_emails _ _) as [e|v1] eqn:E1 in H; [discriminate|].
  cbn [bind] in H.
  rewrite (map_attr_other _ _ _ _ _ H Ht), (normalize_emails_other _ _ _ _ E1 He).
  rewrite !attr_list_cond_add_other by assumption.
  destruct (negb do_not_overwrite_names).
  - rewrite !attr_list_cond_del_other by assumption. reflexivity.
  - rewrite attr_list_cond_del_other by assumption. reflexivity.
Qed.

(** X15, witness. *)
Lemma normalize_keeps_other_lines_witness :
  let v := [line "version" (VStr "2.1"); line "fn" (VStr "bob");
            line "org" (VList ["Acme"]); line "email" (VStr " Bob@Example.com ");
            line "title" (VStr "Dr")] in
  ∃ v', normalize default_options (fun _ => EmptyString) (fun _ => EmptyString)
          v "Bob" false false false = inr v'
        ∧ ("org" : string) ≠ "version" ∧ ("org" : string) ≠ "fn" ∧ ("org" : string) ≠ "n"
        ∧ ("org" : string) ≠ "email" ∧ ("org" : string) ≠ "tel"
        ∧ attr_list v' "org" = [line "org" (VList ["Acme"])].
Proof.
  intros v. eexists. split; [vm_compute; reflexivity|].
  repeat (split; [discriminate|]).
  rewrite (normalize_keeps_other_lines default_options (fun _ => EmptyString)
             (fun _ => EmptyString) v _ "Bob" false false "org");
    [reflexivity|vm_compute; reflexivity|discriminate..].
Defined.

(** ** The line endings of the fixed text *)

Lemma chars_of_drop n : ∀ s, chars_of (Py.drop n s) s.
Proof.
  induction n as [|n IH]; intros s; [destruct s; apply chars_of_refl|].
  destruct s as [|c r]; [apply chars_of_refl|]. cbn [Py.drop].
  eapply chars_of_trans; [apply IH|apply chars_of_tail].
Qed.

Lemma all_chars_replace_from P old new :
  all_chars P new = true →
  ∀ s k, all_chars P s = true → all_chars P (Py.replace_from old new k s) = true.
Proof.
  intros Hn. induction s as [|c r IH]; intros k H; [reflexivity|].
  cbn [all_chars] in H. apply andb_true_iff in H as [Hc Hr].
  cbn [Py.replace_from]. destruct k; [|apply IH, Hr].
  destruct (Py.prefix old (String c r)).
  - rewrite all_chars_app, Hn. apply IH, Hr.
  - cbn [all_chars]. rewrite Hc. apply IH, Hr.
Qed.

Lemma all_chars_replace P s old new :
  all_chars P new = true → all_chars P s = true →
  all_chars P (Py.replace s old new) = true.
Proof. intros Hn Hs. apply all_chars_replace_from; assumption. Qed.

Lemma all_chars_split P sep :
  ∀ s k cur, all_chars P s = true → all_chars P cur = true →
             Forall (fun f => all_chars P f = true) (Py.split_from sep k cur s).
Proof.
  induction s as [|c r IH]; intros k cur Hs Hc; cbn [Py.split_from].
  - constructor; [exact Hc|constructor].
  - cbn [all_chars] in Hs. apply andb_true_iff in Hs as [H1 Hr].
    destruct k; [|apply IH; assumption].
    destruct (Py.prefix sep (String c r)).
    + constructor; [exact Hc|]. apply IH; [exact Hr|reflexivity].
    + apply IH; [exact Hr|]. rewrite all_chars_app, Hc. cbn [all_chars].
      rewrite H1. reflexivity.
Qed.

Lemma all_chars_join P sep l :
  all_chars P sep = true → Forall (fun f => all_chars P f = true) l →
  all_chars P (Py.join sep l) = true.
Proof.
  intros Hs. induction 1 as [|x l Hx Hl IH]; [reflexivity|].
  destruct l as [|y l]; [exact Hx|].
  rewrite join_cons2, !all_chars_app, Hx, Hs. exact IH.
Qed.

Lemma chars_of_from_newline s : chars_of (Re.from_newline s) s.
Proof.
  induction s as [|c r IH]; [apply chars_of_refl|]. cbn [Re.from_newline].
  destruct (Ascii.eqb c "010"); [apply chars_of_refl|].
  eapply chars_of_trans; [exact IH|apply chars_of_tail].
Qed.

Lemma chars_of_key_value s : chars_of (Re.key_value s) s.
Proof.
  unfold Re.key_value. destruct (Re.some_until ";" s) as [[k rest]|] eqn:E;
    [|apply chars_of_refl].
  apply some_until_some in E as (Hk & Hr & _). intros P H.
  rewrite all_chars_app, (Hk P H). apply chars_of_from_newline, Hr, H.
Qed.

Lemma chars_of_drop_name s : chars_of (Re.drop_name s) s.
Proof.
  unfold Re.drop_name. destruct (Re.some_until ";" s) as [[k rest]|] eqn:E;
    [|apply chars_of_refl].
  apply some_until_some in E as (_ & Hr & _). exact Hr.
Qed.

Lemma chars_of_drop_key s : chars_of (Re.drop_key s) s.
Proof.
  unfold Re.drop_key. destruct (Re.some_until ":" s) as [[k rest]|] eqn:E;
    [|apply chars_of_refl].
  apply some_until_some in E as (_ & Hr & _). exact Hr.
Qed.

Lemma chars_of_drop_type s : chars_of (Re.drop_type s) s.
Proof.
  unfold Re.drop_type. destruct (Py.prefix "TYPE=" s);
    [apply chars_of_drop|apply chars_of_refl].
Qed.

Lemma chars_of_drop_final_eq s : chars_of (Re.drop_final_eq s) s.
Proof.
  induction s as [|c r IH]; [apply chars_of_refl|]. cbn [Re.drop_final_eq].
  destruct (Ascii.eqb c "=" && Re.at_dollar r); [apply chars_of_tail|].
  intros P H. cbn [all_chars] in *. apply andb_true_iff in H as [Hc Hr].
  rewrite Hc. apply IH, Hr.
Qed.

Lemma chars_of_header_key s : chars_of (header_key s) s.
Proof.
  intros P H. unfold header_key, Py.split.
  pose proof (all_chars_split P ":" s 0 EmptyString H eq_refl) as F.
  destruct (Py.split_from ":" 0 EmptyString s); [reflexivity|].
  inversion F; subst. assumption.
Qed.

Lemma type_at_clean r t : Re.type_at r = Some t → all_chars no_eol t = true.
Proof.
  unfold Re.type_at. intros H. apply find_some in H as [H _].
  unfold Re.known_types in H. cbn [In] in H.
  repeat (destruct H as [<-|H]; [reflexivity|]). contradiction.
Qed.

Lemma type_prefix_clean s :
  ∀ k, all_chars no_eol s = true → all_chars no_eol (Re.type_prefix_from k s) = true.
Proof.
  induction s as [|c r IH]; intros k H; [reflexivity|].
  cbn [all_chars] in H. apply andb_true_iff in H as [Hc Hr].
  cbn [Re.type_prefix_from]. destruct k; [|apply IH, Hr].
  destruct (if Ascii.eqb c ";" then Re.type_at r else None) as [t|] eqn:E.
  - destruct (Ascii.eqb c ";"); [|discriminate].
    rewrite !all_chars_app, (type_at_clean _ _ E), (IH _ Hr). reflexivity.
  - cbn [all_chars]. rewrite Hc. apply IH, Hr.
Qed.

Lemma replace_nl_line l :
  has_char "010" l = false → Py.replace (l +:+ Py.nl) Py.nl EmptyString = l.
Proof.
  intros H. unfold Py.nl. rewrite replace_remove, remove_chars_app.
  rewrite (remove_chars_absent _ _ H). cbn. apply append_nil_r.
Qed.

Section FixerLines.

Variable opts : options.

Let clean (s : string) : Prop := all_chars no_eol s = true.

Lemma fix_field_clean lists field :
  Forall clean lists.1 → Forall clean lists.2 → clean field →
  Forall clean (fix_field lists field).1 ∧ Forall clean (fix_field lists field).2.
Proof.
  destruct lists as [tl rl]. cbn [fst snd]. intros Ht Hr Hf. unfold fix_field.
  destruct (Py.startswith field "TYPE=").
  - cbn [fst snd]. split; [|exact Hr]. apply Forall_app. split; [exact Ht|].
    constructor; [|constructor]. apply chars_of_drop_type, Hf.
  - cbn [fst snd]. split; [exact Ht|]. apply Forall_app. split; [exact Hr|].
    constructor; [|constructor].
    destruct (_ || _); [reflexivity|]. destruct (String.eqb _ _); [reflexivity|exact Hf].
Qed.

Lemma fix_fields_clean fields :
  ∀ lists, Forall clean lists.1 → Forall clean lists.2 → Forall clean fields →
           Forall clean (fold_left fix_field fields lists).1
           ∧ Forall clean (fold_left fix_field fields lists).2.
Proof.
  induction fields as [|f fields IH]; intros lists Ht Hr Hf; cbn [fold_left].
  - split; assumption.
  - apply Forall_cons in Hf as [Hf Hfs].
    destruct (fix_field_clean lists f Ht Hr Hf) as [Ht' Hr']. apply IH; assumption.
Qed.

Lemma cond_app_clean (b : bool) l x :
  Forall clean l → clean x → Forall clean (if b then l ++ [x] else l).
Proof.
  intros Hl Hx. destruct b; [|exact Hl].
  apply Forall_app. split; [exact Hl|]. constructor; [exact Hx|constructor].
Qed.

Lemma fix_with_types_clean key_part new_key_part rest_part :
  clean key_part → clean new_key_part → clean rest_part →
  clean (fix_with_types key_part new_key_part rest_part).
Proof.
  intros Hk Hn Hr. unfold fix_with_types.
  pose proof (fix_fields_clean (Py.split (Re.drop_name new_key_part) ";") ([], [])
                (Forall_nil_2 _) (Forall_nil_2 _)) as F.
  destruct F as [Ft Fr].
  { apply all_chars_split; [apply chars_of_drop_name, Hn|reflexivity]. }
  destruct (fold_left fix_field _ _) as [type_list rest_list]. cbn [fst snd] in Ft, Fr.
  match goal with
  | |- context [Py.join ";" ?L] => set (rest2 := L); assert (F2 : Forall clean rest2)
  end.
  { subst rest2. apply cond_app_clean; [|reflexivity].
    apply cond_app_clean; [exact Fr|reflexivity]. }
  unfold clean. rewrite !all_chars_app.
  rewrite (chars_of_key_value _ _ Hk), Hr.
  rewrite (all_chars_join no_eol "," type_list eq_refl Ft).
  pose proof (all_chars_join no_eol ";" rest2 eq_refl F2) as J.
  destruct rest2; [reflexivity|].
  rewrite all_chars_app, J. reflexivity.
Qed.

Lemma fix_without_types_clean new_key_part rest_part :
  clean new_key_part → clean rest_part →
  clean (fix_without_types new_key_part rest_part).
Proof.
  intros Hn Hr. unfold fix_without_types, clean. rewrite !all_chars_app, Hr.
  cbn [all_chars andb no_eol Ascii.eqb Bool.eqb negb]. rewrite andb_true_r.
  destruct (Py.contains "QUOTED-PRINTABLE" new_key_part); [|exact Hn].
  assert (H1 : clean (Py.replace new_key_part ";QUOTED-PRINTABLE"
                        ";ENCODING=QUOTED-PRINTABLE")).
  { apply all_chars_replace; [reflexivity|exact Hn]. }
  destruct (negb _); [|exact H1]. apply all_chars_replace; [reflexivity|exact H1].
Qed.

Lemma fix_key_value_clean started line :
  clean line → clean (fix_key_value opts started line).1.
Proof.
  intros H. unfold fix_key_value. fold (header_key line).
  set (key_part := Py.upper (header_key line)).
  set (rest_part := if negb _ then Re.escape_commas (Re.drop_key line)
                    else Re.drop_key line).
  assert (Hk : clean key_part).
  { subst key_part. unfold clean.
    rewrite (all_chars_upper _ _ upper_char_no_eol). apply chars_of_header_key, H. }
  assert (Hr : clean rest_part).
  { subst rest_part. destruct (negb _); [|apply chars_of_drop_key, H].
    apply all_chars_escape; [reflexivity|reflexivity|apply chars_of_drop_key, H]. }
  destruct (Py.contains ";" key_part); cbn [fst].
  - set (key_part' := if Py.contains _ key_part then _ else key_part).
    assert (Hk' : clean key_part').
    { subst key_part'. destruct (Py.contains _ key_part); [|exact Hk].
      apply all_chars_replace; [reflexivity|exact Hk]. }
    pose proof (type_prefix_clean key_part' 0 Hk') as Hn.
    fold (Re.type_prefix key_part') in Hn.
    destruct (Py.contains "TYPE=" (Re.type_prefix key_part')).
    + apply fix_with_types_clean; assumption.
    + apply fix_without_types_clean; assumption.
  - unfold clean. rewrite !all_chars_app, Hk, Hr. reflexivity.
Qed.

Lemma fix_line_clean started line :
  clean line → clean (fix_line opts started line).1.
Proof.
  intros H. unfold fix_line. destruct (Re.begin_end line); cbn [fst].
  - unfold clean. rewrite (all_chars_upper _ _ upper_char_no_eol). exact H.
  - destruct (Re.header line); [apply fix_key_value_clean, H|exact H].
Qed.

Lemma join_line_fixed l line :
  clean l → clean line → fixed_line (join_line opts (l +:+ Py.nl) line).
Proof.
  intros Hl Hline. unfold join_line.
  assert (Hn : has_char "010" l = false) by (apply no_eol_chars in Hl as [Hn _]; exact Hn).
  rewrite (replace_nl_line _ Hn).
  set (line' := if negb _ then Re.escape_commas line else line).
  assert (Hline' : clean (Py.strip line')).
  { unfold Py.strip. apply all_chars_rstrip, all_chars_lstrip. subst line'.
    destruct (negb _); [|exact Hline].
    apply all_chars_escape; [reflexivity|reflexivity|exact Hline]. }
  destruct (String.eqb (Py.last1 l) "=").
  - pose proof (chars_of_drop_final_eq l _ Hl) as Hd.
    assert (Hdn : has_char "010" (Re.drop_final_eq l) = false).
    { apply no_eol_chars in Hd as [Hdn _]. exact Hdn. }
    rewrite (replace_nl_line _ Hdn).
    exists (Re.drop_final_eq l +:+ Py.strip line'). split.
    + rewrite append_assoc. reflexivity.
    + rewrite all_chars_app, Hd. exact Hline'.
  - rewrite (replace_nl_line _ Hn).
    exists (l +:+ Py.strip line'). split.
    + rewrite append_assoc. reflexivity.
    + rewrite all_chars_app, Hl. exact Hline'.
Qed.

Lemma fix_step_lines st x : fix_state_lines st → fix_state_lines (fix_step opts st x).
Proof.
  intros [Hl Hlast]. unfold fix_step.
  pose proof (unix_line_clean x) as Hx.
  destruct (has_last_line st && fs_started_quoted_printable st
            && negb (Re.header (unix_line x))) eqn:E.
  - split; [exact Hl|]. cbn [fs_last_line].
    apply andb_true_iff in E as [E _]. apply andb_true_iff in E as [E _].
    unfold has_last_line in E. destruct (fs_last_line st) as [y|]; [|discriminate].
    destruct Hlast as (l & -> & Hc). cbn [default]. apply join_line_fixed; assumption.
  - set (st1 := if has_last_line st then _ else st).
    assert (H1 : Forall fixed_line (fs_lines st1)).
    { subst st1. destruct (has_last_line st) eqn:Hh; [|exact Hl].
      cbn [fs_lines]. unfold save_last_line. unfold has_last_line in Hh.
      destruct (fs_last_line st); [|discriminate].
      apply Forall_app. split; [exact Hl|]. constructor; [exact Hlast|constructor]. }
    pose proof (fix_line_clean (fs_started_quoted_printable st1) (unix_line x) Hx) as Hc.
    destruct (fix_line opts (fs_started_quoted_printable st1) (unix_line x))
      as [new_line started].
    split; [exact H1|]. cbn [fs_last_line]. exists new_line. split; [reflexivity|exact Hc].
Qed.

Lemma fix_fold_lines l : ∀ st, fix_state_lines st → fix_state_lines (fold_left (fix_step opts) l st).
Proof.
  induction l as [|x l IH]; intros st H; [exact H|].
  cbn [fold_left]. apply IH, fix_step_lines, H.
Qed.

(** X16. Whatever the text, the fixed text is made of lines that each end
    with one line feed and hold no other line feed and no carriage return:
    it is the join of its own lines with their line feeds. *)
Theorem fix_output_is_unix_lines (content : string) :
  fix_and_convert_to_v3 opts content
  = Py.join EmptyString
      (map (fun l => l +:+ Py.nl)
           (physical_lines (fix_and_convert_to_v3 opts content)))
  ∧ Forall (fun l => all_chars no_eol l = true)
      (physical_lines (fix_and_convert_to_v3 opts content))
  ∧ has_char "013" (fix_and_convert_to_v3 opts content) = false.
Proof.
  assert (H : ∃ ls, fix_and_convert_to_v3 opts content
                    = Py.join EmptyString (map (fun l => l +:+ Py.nl) ls)
                    ∧ Forall (fun l => all_chars no_eol l = true) ls).
  { unfold fix_and_convert_to_v3.
    assert (Hi : fix_state_lines fix_init) by (split; [constructor|exact I]).
    pose proof (fix_fold_lines (readlines (universal_newlines content)) _ Hi) as [Hl Hlast].
    set (st := fold_left _ _ _) in *.
    assert (F : Forall fixed_line (if has_last_line st then save_last_line st
                                   else fs_lines st)).
    { destruct (has_last_line st) eqn:Hh; [|exact Hl].
      unfold save_last_line. unfold has_last_line in Hh.
      destruct (fs_last_line st); [|discriminate].
      apply Forall_app. split; [exact Hl|]. constructor; [exact Hlast|constructor]. }
    clear Hl Hlast. induction F as [|x xs (l & -> & Hc) _ (ls & E & Hls)].
    - exists []. split; [reflexivity|constructor].
    - exists (l :: ls). split; [|constructor; assumption].
      cbn [map]. rewrite !join_cons, E. reflexivity. }
  destruct H as (ls & E & Hls). rewrite E at 2 3 4.
  rewrite (physical_lines_lines _ Hls). split; [exact E|]. split; [exact Hls|].
  apply lines_no_cr, Hls.
Qed.

End FixerLines.

(** ** The fixer on a text of one line *)





(** *** Two commas in a row *)








(** *** A bare type parameter *)











Section BareType.

Variable opts : options.




End BareType.


(** ** The names of a record *)

Lemma add_available_NoDup name names : NoDup names → NoDup (add_available name names).
Proof.
  intros H. unfold add_available. case_bool_decide as E; [exact H|].
  apply NoDup_app. split; [exact H|]. split; [|apply NoDup_singleton].
  intros x Hx Hx'. apply list_elem_of_singleton in Hx'. subst x. contradiction.
Qed.

Lemma add_available_not_nil name names : add_available name names ≠ [].
Proof.
  unfold add_available. case_bool_decide as E.
  - intros ->. inversion E.
  - destruct names; discriminate.
Qed.

Section VcardNamesFacts.

Variable token_sort_ratio : string → string → nat.
Variable str_of_name : Name → string.
Variable str_of_list : list string → string.

Let collect_vcard_names' :=
  collect_vcard_names token_sort_ratio str_of_name str_of_list.

Lemma collect_name_NoDup names attr_n names' :
  NoDup names →
  collect_name token_sort_ratio str_of_name str_of_list names attr_n = inr names' →
  NoDup names'.
Proof.
  intros Hn. unfold collect_name. destruct (negb _).
  - destruct (_ =? 1)%nat.
    + destruct (build_name_from_email _ _) as [e|name]; [discriminate|].
      intros H. inversion H; subst. apply add_available_NoDup, Hn.
    + intros H. inversion H; subst. apply add_available_NoDup, Hn.
  - intros H. inversion H; subst. exact Hn.
Qed.

Lemma collect_name_key_NoDup v names key names' :
  NoDup names →
  collect_name_key token_sort_ratio str_of_name str_of_list v names key = inr names' →
  NoDup names'.
Proof.
  intros Hn. unfold collect_name_key. destruct (hasattr v key).
  - apply (foldM_inv (NoDup (A := string))); [|exact Hn].
    intros s x s'. apply collect_name_NoDup.
  - intros H. inversion H; subst. exact Hn.
Qed.

Lemma collect_email_name_NoDup names email names' :
  NoDup names → collect_email_name token_sort_ratio names email = inr names' →
  NoDup names'.
Proof.
  intros Hn. unfold collect_email_name. destruct (cl_value email); try discriminate.
  destruct (negb _); [|intros H; inversion H; subst; exact Hn].
  destruct (Re.name_email s) as [[name addr]|]; intros H; inversion H; subst;
    [apply add_available_NoDup, Hn|exact Hn].
Qed.

Lemma collect_built_email_NoDup names email names' :
  NoDup names → collect_built_email token_sort_ratio names email = inr names' →
  NoDup names'.
Proof.
  intros Hn. unfold collect_built_email. destruct (cl_value email); try discriminate.
  destruct (build_name_from_email _ _) as [e|name]; [discriminate|].
  intros H. inversion H; subst. apply add_available_NoDup, Hn.
Qed.

Lemma collect_org_NoDup names org names' :
  NoDup names → collect_org token_sort_ratio names org = inr names' → NoDup names'.
Proof.
  intros Hn. unfold collect_org. destruct (value_truthy _);
    [|intros H; inversion H; subst; exact Hn].
  destruct (cl_value org) as [s|n|l]; [| discriminate |].
  - destruct (negb _); intros H; inversion H; subst;
      [apply add_available_NoDup, Hn|exact Hn].
  - intros H. inversion H; subst. clear H. revert names Hn.
    induction l as [|x l IH]; intros names Hn; [exact Hn|].
    cbn [fold_left]. apply IH. destruct (negb _); [apply add_available_NoDup, Hn|exact Hn].
Qed.

(** X19. The names collected for a record are all different, and a record
    with a TEL line gets one name at least. *)
Theorem collect_vcard_names_distinct (v : vcard) (available_names : list string) :
  collect_vcard_names' v = inr available_names →
  NoDup available_names
  ∧ (hasattr v "tel" = true → available_names ≠ []).
Proof.
  unfold collect_vcard_names', collect_vcard_names.
  destruct (foldM _ ["fn"; "n"] []) as [e|n1] eqn:E1; [discriminate|]. cbn [bind].
  assert (H1 : NoDup n1).
  { refine (foldM_inv (NoDup (A := string)) _ _ _ _ _ (NoDup_nil_2) E1).
    intros s x s'. apply collect_name_key_NoDup. }
  destruct (if hasattr v "email" then _ else _) as [e|n2] eqn:E2 in |- *; [discriminate|].
  cbn [bind].
  assert (H2 : NoDup n2).
  { destruct (hasattr v "email"); [|inversion E2; subst; exact H1].
    refine (foldM_inv (NoDup (A := string)) _ _ _ _ _ H1 E2).
    intros s x s'. apply collect_email_name_NoDup. }
  destruct (if no_name n2 && hasattr v "email" then _ else _) as [e|n3] eqn:E3 in |- *;
    [discriminate|].
  cbn [bind].
  assert (H3 : NoDup n3).
  { destruct (no_name n2 && hasattr v "email"); [|inversion E3; subst; exact H2].
    refine (foldM_inv (NoDup (A := string)) _ _ _ _ _ H2 E3).
    intros s x s'. apply collect_built_email_NoDup. }
  destruct (if no_name n3 && hasattr v "org" then _ else _) as [e|n4] eqn:E4 in |- *;
    [discriminate|].
  cbn [bind].
  assert (H4 : NoDup n4).
  { destruct (no_name n3 && hasattr v "org"); [|inversion E4; subst; exact H3].
    refine (foldM_inv (NoDup (A := string)) _ _ _ _ _ H3 E4).
    intros s x s'. apply collect_org_NoDup. }
  destruct (hasattr v "tel") eqn:Ht.
  - rewrite andb_true_r. destruct n4 as [|x n4]; cbn [no_name].
    + destruct (attr_list v "tel"); [discriminate|].
      intros H. inversion H; subst. split; [apply add_available_NoDup, H4|].
      intros _. apply add_available_not_nil.
    + intros H. inversion H; subst. split; [exact H4|]. intros _. discriminate.
  - rewrite andb_false_r. intros H. inversion H; subst. split; [exact H4|]. discriminate.
Qed.

End VcardNamesFacts.

(** X19, witness: a record with two names that are sanitized to one. *)
Lemma collect_vcard_names_distinct_witness :
  let v := [line "fn" (VStr "jean dupont"); line "fn" (VStr " Jean  Dupont ");
            line "tel" (VStr "01 02")] in
  collect_vcard_names (fun _ _ => 0) (fun _ => EmptyString) (fun _ => EmptyString) v
  = inr ["Jean Dupont"]
  ∧ NoDup ["Jean Dupont"]
  ∧ (hasattr v "tel" = true → ["Jean Dupont"] ≠ []).
Proof.
  intros v. split; [vm_compute; reflexivity|].
  apply (collect_vcard_names_distinct (fun _ _ => 0) (fun _ => EmptyString)
           (fun _ => EmptyString) v). vm_compute. reflexivity.
Defined.

(** ** Reading the records of files *)

Section ReadFilesFacts.

Variable opts : options.
Variable token_sort_ratio : string → string → nat.
Variable str_of_name : Name → string.
Variable str_of_list : list string → string.
Variable readComponents : string → list vcard * option failure.
Variable serialize : vcard → option failure.
Variable do_not_fix_and_convert do_not_overwrite_names
         mv_name_parenth_braces_to_note do_not_remove_name_in_email : bool.

Let read_vcard' :=
  read_vcard opts token_sort_ratio str_of_name str_of_list serialize
    do_not_overwrite_names mv_name_parenth_braces_to_note do_not_remove_name_in_email.
Let read_file' :=
  read_file opts token_sort_ratio str_of_name str_of_list readComponents serialize
    do_not_fix_and_convert do_not_overwrite_names mv_name_parenth_braces_to_note
    do_not_remove_name_in_email.
Let read_files' :=
  read_files opts token_sort_ratio str_of_name str_of_list readComponents serialize
    do_not_fix_and_convert do_not_overwrite_names mv_name_parenth_braces_to_note
    do_not_remove_name_in_email.
Let read_content' := read_content opts do_not_fix_and_convert.

(** No record is read: the name selection raises. *)
Lemma read_vcard_raises st v : ∃ f, read_vcard' st v = (st, Some f).
Proof.
  unfold read_vcard', read_vcard. destruct st as [vcards selected].
  destruct (collect_vcard_names _ _ _ v) as [e|names]; [eauto|].
  destruct (select_most_relevant_name_raises names) as (e & -> & _). eauto.
Qed.

Lemma read_file_returns st raw st' :
  read_file' st raw = inr st' →
  st' = st ∧ (readComponents (read_content' raw)).1 = [].
Proof.
  unfold read_file', read_file. fold read_content'.
  destruct (readComponents (read_content' raw)) as [[|v l] pf]; cbn [read_vcards fst].
  - destruct pf; [discriminate|]. intros H. inversion H. auto.
  - fold read_vcard'. destruct (read_vcard_raises st v) as (f & ->). discriminate.
Qed.

Lemma read_files_returns raws :
  ∀ st st', read_files' st raws = inr st' →
            st' = st ∧ Forall (fun raw => (readComponents (read_content' raw)).1 = []) raws.
Proof.
  induction raws as [|raw r IH]; intros st st' H; cbn [read_files' read_files] in H.
  - inversion H. auto.
  - fold read_file' in H. destruct (read_file' st raw) as [f|st1] eqn:E; [discriminate|].
    apply read_file_returns in E as [-> E]. fold read_files' in H.
    apply IH in H as [-> H]. auto.
Qed.

(** X20. [get_vcards_from_files] never returns a record: it returns only
    when the parser finds no record in any of the files, and then it
    returns the empty dict; for a file that holds a record it raises, and
    for no file at all it raises ValueError. *)
Theorem get_vcards_from_files_returns_nothing (files : list (string * string))
  (vcards : odict vcard) :
  get_vcards_from_files opts token_sort_ratio str_of_name str_of_list readComponents
    serialize do_not_fix_and_convert do_not_overwrite_names
    mv_name_parenth_braces_to_note do_not_remove_name_in_email files = inr vcards →
  vcards = od_empty
  ∧ files ≠ []
  ∧ Forall (fun file => (readComponents (read_content' file.2)).1 = []) files.
Proof.
  unfold get_vcards_from_files. destruct files as [|file files]; [discriminate|].
  fold read_files'.
  destruct (read_files' (od_empty, None) (map snd (file :: files))) as [f|[v s]] eqn:E;
    [discriminate|].
  intros H. inversion H; subst. apply read_files_returns in E as [E F].
  inversion E; subst. split; [reflexivity|]. split; [discriminate|].
  apply Forall_fmap in F. exact F.
Qed.

End ReadFilesFacts.

(** X20, witness: a file in which the parser finds no record. *)
Lemma get_vcards_from_files_returns_nothing_witness :
  let readComponents := fun _ : string => (@nil vcard, @None failure) in
  let files := [("empty.vcf", EmptyString)] in
  get_vcards_from_files default_options (fun _ _ => 0) (fun _ => EmptyString)
    (fun _ => EmptyString) readComponents (fun _ => None)
    false false false false files = inr od_empty
  ∧ (od_empty : odict vcard) = od_empty
  ∧ files ≠ []
  ∧ Forall (fun file => (readComponents (read_content default_options false file.2)).1 = [])
      files.
Proof.
  intros readComponents files. split; [reflexivity|].
  apply (get_vcards_from_files_returns_nothing default_options (fun _ _ => 0)
           (fun _ => EmptyString) (fun _ => EmptyString) readComponents (fun _ => None)
           false false false false files od_empty).
  reflexivity.
Defined.

(** ** Deduplication *)

Lemma set_name_raises opts token_sort_ratio str_of_name str_of_list attributes :
  ∃ e, set_name opts token_sort_ratio str_of_name str_of_list attributes
       = (attributes, inl e).
Proof.
  unfold set_name. destruct (collect_names _ _ _ attributes) as [e|names]; [eauto|].
  destruct (select_most_relevant_name_raises names) as (e & -> & _). eauto.
Qed.

(** X21. [deduplicate] never returns a record: whatever the attributes
    that [collect_attributes] returns and whatever [build_vcard] does, the
    call of [set_name] between them raises. *)
Theorem deduplicate_never_returns (opts : options)
  (token_sort_ratio : string → string → nat) (str_of_name : Name → string)
  (str_of_list : list string → string)
  (collect_attributes : list vcard → result (gmap string attr_entry))
  (build_vcard : gmap string attr_entry → result vcard) (v : vcard) :
  is_ok (deduplicate opts token_sort_ratio str_of_name str_of_list
           collect_attributes build_vcard v) = false.
Proof.
  unfold deduplicate. destruct (collect_attributes [v]) as [e|attributes]; [reflexivity|].
  cbn [bind].
  destruct (set_name_raises opts token_sort_ratio str_of_name str_of_list attributes)
    as (e & ->).
  reflexivity.
Qed.

(** ** Encodings in the key part *)












Section Encodings.

Variable opts : options.










End Encodings.




(** ** The options of the command line *)

(** The fixer reads one option. *)
Lemma fix_step_option o1 o2 st line :
  OPTION_DOT_NOT_FORCE_ESCAPE_COMAS o1 = OPTION_DOT_NOT_FORCE_ESCAPE_COMAS o2 →
  fix_step o1 st line = fix_step o2 st line.
Proof.
  intros H. unfold fix_step, join_line, fix_line, fix_key_value. rewrite H. reflexivity.
Qed.

Lemma fix_option o1 o2 content :
  OPTION_DOT_NOT_FORCE_ESCAPE_COMAS o1 = OPTION_DOT_NOT_FORCE_ESCAPE_COMAS o2 →
  fix_and_convert_to_v3 o1 content = fix_and_convert_to_v3 o2 content.
Proof.
  intros H. unfold fix_and_convert_to_v3.
  assert (E : ∀ ls st, fold_left (fix_step o1) ls st = fold_left (fix_step o2) ls st).
  { induction ls as [|l ls IH]; intros st; [reflexivity|].
    cbn [fold_left]. rewrite (fix_step_option o1 o2 st l H). apply IH. }
  rewrite E. reflexivity.
Qed.

(** X25. Whatever the arguments of the command line, [main] sets the options
    without error, the library then reads the french tweaks and the switch
    of the approximate matching as the arguments give them, but it reads the
    option of the commas as it was: [main] sets an attribute of another
    name, and the fixer escapes the commas as it does by default. *)
Theorem set_options_keeps_comma_escaping (args : Args) :
  ∃ vcardlib o,
    set_options args vcardlib_module = inr vcardlib
    ∧ module_options vcardlib = Some o
    ∧ OPTION_FRENCH_TWEAKS o = french_tweaks args
    ∧ OPTION_NO_MATCH_APPROX o = no_match_approx args
    ∧ OPTION_DOT_NOT_FORCE_ESCAPE_COMAS o = false
    ∧ ∀ content, fix_and_convert_to_v3 o content
                 = fix_and_convert_to_v3 default_options content.
Proof.
  destruct args as [nma ma mml nmsfl ms mmd mr ft dnfec].
  unfold set_options. cbn [no_match_approx match_attributes match_min_length
    no_match_same_first_letter match_startswith match_max_distance match_ratio
    french_tweaks do_not_force_escape_commas].
  set (m1 := <["OPTION_NO_MATCH_APPROX" := PBool nma]> vcardlib_module).
  assert (A : module_attr m1 "OPTION_MATCH_ATTRIBUTES"
              = ok (PStrs ["names"; "tel_!work"; "email"])) by (vm_compute; reflexivity).
  rewrite A. cbn [bind ok py_len length].
  destruct (py_bool (PStrs ma)), (strs_differ ma (PStrs ["names"; "tel_!work"; "email"])),
    (py_bool (PInt mml)), (py_bool (PInt mmd)), (py_bool (PInt mr)); cbn [bind ok];
    (eexists _, _; split; [reflexivity|]; split; [subst m1; vm_compute; reflexivity|];
     repeat split; intros; apply fix_option; reflexivity).
Qed.
